(** * dnslib: bit fields, domain names and the compressed name codec

    A shallow embedding of [dnslib/bit.py] ([get_bits], [set_bits]) and of
    [dnslib/label.py] ([DNSLabel], [DNSBuffer]) together with the properties
    of the name codec.

    Python integers are unbounded and are modelled by [Z]; byte strings are
    [list byte]; text strings are lists of code points; the compression
    table [names] of a [DNSBuffer] is a finite map from label tuples to
    offsets. *)

From Stdlib Require Import ZArith Lia List Bool.
From Stdlib.Strings Require Import Byte.
From Stdlib.Strings Require String.
From stdpp Require Import base option list gmap.

Local Open Scope Z_scope.

(** ** Bit utilities ([dnslib/bit.py]) *)

Module Bit.

(** [get_bits(data, offset, bits)]:
    [mask = ((1 << bits) - 1) << offset; return (data & mask) >> offset]. *)
Definition get_bits (data offset bits : Z) : Z :=
  let mask := Z.shiftl (Z.shiftl 1 bits - 1) offset in
  Z.shiftr (Z.land data mask) offset.

(** [set_bits(data, value, offset, bits)]:
    [mask = ((1 << bits) - 1) << offset; clear = 0xFFFF ^ mask;
     return (data & clear) | ((value << offset) & mask)]. *)
Definition set_bits (data value offset bits : Z) : Z :=
  let mask := Z.shiftl (Z.shiftl 1 bits - 1) offset in
  let clear := Z.lxor 65535 mask in
  Z.lor (Z.land data clear) (Z.land (Z.shiftl value offset) mask).

End Bit.

(** ** Exceptions and results

    The exceptions the modelled code can raise, and the result of a call:
    a value, a raised exception, or [OutOfFuel] when the recursion budget of
    a fuelled function is used up (no other function produces it). *)

Inductive exn : Type :=
| BufferError
| DNSLabelError
| UnicodeError
| StructError.

Inductive result (A : Type) : Type :=
| Ok (a : A)
| Raise (e : exn)
| OutOfFuel.

Arguments Ok {A} a.
Arguments Raise {A} e.
Arguments OutOfFuel {A}.

Definition bind {A B : Type} (r : result A) (k : A -> result B) : result B :=
  match r with
  | Ok a => k a
  | Raise e => Raise e
  | OutOfFuel => OutOfFuel
  end.

Notation "'let*' p ':=' r 'in' k" :=
  (bind r (fun p => k))
    (at level 10, p pattern, r at level 100, k at level 200).

(** ** Byte strings *)

Abbreviation bytes := (list byte).

#[global] Instance byte_eq_decision : EqDecision byte := byte_eq_dec.

Definition byte_of_N_total (n : N) : byte := default x00 (Byte.of_N n).

Lemma byte_of_to_N (b : byte) : byte_of_N_total (Byte.to_N b) = b.
Proof. unfold byte_of_N_total. now rewrite Byte.of_to_N. Qed.

#[global] Instance byte_countable : Countable byte :=
  inj_countable' Byte.to_N byte_of_N_total byte_of_to_N.

(** The integer value of a byte, and the byte of an integer (taken modulo
    256). *)
Definition byte_to_Z (b : byte) : Z := Z.of_N (Byte.to_N b).
Definition byte_of_Z (z : Z) : byte := byte_of_N_total (Z.to_N (z mod 256)).

(** [len(b)] as a Python integer. *)
Definition len {A : Type} (l : list A) : Z := Z.of_nat (length l).

Definition dot : byte := x2e.

Definition is_dot (b : byte) : bool := Byte.eqb b dot.

(** [b.split(b".")]: the components between the dots, empty ones
    included; always at least one component. *)
Fixpoint split_dot (s : bytes) : list bytes :=
  match s with
  | [] => [[]]
  | c :: rest =>
      if is_dot c then [] :: split_dot rest
      else match split_dot rest with
           | h :: t => (c :: h) :: t
           | [] => [[c]]
           end
  end.

(** [b.rstrip(b".")]: all trailing dots removed. *)
Fixpoint rstrip_dot (s : bytes) : bytes :=
  match s with
  | [] => []
  | c :: rest =>
      match rstrip_dot rest with
      | [] => if is_dot c then [] else [c]
      | r => c :: r
      end
  end.

(** [b".".join(labels)]. *)
Fixpoint join_dot (ls : list bytes) : bytes :=
  match ls with
  | [] => []
  | l :: rest =>
      match rest with
      | [] => l
      | _ => l ++ dot :: join_dot rest
      end
  end.

(** [b.lower()]: ASCII upper-case letters become lower case, every other
    byte is unchanged. *)
Definition byte_lower (b : byte) : byte :=
  let n := byte_to_Z b in
  if (65 <=? n) && (n <=? 90) then byte_of_Z (n + 32) else b.

Definition lower (s : bytes) : bytes := map byte_lower s.

(** [b.decode()] succeeds: strict UTF-8 as Python decodes it (no overlong
    forms, no surrogates, nothing above U+10FFFF). *)
Definition in_range (lo hi : Z) (b : byte) : bool :=
  (lo <=? byte_to_Z b) && (byte_to_Z b <=? hi).

Definition is_cont (b : byte) : bool := in_range 128 191 b.

Fixpoint utf8_decodable (s : bytes) : bool :=
  match s with
  | [] => true
  | b0 :: t0 =>
      if in_range 0 127 b0 then utf8_decodable t0
      else match t0 with
      | [] => false
      | b1 :: t1 =>
          if in_range 194 223 b0 then is_cont b1 && utf8_decodable t1
          else match t1 with
          | [] => false
          | b2 :: t2 =>
              if in_range 224 239 b0 then
                (if in_range 224 224 b0 then in_range 160 191 b1
                 else if in_range 237 237 b0 then in_range 128 159 b1
                 else is_cont b1)
                && is_cont b2 && utf8_decodable t2
              else match t2 with
              | [] => false
              | b3 :: t3 =>
                  if in_range 240 244 b0 then
                    (if in_range 240 240 b0 then in_range 144 191 b1
                     else if in_range 244 244 b0 then in_range 128 143 b1
                     else is_cont b1)
                    && is_cont b2 && is_cont b3 && utf8_decodable t3
                  else false
              end
          end
      end
  end.

(** ** Text strings

    A Python [str] is a sequence of code points. *)

Abbreviation str := (list N).

Definition is_digit (c : N) : bool := ((48 <=? c) && (c <=? 57))%N.

(** [ESCAPE.sub(lambda m: chr(int(m[1])), label)] with
    [ESCAPE = re.compile(r"\\([0-9][0-9][0-9])")]: every backslash followed by
    three decimal digits is replaced, left to right, by the character with
    that number. *)
Fixpoint ESCAPE_sub (s : str) : str :=
  match s with
  | [] => []
  | x :: tl =>
      match tl with
      | a :: b :: c :: rest =>
          if (x =? 92)%N && is_digit a && is_digit b && is_digit c
          then (100 * (a - 48) + 10 * (b - 48) + (c - 48))%N :: ESCAPE_sub rest
          else x :: ESCAPE_sub tl
      | _ => x :: ESCAPE_sub tl
      end
  end.

(** [s.encode("ascii")]: [None] stands for [UnicodeEncodeError]. *)
Fixpoint encode_ascii (s : str) : option bytes :=
  match s with
  | [] => Some []
  | c :: rest =>
      if (c <? 128)%N then
        match Byte.of_N c, encode_ascii rest with
        | Some b, Some r => Some (b :: r)
        | _, _ => None
        end
      else None
  end.

(** The IDNA codec of the Python library on a name with a character outside
    ASCII (nameprep and punycode); it is not part of dnslib and is taken as
    an interface. *)
Class Idna : Type := idna_unicode : str -> result bytes.

(** [s.encode("idna")]: the empty string encodes to the empty byte string;
    an ASCII name is returned as it is after its labels are checked (no
    empty label but the last, none of 64 bytes or more); any other name goes
    through [idna_unicode]. *)
Definition encode_idna `{Idna} (s : str) : result bytes :=
  match s with
  | [] => Ok []
  | _ =>
      match encode_ascii s with
      | Some r =>
          let labels := split_dot r in
          if forallb (fun l => (0 <? len l) && (len l <? 64))
               (List.removelast labels)
             && negb (64 <=? len (List.last labels []))
          then Ok r
          else Raise UnicodeError
      | None => idna_unicode s
      end
  end.

(** ** Domain names ([class DNSLabel]) *)

Record DNSLabel : Type := mkDNSLabel { label : list bytes }.

(** What a [DNSLabel] can be built from. *)
Inductive DNSLabelCreateTypes : Type :=
| of_DNSLabel (l : DNSLabel)
| of_list (l : list bytes)
| of_str (s : str)
| of_bytes (b : bytes)
| of_None.

(** [DNSLabel.__init__]. *)
Definition DNSLabel_init `{Idna} (x : DNSLabelCreateTypes) : result DNSLabel :=
  match x with
  | of_DNSLabel l => Ok (mkDNSLabel (label l))
  | of_list l => Ok (mkDNSLabel l)
  | of_None => Ok (mkDNSLabel [])
  | of_str s =>
      if bool_decide (s = []) || bool_decide (s = [46%N])
      then Ok (mkDNSLabel [])
      else
        let s := ESCAPE_sub s in
        let* e := encode_idna s in
        Ok (mkDNSLabel (split_dot (rstrip_dot e)))
  | of_bytes b =>
      if bool_decide (b = []) || bool_decide (b = [dot])
      then Ok (mkDNSLabel [])
      else Ok (mkDNSLabel (split_dot (rstrip_dot b)))
  end.

(** [DNSLabel.__len__]: [len(b".".join(self.label))]. *)
Definition DNSLabel_len (n : DNSLabel) : Z := len (join_dot (label n)).

(** [DNSLabel.__eq__] between two names:
    [[l.lower() for l in self.label] == [l.lower() for l in other.label]]. *)
Definition DNSLabel_eq (a b : DNSLabel) : bool :=
  bool_decide (map lower (label a) = map lower (label b)).

(** [DNSLabel.__eq__] against any value: a value that is not a [DNSLabel]
    is converted first. *)
Definition DNSLabel_eq_any `{Idna} (a : DNSLabel) (other : DNSLabelCreateTypes)
  : result bool :=
  match other with
  | of_DNSLabel b => Ok (DNSLabel_eq a b)
  | _ => let* b := DNSLabel_init other in Ok (DNSLabel_eq a b)
  end.

(** [DNSLabel.__hash__]: [hash(tuple(map(lambda x: x.lower(), self.label)))],
    for any hash function on tuples of byte strings. *)
Definition DNSLabel_hash (hash : list bytes -> Z) (a : DNSLabel) : Z :=
  hash (map lower (label a)).

(** ** The byte buffer ([class Buffer]) and the name codec
       ([class DNSBuffer])

    [DNSBuffer] extends [Buffer] ([data], [offset]) with the compression
    table [names]. *)

Record DNSBuffer : Type := mkDNSBuffer {
  data : bytes;
  offset : Z;
  names : gmap (list bytes) Z
}.

(** [DNSBuffer(data)]: cursor 0, empty table. *)
Definition DNSBuffer_init (d : bytes) : DNSBuffer := mkDNSBuffer d 0 ∅.

(** [self.offset = k]. *)
Definition set_offset (k : Z) (st : DNSBuffer) : DNSBuffer :=
  mkDNSBuffer (data st) k (names st).

(** [self.names[key] = v]. *)
Definition set_name (key : list bytes) (v : Z) (st : DNSBuffer) : DNSBuffer :=
  mkDNSBuffer (data st) (offset st) (<[key := v]> (names st)).

(** The format strings the name codec uses: ["!B"] (one byte) and ["!H"]
    (two bytes, big-endian). *)
Inductive fmt : Type := fmt_B | fmt_H.

Definition calcsize (f : fmt) : nat :=
  match f with fmt_B => 1%nat | fmt_H => 2%nat end.

(** Big-endian bytes of an integer, and back. *)
Fixpoint be_encode (n : nat) (v : Z) : bytes :=
  match n with
  | O => []
  | S k => be_encode k (v / 256) ++ [byte_of_Z v]
  end.

Definition be_decode (bs : bytes) : Z :=
  fold_left (fun acc b => acc * 256 + byte_to_Z b) bs 0.

(** Modelled from the spec: [class Buffer] of [dnslib/buffer.py], which
    [DNSBuffer] extends, is not among the sources. Spec 4.2: a growable byte
    buffer with an integer cursor for both read and write; reads advance
    the cursor and any out-of-range read raises a buffer error; writes
    extend the buffer if the cursor equals its end and are in place
    otherwise, and never fail except for length-prefix overflow. *)
Definition remaining (st : DNSBuffer) : Z := len (data st) - offset st.

(** Modelled from the spec: [Buffer.get(n)], the raw slice read. *)
Definition get (n : Z) (st : DNSBuffer) : result (bytes * DNSBuffer) :=
  if (n <? 0) || (offset st <? 0) || (remaining st <? n) then Raise BufferError
  else Ok (take (Z.to_nat n) (drop (Z.to_nat (offset st)) (data st)),
           set_offset (offset st + n) st).

(** Modelled from the spec: a raw write of [bs] at the cursor, which
    advances past it. At the end of the buffer the bytes are appended. *)
Definition write (bs : bytes) (st : DNSBuffer) : DNSBuffer :=
  let k := Z.to_nat (offset st) in
  mkDNSBuffer (take k (data st) ++ bs ++ drop (k + length bs)%nat (data st))
    (offset st + len bs) (names st).

(** Modelled from the spec: [Buffer.append(bytes)]. *)
Definition append (bs : bytes) (st : DNSBuffer) : DNSBuffer := write bs st.

(** Modelled from the spec: [Buffer.pack(fmt, value)] of one big-endian
    fixed-width integer; a value that the format cannot hold is an error
    of the [struct] module. *)
Definition pack (f : fmt) (v : Z) (st : DNSBuffer) : result DNSBuffer :=
  if (v <? 0) || (2 ^ (8 * Z.of_nat (calcsize f)) <=? v) then Raise StructError
  else Ok (write (be_encode (calcsize f) v) st).

(** Modelled from the spec: [Buffer.unpack_one(fmt)]. *)
Definition unpack_one (f : fmt) (st : DNSBuffer) : result (Z * DNSBuffer) :=
  let* (bs, st) := get (Z.of_nat (calcsize f)) st in
  Ok (be_decode bs, st).

(** Modelled from the spec: [Buffer.append_with_length(fmt, bytes)], a
    length prefix followed by the bytes; the length must fit. *)
Definition append_with_length (f : fmt) (bs : bytes) (st : DNSBuffer)
  : result DNSBuffer :=
  if 2 ^ (8 * Z.of_nat (calcsize f)) <=? len bs then Raise BufferError
  else
    let* st := pack f (len bs) st in
    Ok (append bs st).

Import Bit.

(** [DNSBuffer.decode_name(last)]: the [while not done] loop, with the
    labels read so far. One unit of [fuel] is spent on every iteration, and
    the recursive call [self.decode_name(save)] of the pointer branch starts
    a new loop on what is left of it. The result is the label list and the
    buffer. *)
Fixpoint decode_name_loop (fuel : nat) (last : Z) (label : list bytes)
  (st : DNSBuffer) {struct fuel} : result (list bytes * DNSBuffer) :=
  match fuel with
  | O => OutOfFuel
  | S fuel' =>
      let* (length, st) := unpack_one fmt_B st in
      if get_bits length 6 2 =? 3 then
        let st := set_offset (offset st - 1) st in
        let* (h, st) := unpack_one fmt_H st in
        let pointer := get_bits h 0 14 in
        let save := offset st in
        if last =? save then Raise BufferError
        else if pointer <? offset st then
          let st := set_offset pointer st in
          let* (sub, st) := decode_name_loop fuel' save [] st in
          let st := set_offset save st in
          Ok (label ++ sub, st)
        else Raise BufferError
      else if length >? 0 then
        let* (l, st) := get length st in
        if utf8_decodable l then decode_name_loop fuel' last (label ++ [l]) st
        else Raise BufferError
      else Ok (label, st)
  end.

(** [DNSBuffer.decode_name(last=-1)]: [return DNSLabel(label)]. *)
Definition decode_name (fuel : nat) (last : Z) (st : DNSBuffer)
  : result (DNSLabel * DNSBuffer) :=
  let* (label, st) := decode_name_loop fuel last [] st in
  Ok (mkDNSLabel label, st).

(** [name = DNSLabel(name)] unless [name] is a [DNSLabel] already. *)
Definition as_DNSLabel `{Idna} (name : DNSLabelCreateTypes) : result DNSLabel :=
  match name with
  | of_DNSLabel l => Ok l
  | _ => DNSLabel_init name
  end.

(** [DNSBuffer.encode_name]: the [while name] loop and what follows it. *)
Fixpoint encode_name_loop (name : list bytes) (st : DNSBuffer)
  : result DNSBuffer :=
  match name with
  | [] => Ok (append [x00] st)
  | element :: rest =>
      match names st !! name with
      | Some pointer =>
          let pointer := set_bits pointer 3 14 2 in
          pack fmt_H pointer st
      | None =>
          let st := set_name name (offset st) st in
          if len element >? 63 then Raise DNSLabelError
          else
            let* st := append_with_length fmt_B element st in
            encode_name_loop rest st
      end
  end.

(** [DNSBuffer.encode_name(name)]. *)
Definition encode_name `{Idna} (name : DNSLabelCreateTypes) (st : DNSBuffer)
  : result DNSBuffer :=
  let* name := as_DNSLabel name in
  if DNSLabel_len name >? 253 then Raise DNSLabelError
  else encode_name_loop (label name) st.

(** [DNSBuffer.encode_name_nocompress]: the [for element in name.label]
    loop and what follows it. *)
Fixpoint encode_name_nocompress_loop (name : list bytes) (st : DNSBuffer)
  : result DNSBuffer :=
  match name with
  | [] => Ok (append [x00] st)
  | element :: rest =>
      if len element >? 63 then Raise DNSLabelError
      else
        let* st := append_with_length fmt_B element st in
        encode_name_nocompress_loop rest st
  end.

(** [DNSBuffer.encode_name_nocompress(name)]. *)
Definition encode_name_nocompress `{Idna} (name : DNSLabelCreateTypes)
  (st : DNSBuffer) : result DNSBuffer :=
  let* name := as_DNSLabel name in
  if DNSLabel_len name >? 253 then Raise DNSLabelError
  else encode_name_nocompress_loop (label name) st.

(** An IDNA codec that knows ASCII names only. *)
Definition ascii_only : Idna := fun _ => Raise UnicodeError.

(** ** More of [dnslib/bit.py] *)

(** [str(d)] for a decimal digit [d]. *)
Definition digit_str (d : Z) : str := [(48 + Z.to_N d)%N].

(** [range(count - 1, -1, -1)]. *)
Definition range_down (count : Z) : list Z :=
  map (fun i => count - 1 - Z.of_nat i) (seq 0 (Z.to_nat count)).

(** [binary(n, count, reverse)]:
    [bits = [str((n >> y) & 1) for y in range(count - 1, -1, -1)]], reversed
    when [reverse] is set, and joined. *)
Definition binary (n count : Z) (reverse : bool) : str :=
  let bits := map (fun y => digit_str (Z.land (Z.shiftr n y) 1)) (range_down count) in
  concat (if reverse then rev bits else bits).

(** [int(s, 2)] on a string of the digits [0] and [1]. [None] is the
    [ValueError] that Python raises for the empty string; a string with
    any other character (a sign, blanks, an underscore or the prefix [0b],
    which [int] reads too) is outside this model and gives [None] as
    well. *)
Definition base2_step (acc : option Z) (c : N) : option Z :=
  match acc with
  | Some a =>
      if (c =? 48)%N then Some (2 * a)
      else if (c =? 49)%N then Some (2 * a + 1)
      else None
  | None => None
  end.

Definition int_base2 (s : str) : option Z :=
  match s with
  | [] => None
  | _ => fold_left base2_step s (Some 0)
  end.

(** ** More of [class DNSLabel] *)

(** Python's [t[i:]] and [t[:i]]: a negative index counts from the end,
    and an index outside the sequence is clamped. *)
Definition slice_index {A : Type} (i : Z) (t : list A) : nat :=
  Z.to_nat (if i <? 0 then Z.max 0 (i + len t) else Z.min i (len t)).

Definition slice_from {A : Type} (i : Z) (t : list A) : list A :=
  drop (slice_index i t) t.

Definition slice_to {A : Type} (i : Z) (t : list A) : list A :=
  take (slice_index i t) t.

(** [DNSLabel.add(name)]: [new = DNSLabel(name)], then
    [new.label += self.label] when [self.label] is not empty. *)
Definition DNSLabel_add `{Idna} (self : DNSLabel) (name : DNSLabelCreateTypes)
  : result DNSLabel :=
  let* new := DNSLabel_init name in
  match label self with
  | [] => Ok new
  | _ => Ok (mkDNSLabel (label new ++ label self))
  end.

(** [DNSLabel.matchSuffix(suffix)]:
    [DNSLabel(self.label[-len(suffix.label):]) == suffix]. *)
Definition matchSuffix `{Idna} (self : DNSLabel) (suffix : DNSLabelCreateTypes)
  : result bool :=
  let* suffix := DNSLabel_init suffix in
  let* tail := DNSLabel_init (of_list (slice_from (- len (label suffix)) (label self))) in
  DNSLabel_eq_any tail (of_DNSLabel suffix).

(** [DNSLabel.stripSuffix(suffix)]. *)
Definition stripSuffix `{Idna} (self : DNSLabel) (suffix : DNSLabelCreateTypes)
  : result DNSLabel :=
  let* suffix := DNSLabel_init suffix in
  let* m := matchSuffix self (of_DNSLabel suffix) in
  if m then DNSLabel_init (of_list (slice_to (- len (label suffix)) (label self)))
  else Ok self.

(** [DNSLabel.__ne__]: [not self == other]. *)
Definition DNSLabel_ne_any `{Idna} (a : DNSLabel) (other : DNSLabelCreateTypes)
  : result bool :=
  let* e := DNSLabel_eq_any a other in
  Ok (negb e).

(** [LDH = set(range(33, 127))]. *)
Definition in_LDH (c : byte) : bool := in_range 33 126 c.

Definition byte_to_N (c : byte) : N := Byte.to_N c.

(** ["\\%03d" % c] for a byte [c]: a backslash and three decimal digits. *)
Definition escape_byte (c : byte) : str :=
  let n := Byte.to_N c in
  [92; 48 + n / 100; 48 + (n / 10) mod 10; 48 + n mod 10]%N.

(** [DNSLabel._decode(s)]. A byte string inside [LDH] is ASCII, and
    [s.decode()] is then the string of the same code points. *)
Definition DNSLabel_decode (s : bytes) : str :=
  if forallb in_LDH s then map byte_to_N s
  else concat (map (fun c => if in_LDH c then [byte_to_N c] else escape_byte c) s).

(** [".".join(parts)] on text strings. *)
Fixpoint join_str (parts : list str) : str :=
  match parts with
  | [] => []
  | p :: rest =>
      match rest with
      | [] => p
      | _ => p ++ 46%N :: join_str rest
      end
  end.

(** [DNSLabel.__str__]:
    [".".join([self._decode(bytearray(s)) for s in self.label]) + "."]. *)
Definition DNSLabel_str (self : DNSLabel) : str :=
  join_str (map DNSLabel_decode (label self)) ++ [46%N].

(** ** [hexdump] of [dnslib/bit.py] *)

(** [FILTER = bytearray([(i < 32 or i > 127) and 46 or i for i in
    range(256)])], as the function of [bytes.translate]. *)
Definition FILTER (i : byte) : byte :=
  if (byte_to_Z i <? 32) || (byte_to_Z i >? 127) then x2e else i.

(** One lower-case hexadecimal digit. *)
Definition hex_digit (d : Z) : N :=
  if d <? 10 then (48 + Z.to_N d)%N else (97 + Z.to_N (d - 10))%N.

(** The hexadecimal digits of a non-negative integer, most significant
    first; the number of bits of [n] bounds the number of its digits. *)
Fixpoint hex_aux (fuel : nat) (n : Z) (acc : str) : str :=
  match fuel with
  | O => acc
  | S fuel' =>
      let acc := hex_digit (n mod 16) :: acc in
      if n <? 16 then acc else hex_aux fuel' (n / 16) acc
  end.

Definition hex (n : Z) : str := hex_aux (S (Z.to_nat (Z.log2 n))) n [].

(** Zero padding on the left up to [w] characters. *)
Definition zfill (w : nat) (s : str) : str := repeat 48%N (w - length s) ++ s.

(** ["%02x" % x] for a byte value [x]. *)
Definition format_02x (x : Z) : str := zfill 2 (hex x).

(** [f"{n:04x}"]: the sign of a negative number counts in the width. *)
Definition format_04x (n : Z) : str :=
  if n <? 0 then 45%N :: zfill 3 (hex (- n)) else zfill 4 (hex n).

(** ["%-*s" % (w, s)]: [s] padded with spaces on the right up to [|w|]
    characters. *)
Definition ljust (w : Z) (s : str) : str :=
  s ++ repeat 32%N (Z.to_nat (Z.abs w) - length s).

(** [sep.join(parts)] for a separator of one character. *)
Fixpoint join_sep (sep : N) (parts : list str) : str :=
  match parts with
  | [] => []
  | p :: rest =>
      match rest with
      | [] => p
      | _ => p ++ sep :: join_sep sep rest
      end
  end.

(** One line of the dump, for the chunk [s] at count [n]. The filtered
    bytes are below 128, so that [lf.decode()] is the string of the same
    code points. *)
Definition hexdump_line (s : bytes) (length left right n : Z) (prefix : str) : str :=
  let l := slice_to left s in
  let r := slice_from left s in
  let hexa := ljust (left * 3) (join_sep 32 (map (fun x => format_02x (byte_to_Z x)) l)) in
  let hexb := ljust (right * 3) (join_sep 32 (map (fun x => format_02x (byte_to_Z x)) r)) in
  let lf := map FILTER l in
  let rf := map FILTER r in
  prefix ++ format_04x n ++ [32; 32]%N ++ hexa ++ [32]%N ++ hexb ++ [32]%N
    ++ map byte_to_N lf ++ [32]%N ++ map byte_to_N rf.

(** The [while src] loop of [hexdump], with the list [result] of the lines
    so far: one unit of fuel for every iteration. *)
Fixpoint hexdump_loop (fuel : nat) (src : bytes) (length left right n : Z)
  (prefix : str) (lines : list str) : result (list str) :=
  match fuel with
  | O => OutOfFuel
  | S fuel' =>
      match src with
      | [] => Ok lines
      | _ =>
          let s := slice_to length src in
          let src := slice_from length src in
          let lines := lines ++ [hexdump_line s length left right n prefix] in
          hexdump_loop fuel' src length left right (n + length) prefix lines
      end
  end.

(** The lines of [hexdump(src, length, prefix)]. *)
Definition hexdump_lines (fuel : nat) (src : bytes) (length : Z) (prefix : str)
  : result (list str) :=
  let n := 0 in
  let left := length / 2 in
  let right := length - left in
  hexdump_loop fuel src length left right n prefix [].

(** [hexdump(src, length, prefix)]: the lines joined by newlines. *)
Definition hexdump (fuel : nat) (src : bytes) (length : Z) (prefix : str)
  : result str :=
  let* lines := hexdump_lines fuel src length prefix in
  Ok (join_sep 10 lines).

(** ** Predicates used by the properties, and example data *)

(** [in_field offset bits i]: bit [i] lies in the field
    [offset, offset + bits). *)
Definition in_field (offset bits i : Z) : bool :=
  (offset <=? i) && (i <? offset + bits).

(** The property the documentation gives for [set_bits]: the field
    [offset, offset + bits) of the result holds the low bits of [value],
    every other bit is the bit of [data]. *)
Definition set_bits_spec (data value offset bits : Z) : Prop :=
  forall i, 0 <= i ->
    Z.testbit (set_bits data value offset bits) i =
      if in_field offset bits i then Z.testbit value (i - offset)
      else Z.testbit data i.

(** The text strings ["Foo.Com"] and ["foo.com"]. *)
Definition Foo_Com : str := [70; 111; 111; 46; 67; 111; 109]%N.
Definition foo_com : str := [102; 111; 111; 46; 99; 111; 109]%N.

(** A length byte of 64 followed by 64 letters and the end of the name. *)
Definition long_label_buffer : bytes := x40 :: repeat x61 64 ++ [x00].

(** A pointer at offset 0 to offset 1, where the label [a] is read, and
    after it a pointer at offset 3 back to offset 0. *)
Definition cycle_buffer : bytes := [xc0; x01; x61; xc0; x00].

Definition cycle_at (k : Z) : DNSBuffer := mkDNSBuffer cycle_buffer k ∅.

(** The cursor is inside the buffer or at its end. *)
Definition cursor_ok (st : DNSBuffer) : Prop := 0 <= offset st <= len (data st).

(** One length-prefixed label per component, followed by a zero byte. *)
Definition wire (ls : list bytes) : bytes :=
  concat (map (fun l => byte_of_Z (len l) :: l) ls) ++ [x00].

(** A name with a label that is too long. *)
Definition has_long_label (ls : list bytes) : Prop :=
  Exists (fun l => 63 < len l) ls.

Definition labels_fit (ls : list bytes) : Prop :=
  Forall (fun l => len l <= 63) ls.

(** A buffer that already holds the name [a.] and has it in its table. *)
Definition buffer_with_a : DNSBuffer :=
  mkDNSBuffer [x01; x61; x00] 3 (<[ [[x61]] := 0 ]> ∅).

(** Every key of the table is longer than [name]: no suffix of [name] is in
    the table. *)
Definition table_longer (name : list bytes) (st : DNSBuffer) : Prop :=
  forall k v, names st !! k = Some v -> (length name < length k)%nat.

(** A label as the specification of the data model has it: 1 to 63 bytes,
    and UTF-8-decodable so that [decode_name] accepts it. *)
Definition valid_label (l : bytes) : Prop :=
  1 <= len l <= 63 /\ utf8_decodable l = true.

(** The name [www.example.com.] of the specification's first scenario. *)
Definition www_example_com : DNSLabel :=
  mkDNSLabel [[x77; x77; x77]; [x65; x78; x61; x6d; x70; x6c; x65];
              [x63; x6f; x6d]].

(** The last stored label, if any, is not empty. *)
Definition no_trailing_empty (ls : list bytes) : Prop := last ls <> Some [].

(** A byte string with a byte that is not a dot. *)
Definition has_non_dot (b : bytes) : Prop := Exists (fun c => is_dot c = false) b.

(** A byte string without a dot. *)
Definition dot_free (l : bytes) : Prop := Forall (fun c => is_dot c = false) l.

(** The last label of a name exists and is not empty. *)
Definition ends_with_label (ls : list bytes) : Prop :=
  exists l c, last ls = Some l /\ last l = Some c.

(** A label that [__str__] prints so that [DNSLabel(str)] reads it back:
    not empty, at most 63 bytes, all ASCII, without a dot or a backslash. *)
Definition plain_byte (c : byte) : Prop :=
  (Byte.to_N c < 128)%N /\ c <> dot /\ c <> x5c.

Definition plain_label (l : bytes) : Prop :=
  l <> [] /\ len l <= 63 /\ Forall plain_byte l.

(** The name [k] can be decoded at offset [off] of the data [d]: with
    enough fuel the loop of [decode_name] started at [off] returns the
    labels of [k] and stops inside [d], whatever is appended to [d], for
    every [last] that is not an offset saved inside [d]. *)
Definition decodes (d : bytes) (off : Z) (k : list bytes) : Prop :=
  0 <= off /\
  exists n : nat,
    forall (fuel : nat) (extra : bytes) (last : Z) (acc : list bytes)
           (nm : gmap (list bytes) Z),
      (n <= fuel)%nat -> last < 0 \/ len d < last ->
      exists off',
        off < off' <= len d
        /\ decode_name_loop fuel last acc (mkDNSBuffer (d ++ extra) off nm) =
             Ok (acc ++ k, mkDNSBuffer (d ++ extra) off' nm).

(** Every entry of the compression table is an offset of 14 bits at which
    its key can be decoded. *)
Definition table_ok (st : DNSBuffer) : Prop :=
  forall k off, names st !! k = Some off ->
    off < 16384 /\ decodes (data st) off k.

(** A character of a dump line: from the space (32) to code 127. *)
Definition dump_char (c : N) : Prop := (32 <= c <= 127)%N.

(** What [_decode] writes for one byte. *)
Definition decode_byte (c : byte) : str :=
  if in_LDH c then [byte_to_N c] else escape_byte c.

Definition printable (c : N) : Prop := (33 <= c <= 126)%N.

(** The label read by the loop at a length byte below 192. *)
Definition new_label (l : bytes) : Prop :=
  1 <= len l <= 191 /\ utf8_decodable l = true.

(** No byte of the data can start a pointer. *)
Definition pointer_free (d : bytes) : Prop := Forall (fun b => byte_to_Z b < 192) d.

(** The value of a digit character among [0] to [9] and [a] to [f], and
    the number that a string of such digits denotes, most significant
    digit first. Both are used on the digits written by [hex] only. *)
Definition hex_digit_value (c : N) : Z :=
  if (c <? 58)%N then Z.of_N c - 48 else Z.of_N c - 87.

Definition int_base16 (s : str) : Z :=
  fold_left (fun a c => 16 * a + hex_digit_value c) s 0.

(** The offset after the name that starts at [off], when no pointer is
    followed: a length byte 0 ends the name, a pointer (a byte of 192 or
    more) ends it after its two bytes, and a label is passed over with its
    length byte. *)
Fixpoint name_end (fuel : nat) (d : bytes) (off : Z) : option Z :=
  match fuel with
  | O => None
  | S fuel' =>
      match d !! Z.to_nat off with
      | None => None
      | Some b =>
          if 192 <=? byte_to_Z b then Some (off + 2)
          else if byte_to_Z b =? 0 then Some (off + 1)
          else name_end fuel' d (off + 1 + byte_to_Z b)
      end
  end.

(** A name of one label and, at offset 3, a pointer to it. *)
Definition pointer_buffer : bytes := [x01; x61; x00; xc0; x00].

(** A pointer at offset 0 with the value 1, the label [a] that starts at
    its second byte, and the end of the name. *)
Definition forward_pointer_buffer : bytes := [xc0; x01; x61; x00].

(** * Properties *)

(** ** Bit utilities *)

Module BitFacts.
Import Bit.

(** The doctests of the source. *)
Example get_bits_doctest1 : get_bits 28 2 1 = 1.
Proof. reflexivity. Qed.

Example get_bits_doctest2 : get_bits 28 0 4 = 12.
Proof. reflexivity. Qed.

Example set_bits_doctest1 : set_bits 0 10 0 4 = 10.
Proof. reflexivity. Qed.

Example set_bits_doctest2 : set_bits 0 10 3 4 = 80.
Proof. reflexivity. Qed.

Lemma mask_ones bits : Z.shiftl 1 bits - 1 = Z.ones bits.
Proof. unfold Z.ones. lia. Qed.

Lemma testbit_mask offset bits i :
  0 <= offset -> 0 <= bits -> 0 <= i ->
  Z.testbit (Z.shiftl (Z.shiftl 1 bits - 1) offset) i = in_field offset bits i.
Proof.
  intros Ho Hb Hi. rewrite mask_ones, Z.shiftl_spec by lia.
  unfold in_field.
  destruct (Z.leb_spec offset i) as [Hle | Hlt]; simpl.
  - rewrite Z.testbit_ones_nonneg by lia.
    destruct (Z.ltb_spec (i - offset) bits), (Z.ltb_spec i (offset + bits));
      try reflexivity; lia.
  - apply Z.testbit_neg_r. lia.
Qed.

Lemma testbit_65535 i : 0 <= i -> Z.testbit 65535 i = (i <? 16).
Proof.
  intros Hi. change 65535 with (Z.ones 16).
  apply Z.testbit_ones_nonneg; lia.
Qed.

(** Every bit of the result of [set_bits], for all non-negative arguments:
    the constant [0xFFFF] makes the function a 16-bit one. *)
Lemma set_bits_testbit data value offset bits i :
  0 <= offset -> 0 <= bits -> 0 <= i ->
  Z.testbit (set_bits data value offset bits) i =
    if in_field offset bits i
    then (Z.testbit data i && negb (i <? 16)) || Z.testbit value (i - offset)
    else Z.testbit data i && (i <? 16).
Proof.
  intros Ho Hb Hi. unfold set_bits.
  rewrite Z.lor_spec, !Z.land_spec, Z.lxor_spec, testbit_65535 by lia.
  rewrite testbit_mask by lia.
  rewrite Z.shiftl_spec by lia.
  destruct (in_field offset bits i), (i <? 16), (Z.testbit data i),
    (Z.testbit value (i - offset)); reflexivity.
Qed.

Lemma get_bits_testbit data offset bits i :
  0 <= offset -> 0 <= bits -> 0 <= i ->
  Z.testbit (get_bits data offset bits) i =
    Z.testbit data (i + offset) && (i <? bits).
Proof.
  intros Ho Hb Hi. unfold get_bits.
  rewrite Z.shiftr_spec, Z.land_spec, testbit_mask by lia.
  unfold in_field.
  destruct (Z.leb_spec offset (i + offset)); [| lia].
  destruct (Z.ltb_spec (i + offset) (offset + bits)), (Z.ltb_spec i bits);
    try reflexivity; lia.
Qed.

(** [get_bits] is the division/remainder one expects. *)
Lemma get_bits_div_mod data offset bits :
  0 <= offset -> 0 <= bits ->
  get_bits data offset bits = (data / 2 ^ offset) mod 2 ^ bits.
Proof.
  intros Ho Hb. apply Z.bits_inj'. intros i Hi.
  rewrite get_bits_testbit by lia.
  destruct (Z.ltb_spec i bits).
  - rewrite Z.mod_pow2_bits_low, Z.div_pow2_bits by lia.
    now rewrite andb_true_r.
  - rewrite Z.mod_pow2_bits_high by lia. now rewrite andb_false_r.
Qed.

Lemma testbit_above_16 data i : 0 <= data < 65536 -> 16 <= i -> Z.testbit data i = false.
Proof.
  intros Hd Hi. destruct (Z.eq_dec data 0) as [-> | Hne].
  - apply Z.testbit_0_l.
  - apply Z.bits_above_log2; [lia |].
    assert (Z.log2 data < 16); [| lia].
    apply Z.log2_lt_pow2; lia.
Qed.

(** C5 (as stated, refuted): with [data = 0x10000] bit 16 lies outside the
    field [0, 1) and is set in [data], yet [set_bits] clears it. *)
Lemma set_bits_clears_high_bits : ~ set_bits_spec 65536 0 0 1.
Proof.
  intros H. specialize (H 16 ltac:(lia)). vm_compute in H. discriminate.
Qed.

(** C5 (amended): for [data] below [2^16] and non-negative [value],
    [offset] and [bits], the field [offset, offset + bits) of
    [set_bits data value offset bits] holds the low [bits] bits of [value]
    and every bit outside the field is the bit of [data]. *)
Theorem set_bits_correct_16 data value offset bits :
  0 <= data < 65536 -> 0 <= value -> 0 <= offset -> 0 <= bits ->
  set_bits_spec data value offset bits.
Proof.
  intros Hd Hv Ho Hb i Hi.
  rewrite set_bits_testbit by lia.
  destruct (Z.ltb_spec i 16) as [Hlt | Hge].
  - now rewrite andb_false_r, andb_true_r.
  - rewrite (testbit_above_16 data i) by lia. reflexivity.
Qed.

Lemma set_bits_correct_16_witness :
  0 <= 513 < 65536 /\ set_bits_spec 513 10 3 4.
Proof. split; [lia | apply (set_bits_correct_16 513 10 3 4); lia]. Defined.

End BitFacts.

(** ** Bytes and big-endian integers *)

Lemma byte_to_Z_range (b : byte) : 0 <= byte_to_Z b < 256.
Proof.
  unfold byte_to_Z. pose proof (Byte.to_N_bounded b). lia.
Qed.

Lemma byte_of_to_Z (b : byte) : byte_of_Z (byte_to_Z b) = b.
Proof.
  unfold byte_of_Z. pose proof (byte_to_Z_range b) as Hr.
  rewrite Z.mod_small by lia. unfold byte_to_Z.
  rewrite N2Z.id. apply byte_of_to_N.
Qed.

Lemma byte_to_of_Z (z : Z) : byte_to_Z (byte_of_Z z) = z mod 256.
Proof.
  unfold byte_of_Z, byte_to_Z, byte_of_N_total.
  pose proof (Z.mod_pos_bound z 256 ltac:(lia)) as Hr.
  destruct (Byte.of_N (Z.to_N (z mod 256))) as [b |] eqn:E.
  - apply Byte.to_of_N in E. simpl. rewrite E. lia.
  - exfalso.
    pose proof (Byte.to_of_N_option_map (Z.to_N (z mod 256))) as H.
    rewrite E in H. simpl in H.
    destruct (N.leb_spec (Z.to_N (z mod 256)) 255); [discriminate | lia].
Qed.

Lemma be_decode_encode_H (v : Z) :
  0 <= v < 65536 -> be_decode (be_encode 2 v) = v.
Proof.
  intros Hv. unfold be_decode. simpl.
  rewrite !byte_to_of_Z.
  rewrite (Z.mod_small (v / 256)) by (split; [apply Z.div_pos | apply Z.div_lt_upper_bound]; lia).
  pose proof (Z.div_mod v 256 ltac:(lia)). lia.
Qed.

Lemma be_decode_encode_B (v : Z) :
  0 <= v < 256 -> be_decode (be_encode 1 v) = v.
Proof.
  intros Hv. unfold be_decode. simpl.
  rewrite byte_to_of_Z, Z.mod_small; lia.
Qed.

(** ** Compression pointers written by [encode_name] *)

Module PointerFacts.
Import Bit BitFacts.

(** [set_bits(pointer, 3, 14, 2)] keeps the low 14 bits of [pointer] and
    sets the two bits above them, whatever the size of [pointer]. *)
Lemma set_bits_pointer (pointer : Z) :
  set_bits pointer 3 14 2 = 49152 + pointer mod 16384.
Proof.
  unfold set_bits.
  change (Z.lxor 65535 (Z.shiftl (Z.shiftl 1 2 - 1) 14)) with (Z.ones 14).
  change (Z.land (Z.shiftl 3 14) (Z.shiftl (Z.shiftl 1 2 - 1) 14)) with 49152.
  rewrite Z.land_ones by lia. change (2 ^ 14) with 16384.
  assert (Hdisj : Z.land (pointer mod 16384) 49152 = 0).
  { apply Z.bits_inj'. intros i Hi.
    rewrite Z.land_spec, Z.bits_0.
    destruct (Z.ltb_spec i 14) as [Hlt | Hge].
    - replace (Z.testbit 49152 i) with false; [apply andb_false_r |].
      change 49152 with (Z.shiftl 3 14). now rewrite Z.shiftl_spec_low.
    - change 16384 with (2 ^ 14). now rewrite Z.mod_pow2_bits_high by lia. }
  rewrite <- Z.lxor_lor, <- Z.add_nocarry_lxor by exact Hdisj. lia.
Qed.

(** C10: when the loop of [encode_name] finds the current suffix in the
    table with a recorded offset of [2^14] or more, no error is raised: the
    two bytes written are the big-endian form of a 16-bit value whose high
    two bits are set and whose low 14 bits are the offset modulo [2^14]. *)
Theorem encode_name_pointer_truncated (name : list bytes) (st : DNSBuffer)
  (pointer : Z) :
  name <> [] ->
  names st !! name = Some pointer ->
  16384 <= pointer ->
  let v := 49152 + pointer mod 16384 in
  encode_name_loop name st = Ok (write (be_encode 2 v) st)
  /\ 49152 <= v < 65536
  /\ be_decode (be_encode 2 v) = v
  /\ get_bits v 14 2 = 3
  /\ get_bits v 0 14 = pointer mod 16384.
Proof.
  intros Hne Hlook Hbig v.
  pose proof (Z.mod_pos_bound pointer 16384 ltac:(lia)) as Hm.
  assert (Hv : 49152 <= v < 65536) by (unfold v; lia).
  split; [| split; [exact Hv | split; [apply be_decode_encode_H; lia | split]]].
  - destruct name as [| element rest]; [congruence |].
    cbn [encode_name_loop]. rewrite Hlook.
    rewrite set_bits_pointer. fold v. unfold pack.
    destruct (Z.ltb_spec v 0); [lia |].
    change (2 ^ (8 * Z.of_nat (calcsize fmt_H))) with 65536.
    destruct (Z.leb_spec 65536 v); [lia |]. reflexivity.
  - rewrite get_bits_div_mod by lia.
    change (2 ^ 14) with 16384. change (2 ^ 2) with 4.
    replace (v / 16384) with 3; [reflexivity |].
    apply Z.div_unique with (r := pointer mod 16384); unfold v; lia.
  - rewrite get_bits_div_mod by lia.
    change (2 ^ 0) with 1. rewrite Z.div_1_r. change (2 ^ 14) with 16384.
    unfold v. replace (49152 + pointer mod 16384) with (pointer mod 16384 + 3 * 16384) by lia.
    rewrite Z_mod_plus_full. apply Z.mod_mod. lia.
Qed.

Lemma encode_name_pointer_truncated_witness :
  let st := mkDNSBuffer [] 0 (<[ [[x61]] := 20000 ]> ∅) in
  16384 <= 20000
  /\ encode_name_loop [[x61]] st = Ok (write [xce; x20] st).
Proof.
  intros st. split; [lia |].
  exact (proj1 (encode_name_pointer_truncated [[x61]] st 20000
                  ltac:(discriminate) eq_refl ltac:(lia))).
Defined.

End PointerFacts.

(** ** Equality and hashing of names *)

Section Equality.
Context `{idna : Idna}.
Variable hash : list bytes -> Z.

Lemma DNSLabel_eq_true (a b : DNSLabel) :
  DNSLabel_eq a b = true <-> map lower (label a) = map lower (label b).
Proof. unfold DNSLabel_eq. apply bool_decide_eq_true. Qed.

Lemma DNSLabel_eq_refl (a : DNSLabel) : DNSLabel_eq a a = true.
Proof. now apply DNSLabel_eq_true. Qed.

Lemma DNSLabel_eq_sym (a b : DNSLabel) : DNSLabel_eq a b = DNSLabel_eq b a.
Proof.
  unfold DNSLabel_eq. apply bool_decide_ext. split; intros H; now symmetry.
Qed.

Lemma byte_lower_idemp (b : byte) : byte_lower (byte_lower b) = byte_lower b.
Proof. destruct b; reflexivity. Qed.

(** C7: two names whose label sequences are equal after ASCII lower-casing
    compare equal and have the same hash, whatever the hash function on
    tuples; in particular [DNSLabel("Foo.Com") == DNSLabel("foo.com")] and
    their hashes agree. *)
Theorem DNSLabel_eq_hash_case_insensitive :
  (forall a b : DNSLabel,
      map lower (label a) = map lower (label b) ->
      DNSLabel_eq a b = true /\ DNSLabel_hash hash a = DNSLabel_hash hash b)
  /\ (exists a b : DNSLabel,
         DNSLabel_init (of_str Foo_Com) = Ok a
         /\ DNSLabel_init (of_str foo_com) = Ok b
         /\ DNSLabel_eq_any a (of_DNSLabel b) = Ok true
         /\ DNSLabel_hash hash a = DNSLabel_hash hash b).
Proof.
  split.
  - intros a b Hlow. split.
    + now apply DNSLabel_eq_true.
    + unfold DNSLabel_hash. now rewrite Hlow.
  - eexists. eexists.
    split; [vm_compute; reflexivity |].
    split; [vm_compute; reflexivity |].
    split; [vm_compute; reflexivity |].
    reflexivity.
Qed.

End Equality.

Lemma DNSLabel_eq_hash_case_insensitive_witness :
  let a := mkDNSLabel [[x57; x57; x57]; [x43; x6f; x4d]] in
  let b := mkDNSLabel [[x77; x57; x77]; [x63; x4f; x6d]] in
  map lower (label a) = map lower (label b)
  /\ DNSLabel_eq a b = true
  /\ DNSLabel_hash (fun t => len t) a = DNSLabel_hash (fun t => len t) b.
Proof.
  intros a b.
  pose proof (proj1 (@DNSLabel_eq_hash_case_insensitive ascii_only (fun t => len t)) a b) as H.
  assert (Hlow : map lower (label a) = map lower (label b)) by reflexivity.
  destruct (H Hlow) as [He Hh].
  split; [exact Hlow | split; [exact He | exact Hh]].
Defined.

(** ** Reading from the buffer *)

Lemma set_offset_data k st : data (set_offset k st) = data st.
Proof. reflexivity. Qed.

Lemma set_offset_offset k st : offset (set_offset k st) = k.
Proof. reflexivity. Qed.

Lemma set_offset_set_offset j k st : set_offset j (set_offset k st) = set_offset j st.
Proof. reflexivity. Qed.

Lemma lookup_lt_len {A} (l : list A) (k : nat) (x : A) :
  l !! k = Some x -> Z.of_nat k < len l.
Proof. intros H. apply lookup_lt_Some in H. unfold len. lia. Qed.

(** One byte under the cursor. *)
Lemma unpack_one_B st b :
  0 <= offset st ->
  data st !! Z.to_nat (offset st) = Some b ->
  unpack_one fmt_B st = Ok (byte_to_Z b, set_offset (offset st + 1) st).
Proof.
  intros Hpos Hb. unfold unpack_one, get, remaining.
  pose proof (lookup_lt_len _ _ _ Hb) as Hlt.
  change (Z.of_nat (calcsize fmt_B)) with 1.
  destruct (Z.ltb_spec (offset st) 0); [lia |].
  destruct (Z.ltb_spec (len (data st) - offset st) 1); [lia |].
  cbn [orb bind Z.ltb Z.compare].
  rewrite (drop_S _ _ _ Hb). reflexivity.
Qed.

(** Nothing under the cursor: the read fails. *)
Lemma unpack_one_B_end st :
  len (data st) <= offset st ->
  unpack_one fmt_B st = Raise BufferError.
Proof.
  intros Hend. unfold unpack_one, get, remaining.
  change (Z.of_nat (calcsize fmt_B)) with 1.
  destruct (Z.ltb_spec (len (data st) - offset st) 1); [| lia].
  now rewrite orb_true_r.
Qed.

(** Two bytes under the cursor, big-endian. *)
Lemma unpack_one_H st b0 b1 :
  0 <= offset st ->
  data st !! Z.to_nat (offset st) = Some b0 ->
  data st !! Z.to_nat (offset st + 1) = Some b1 ->
  unpack_one fmt_H st =
    Ok (byte_to_Z b0 * 256 + byte_to_Z b1, set_offset (offset st + 2) st).
Proof.
  intros Hpos Hb0 Hb1. unfold unpack_one, get, remaining.
  pose proof (lookup_lt_len _ _ _ Hb1) as Hlt.
  change (Z.of_nat (calcsize fmt_H)) with 2.
  destruct (Z.ltb_spec (offset st) 0); [lia |].
  destruct (Z.ltb_spec (len (data st) - offset st) 2); [lia |].
  cbn [orb bind Z.ltb Z.compare].
  rewrite (drop_S _ _ _ Hb0).
  replace (Z.to_nat (offset st + 1)) with (S (Z.to_nat (offset st))) in Hb1 by lia.
  rewrite (drop_S _ _ _ Hb1). reflexivity.
Qed.

(** The second byte of a two-byte read is missing: the read fails. *)
Lemma unpack_one_H_short st :
  len (data st) <= offset st + 1 ->
  unpack_one fmt_H st = Raise BufferError.
Proof.
  intros Hend. unfold unpack_one, get, remaining.
  change (Z.of_nat (calcsize fmt_H)) with 2.
  destruct (Z.ltb_spec (len (data st) - offset st) 2); [| lia].
  now rewrite orb_true_r.
Qed.

(** ** The decoding loop *)

Lemma decode_name_loop_S fuel last label st :
  decode_name_loop (S fuel) last label st =
    let* (length, st) := unpack_one fmt_B st in
    if Bit.get_bits length 6 2 =? 3 then
      let st := set_offset (offset st - 1) st in
      let* (h, st) := unpack_one fmt_H st in
      let pointer := Bit.get_bits h 0 14 in
      let save := offset st in
      if last =? save then Raise BufferError
      else if pointer <? offset st then
        let st := set_offset pointer st in
        let* (sub, st) := decode_name_loop fuel save [] st in
        let st := set_offset save st in
        Ok (label ++ sub, st)
      else Raise BufferError
    else if length >? 0 then
      let* (l, st) := get length st in
      if utf8_decodable l then decode_name_loop fuel last (label ++ [l]) st
      else Raise BufferError
    else Ok (label, st).
Proof. reflexivity. Qed.

(** The two high bits of a byte. *)
Lemma get_bits_high2 (b : byte) :
  Bit.get_bits (byte_to_Z b) 6 2 = byte_to_Z b / 64.
Proof.
  pose proof (byte_to_Z_range b) as Hr.
  rewrite BitFacts.get_bits_div_mod by lia.
  change (2 ^ 6) with 64. change (2 ^ 2) with 4.
  apply Z.mod_small. split; [apply Z.div_pos; lia |].
  apply Z.div_lt_upper_bound; lia.
Qed.

(** The loop at a pointer: both bytes are read and the cursor stands after
    them when the pointer is checked. *)
Lemma decode_name_loop_pointer fuel last label st b0 b1 :
  0 <= offset st ->
  data st !! Z.to_nat (offset st) = Some b0 ->
  data st !! Z.to_nat (offset st + 1) = Some b1 ->
  192 <= byte_to_Z b0 ->
  decode_name_loop (S fuel) last label st =
    let pointer := Bit.get_bits (byte_to_Z b0 * 256 + byte_to_Z b1) 0 14 in
    let save := offset st + 2 in
    if last =? save then Raise BufferError
    else if pointer <? save then
      let* (sub, st') := decode_name_loop fuel save [] (set_offset pointer st) in
      Ok (label ++ sub, set_offset save st')
    else Raise BufferError.
Proof.
  intros Hpos Hb0 Hb1 Hptr.
  pose proof (byte_to_Z_range b0) as Hr.
  rewrite decode_name_loop_S, (unpack_one_B st b0) by assumption.
  cbn [bind]. rewrite get_bits_high2.
  replace (byte_to_Z b0 / 64) with 3
    by (apply Z.div_unique with (r := byte_to_Z b0 - 192); lia).
  cbn [Z.eqb Pos.eqb]. cbv zeta.
  rewrite set_offset_set_offset.
  replace (set_offset (offset (set_offset (offset st + 1) st) - 1) st) with st
    by (destruct st; unfold set_offset; cbn; f_equal; lia).
  rewrite (unpack_one_H st b0 b1) by assumption.
  cbn [bind]. rewrite !set_offset_offset, set_offset_set_offset.
  reflexivity.
Qed.

(** The loop at a length byte that is not a pointer and not zero: that many
    bytes are read as a label. *)
Lemma decode_name_loop_label fuel last label st b :
  0 <= offset st ->
  data st !! Z.to_nat (offset st) = Some b ->
  1 <= byte_to_Z b <= 191 ->
  decode_name_loop (S fuel) last label st =
    let* (l, st') := get (byte_to_Z b) (set_offset (offset st + 1) st) in
    if utf8_decodable l then decode_name_loop fuel last (label ++ [l]) st'
    else Raise BufferError.
Proof.
  intros Hpos Hb Hr.
  rewrite decode_name_loop_S, (unpack_one_B st b) by assumption.
  cbn [bind]. rewrite get_bits_high2.
  assert (Hq : byte_to_Z b / 64 < 3) by (apply Z.div_lt_upper_bound; lia).
  destruct (Z.eqb_spec (byte_to_Z b / 64) 3); [lia |].
  destruct (Z.gtb_spec (byte_to_Z b) 0); [| lia].
  reflexivity.
Qed.

(** The loop at a zero byte: the name ends. *)
Lemma decode_name_loop_zero fuel last label st :
  0 <= offset st ->
  data st !! Z.to_nat (offset st) = Some x00 ->
  decode_name_loop (S fuel) last label st =
    Ok (label, set_offset (offset st + 1) st).
Proof.
  intros Hpos Hb.
  now rewrite decode_name_loop_S, (unpack_one_B st x00) by assumption.
Qed.

(** More fuel never changes a result: the fuel only bounds the number of
    loop iterations, so a call that has a result with some fuel has the
    same one with any larger amount. *)
Lemma decode_name_loop_mono fuel :
  forall last label st r,
    decode_name_loop fuel last label st = r -> r <> OutOfFuel ->
    forall fuel', (fuel <= fuel')%nat ->
      decode_name_loop fuel' last label st = r.
Proof.
  induction fuel as [| n IH]; intros last label st r Hr Hne fuel' Hle.
  - simpl in Hr. congruence.
  - destruct fuel' as [| m]; [lia |].
    rewrite decode_name_loop_S in Hr |- *.
    destruct (unpack_one fmt_B st) as [[length st1] | e |];
      cbn [bind] in *; try exact Hr.
    destruct (Bit.get_bits length 6 2 =? 3).
    + cbv zeta in *.
      destruct (unpack_one fmt_H (set_offset (offset st1 - 1) st1))
        as [[h st2] | e |]; cbn [bind] in *; try exact Hr.
      destruct (last =? offset st2); try exact Hr.
      destruct (Bit.get_bits h 0 14 <? offset st2); try exact Hr.
      destruct (decode_name_loop n (offset st2) []
                  (set_offset (Bit.get_bits h 0 14) st2))
        as [[sub st3] | e |] eqn:E.
      * rewrite (IH _ _ _ _ E ltac:(discriminate) m ltac:(lia)). exact Hr.
      * rewrite (IH _ _ _ _ E ltac:(discriminate) m ltac:(lia)). exact Hr.
      * cbn [bind] in Hr. congruence.
    + destruct (length >? 0); try exact Hr.
      destruct (get length st1) as [[l st2] | e |];
        cbn [bind] in *; try exact Hr.
      destruct (utf8_decodable l); try exact Hr.
      apply (IH _ _ _ _ Hr Hne m). lia.
Qed.

(** ** Pointer checks of [decode_name] *)

(** What the check [pointer < self.offset] does reject. At a compression
    pointer (first byte with its two high bits set) the cursor stands after
    the two pointer bytes when the pointer is checked. A pointer whose
    14-bit value is not strictly less than that cursor raises a buffer
    error, in the loop and so in [decode_name]; and a pointer to its own
    first byte never yields a name either: it is below that cursor, and the
    re-entry of the same saved offset raises the buffer error. *)
Theorem decode_name_pointer_not_before_cursor fuel last label st b0 b1 :
  0 <= offset st ->
  data st !! Z.to_nat (offset st) = Some b0 ->
  data st !! Z.to_nat (offset st + 1) = Some b1 ->
  Bit.get_bits (byte_to_Z b0) 6 2 = 3 ->
  let pointer := Bit.get_bits (byte_to_Z b0 * 256 + byte_to_Z b1) 0 14 in
  let cursor := offset st + 2 in
  (cursor <= pointer ->
     decode_name_loop (S fuel) last label st = Raise BufferError
     /\ decode_name (S fuel) last st = Raise BufferError)
  /\ (pointer = offset st ->
        decode_name_loop (S (S fuel)) last label st = Raise BufferError
        /\ decode_name (S (S fuel)) last st = Raise BufferError).
Proof.
  intros Hpos Hb0 Hb1 Hhigh pointer cursor.
  assert (Hptr : 192 <= byte_to_Z b0).
  { rewrite get_bits_high2 in Hhigh.
    pose proof (Z.mul_div_le (byte_to_Z b0) 64 ltac:(lia)). lia. }
  assert (Hfwd : forall lbl, cursor <= pointer ->
            decode_name_loop (S fuel) last lbl st = Raise BufferError).
  { intros lbl Hge.
    rewrite (decode_name_loop_pointer fuel last lbl st b0 b1) by assumption.
    cbv zeta. fold pointer. fold cursor.
    destruct (last =? cursor); [reflexivity |].
    destruct (Z.ltb_spec pointer cursor); [lia | reflexivity]. }
  assert (Hself : forall lbl, pointer = offset st ->
            decode_name_loop (S (S fuel)) last lbl st = Raise BufferError).
  { intros lbl Heq.
    rewrite (decode_name_loop_pointer (S fuel) last lbl st b0 b1) by assumption.
    cbv zeta. fold pointer. fold cursor.
    destruct (last =? cursor); [reflexivity |].
    destruct (Z.ltb_spec pointer cursor); [| reflexivity].
    replace (set_offset pointer st) with st
      by (rewrite Heq; destruct st; reflexivity).
    rewrite (decode_name_loop_pointer fuel cursor [] st b0 b1) by assumption.
    cbv zeta. fold cursor. now rewrite Z.eqb_refl. }
  split; intros H; (split; [auto |]); unfold decode_name.
  - now rewrite Hfwd.
  - now rewrite Hself.
Qed.

Lemma decode_name_pointer_not_before_cursor_witness :
  decode_name 1 (-1) (DNSBuffer_init [xc0; x05; x00]) = Raise BufferError
  /\ decode_name 2 (-1) (DNSBuffer_init [xc0; x00]) = Raise BufferError.
Proof.
  split.
  - apply (proj1 (decode_name_pointer_not_before_cursor 0 (-1) []
                    (DNSBuffer_init [xc0; x05; x00]) xc0 x05
                    ltac:(simpl; lia) eq_refl eq_refl eq_refl)).
    vm_compute. discriminate.
  - apply (proj2 (decode_name_pointer_not_before_cursor 0 (-1) []
                    (DNSBuffer_init [xc0; x00]) xc0 x00
                    ltac:(simpl; lia) eq_refl eq_refl eq_refl)).
    reflexivity.
Defined.

(** C6 (the code at the failing input): in [forward_pointer_buffer] the
    pointer at offset 0 has the value 1, which lies after its own position.
    The check compares it with the cursor after the two pointer bytes, 2,
    so this forward pointer is followed: its own second byte is read as the
    length of the label [a], and [decode_name] returns a name, with every
    fuel from three on, where a buffer error should be raised. *)
Theorem decode_name_follows_forward_pointer :
  Bit.get_bits (byte_to_Z xc0 * 256 + byte_to_Z x01) 0 14 = 1
  /\ offset (DNSBuffer_init forward_pointer_buffer) < 1
  /\ forall fuel,
       decode_name (3 + fuel) (-1) (DNSBuffer_init forward_pointer_buffer) =
         Ok (mkDNSLabel [[x61]],
             set_offset 2 (DNSBuffer_init forward_pointer_buffer)).
Proof.
  split; [reflexivity |]. split; [reflexivity |].
  intros fuel. unfold decode_name.
  rewrite (decode_name_loop_mono 3 (-1) [] (DNSBuffer_init forward_pointer_buffer)
             (Ok ([[x61]], set_offset 2 (DNSBuffer_init forward_pointer_buffer)))
             eq_refl ltac:(discriminate) (3 + fuel)%nat ltac:(lia)).
  reflexivity.
Qed.

(** ** Reserved length bytes *)

(** C2 (as stated, refuted): the length byte 64 has the high bits [01], and
    [decode_name] returns a name with one label of 64 bytes instead of
    raising. *)
Lemma decode_name_accepts_reserved_bits :
  Bit.get_bits 64 6 2 = 1
  /\ decode_name 2 (-1) (DNSBuffer_init long_label_buffer) =
       Ok (mkDNSLabel [repeat x61 64],
           set_offset 66 (DNSBuffer_init long_label_buffer)).
Proof. split; vm_compute; reflexivity. Qed.

(** C2 (amended): a length byte between 64 and 191 (high two bits [01] or
    [10]) is taken as a label length. [decode_name] reads that many bytes
    after it: a buffer error is raised when fewer bytes remain or when they
    are not UTF-8-decodable; otherwise they are appended as a label and
    decoding continues after them. *)
Theorem decode_name_reserved_bits_as_length fuel last label st b :
  0 <= offset st ->
  data st !! Z.to_nat (offset st) = Some b ->
  64 <= byte_to_Z b <= 191 ->
  decode_name_loop (S fuel) last label st =
    if remaining st - 1 <? byte_to_Z b then Raise BufferError
    else
      let l := take (Z.to_nat (byte_to_Z b))
                 (drop (Z.to_nat (offset st + 1)) (data st)) in
      if utf8_decodable l
      then decode_name_loop fuel last (label ++ [l])
             (set_offset (offset st + 1 + byte_to_Z b) st)
      else Raise BufferError.
Proof.
  intros Hpos Hb Hr.
  rewrite (decode_name_loop_label fuel last label st b) by (assumption || lia).
  unfold get, remaining. rewrite set_offset_data, set_offset_offset.
  destruct (Z.ltb_spec (byte_to_Z b) 0); [lia |].
  destruct (Z.ltb_spec (offset st + 1) 0); [lia |].
  replace (len (data st) - (offset st + 1)) with (len (data st) - offset st - 1) by lia.
  cbn [orb].
  destruct (len (data st) - offset st - 1 <? byte_to_Z b); reflexivity.
Qed.

Lemma decode_name_reserved_bits_as_length_witness :
  decode_name_loop 2 (-1) [] (DNSBuffer_init long_label_buffer) =
    Ok ([repeat x61 64], set_offset 66 (DNSBuffer_init long_label_buffer)).
Proof.
  rewrite (decode_name_reserved_bits_as_length 1 (-1) []
             (DNSBuffer_init long_label_buffer) x40
             ltac:(simpl; lia) eq_refl ltac:(vm_compute; split; discriminate)).
  vm_compute. reflexivity.
Defined.

(** ** A pointer cycle that is not detected *)

Lemma cycle_never_returns (fuel : nat) :
  forall label,
    (forall last, last <> 2 ->
       decode_name_loop fuel last label (cycle_at 0) = OutOfFuel)
    /\ (forall last, last <> 5 ->
          decode_name_loop fuel last label (cycle_at 1) = OutOfFuel)
    /\ (forall last, last <> 5 ->
          decode_name_loop fuel last label (cycle_at 3) = OutOfFuel).
Proof.
  induction fuel as [| n IH]; intros label; [now repeat split |].
  repeat split; intros last Hlast.
  - rewrite (decode_name_loop_pointer n last label (cycle_at 0) xc0 x01)
      by (reflexivity || (vm_compute; discriminate)).
    change (Bit.get_bits (byte_to_Z xc0 * 256 + byte_to_Z x01) 0 14) with 1.
    change (offset (cycle_at 0) + 2) with 2. cbv zeta.
    destruct (Z.eqb_spec last 2); [lia |].
    change (1 <? 2) with true. cbv iota.
    change (set_offset 1 (cycle_at 0)) with (cycle_at 1).
    destruct (IH []) as (_ & H1 & _). now rewrite H1.
  - rewrite (decode_name_loop_label n last label (cycle_at 1) x01)
      by (reflexivity || (vm_compute; try split; discriminate)).
    change (get (byte_to_Z x01) (set_offset (offset (cycle_at 1) + 1) (cycle_at 1)))
      with (Ok ([x61], cycle_at 3)).
    cbn [bind]. change (utf8_decodable [x61]) with true. cbv iota.
    destruct (IH (label ++ [[x61]])) as (_ & _ & H3). now apply H3.
  - rewrite (decode_name_loop_pointer n last label (cycle_at 3) xc0 x00)
      by (reflexivity || (vm_compute; discriminate)).
    change (Bit.get_bits (byte_to_Z xc0 * 256 + byte_to_Z x00) 0 14) with 0.
    change (offset (cycle_at 3) + 2) with 5. cbv zeta.
    destruct (Z.eqb_spec last 5); [lia |].
    change (0 <? 5) with true. cbv iota.
    change (set_offset 0 (cycle_at 3)) with (cycle_at 0).
    destruct (IH []) as (H0 & _ & _). now rewrite H0.
Qed.

(** C1 (the code at the failing input): on [cycle_buffer] the two pointers
    save different offsets (2 and 5), each recursive call only compares its
    own saved offset with its caller's, and [decode_name] never returns: no
    amount of fuel yields a name or a buffer error. *)
Theorem decode_name_pointer_cycle_diverges :
  forall fuel, decode_name fuel (-1) (DNSBuffer_init cycle_buffer) = OutOfFuel.
Proof.
  intros fuel. unfold decode_name.
  change (DNSBuffer_init cycle_buffer) with (cycle_at 0).
  destruct (cycle_never_returns fuel []) as (H0 & _ & _).
  rewrite H0 by lia. reflexivity.
Qed.

(** ** Writing to the buffer *)

Lemma len_app {A} (l1 l2 : list A) : len (l1 ++ l2) = len l1 + len l2.
Proof. unfold len. rewrite length_app. lia. Qed.

Lemma len_cons {A} (x : A) (l : list A) : len (x :: l) = 1 + len l.
Proof. unfold len. cbn [length]. lia. Qed.

Lemma len_nonneg {A} (l : list A) : 0 <= len l.
Proof. unfold len. lia. Qed.

Lemma write_names bs st : names (write bs st) = names st.
Proof. reflexivity. Qed.

Lemma write_offset bs st : offset (write bs st) = offset st + len bs.
Proof. reflexivity. Qed.

(** At the end of the buffer a write appends. *)
Lemma write_at_end bs st :
  offset st = len (data st) -> data (write bs st) = data st ++ bs.
Proof.
  intros Hend. unfold write. cbn [data].
  replace (Z.to_nat (offset st)) with (length (data st)) by (unfold len in Hend; lia).
  rewrite firstn_all, drop_ge by lia. now rewrite app_nil_r.
Qed.

Lemma write_cursor_ok bs st : cursor_ok st -> cursor_ok (write bs st).
Proof.
  unfold cursor_ok, write. cbn [data offset]. intros [H0 H1].
  pose proof (len_nonneg bs).
  rewrite !len_app. unfold len in *.
  rewrite length_take, length_drop. lia.
Qed.

(** Two writes in a row are one write of the concatenation. *)
Lemma write_write a b st :
  cursor_ok st -> write b (write a st) = write (a ++ b) st.
Proof.
  intros [H0 H1]. unfold write. cbn [data offset names].
  unfold len in *.
  set (k := Z.to_nat (offset st)).
  assert (Hk : (k <= length (data st))%nat) by lia.
  replace (Z.to_nat (offset st + Z.of_nat (length a))) with (k + length a)%nat by lia.
  f_equal.
  - assert (Htk : length (take k (data st)) = k) by (rewrite length_take; lia).
    rewrite (app_assoc (take k (data st)) a).
    rewrite take_app_length' by (rewrite length_app; lia).
    rewrite (drop_app_add' (take k (data st) ++ a)) by (rewrite length_app; lia).
    rewrite drop_drop, length_app, <- !app_assoc.
    now rewrite Nat.add_assoc.
  - rewrite length_app. lia.
Qed.

Lemma pack_B_small v st :
  0 <= v < 256 -> pack fmt_B v st = Ok (write [byte_of_Z v] st).
Proof.
  intros Hv. unfold pack.
  change (2 ^ (8 * Z.of_nat (calcsize fmt_B))) with 256.
  destruct (Z.ltb_spec v 0); [lia |].
  destruct (Z.leb_spec 256 v); [lia |]. reflexivity.
Qed.

(** A label of at most 255 bytes is written as its length byte and its
    bytes. *)
Lemma append_with_length_B element st :
  len element < 256 ->
  append_with_length fmt_B element st =
    Ok (write element (write [byte_of_Z (len element)] st)).
Proof.
  intros Hlen. unfold append_with_length.
  change (2 ^ (8 * Z.of_nat (calcsize fmt_B))) with 256.
  destruct (Z.leb_spec 256 (len element)); [lia |].
  rewrite pack_B_small by (pose proof (len_nonneg element); lia).
  reflexivity.
Qed.

(** ** The uncompressed wire form *)

Lemma wire_cons l ls : wire (l :: ls) = (byte_of_Z (len l) :: l) ++ wire ls.
Proof. unfold wire. cbn [map concat]. now rewrite <- app_assoc. Qed.

Lemma encode_name_nocompress_loop_names ls :
  forall st st',
    encode_name_nocompress_loop ls st = Ok st' -> names st' = names st.
Proof.
  induction ls as [| element rest IH]; intros st st' Hrun; cbn in Hrun.
  - now inversion Hrun.
  - destruct (len element >? 63); [discriminate |].
    unfold append_with_length in Hrun.
    destruct (_ <=? _); [discriminate |].
    unfold pack in Hrun. destruct (_ || _); [discriminate |].
    cbn [bind] in Hrun. apply IH in Hrun. exact Hrun.
Qed.

Lemma encode_name_nocompress_loop_total ls :
  labels_fit ls ->
  forall st, exists st', encode_name_nocompress_loop ls st = Ok st'.
Proof.
  induction 1 as [| element rest Hfit _ IH]; intros st; cbn [encode_name_nocompress_loop].
  - eauto.
  - destruct (Z.gtb_spec (len element) 63); [lia |].
    rewrite append_with_length_B by lia. cbn [bind]. apply IH.
Qed.

Lemma encode_name_nocompress_loop_wire ls :
  labels_fit ls ->
  forall st, cursor_ok st ->
    encode_name_nocompress_loop ls st = Ok (write (wire ls) st).
Proof.
  induction 1 as [| element rest Hfit _ IH]; intros st Hok; cbn [encode_name_nocompress_loop].
  - reflexivity.
  - destruct (Z.gtb_spec (len element) 63); [lia |].
    rewrite append_with_length_B by lia. cbn [bind].
    rewrite write_write by exact Hok.
    rewrite IH by (apply write_cursor_ok, Hok).
    rewrite write_write by exact Hok.
    now rewrite wire_cons.
Qed.

Lemma encode_name_nocompress_loop_long ls :
  has_long_label ls ->
  forall st, encode_name_nocompress_loop ls st = Raise DNSLabelError.
Proof.
  induction 1 as [element rest Hlong | element rest _ IH]; intros st;
    cbn [encode_name_nocompress_loop].
  - destruct (Z.gtb_spec (len element) 63); [reflexivity | lia].
  - destruct (Z.gtb_spec (len element) 63); [reflexivity |].
    rewrite append_with_length_B by lia. cbn [bind]. apply IH.
Qed.

(** ** [encode_name_nocompress] and the compression table *)

Section Nocompress.
Context `{idna : Idna}.

(** C9: for every buffer state and every name within the length limits,
    [encode_name_nocompress] succeeds and leaves the table [names] as it
    was, whatever it holds; the bytes written at the cursor are the
    uncompressed wire form of the name (one length-prefixed label per
    component, then a zero byte), appended to the data when the cursor is
    at the end of the buffer. *)
Theorem encode_name_nocompress_frame (x : DNSLabelCreateTypes)
  (name : DNSLabel) (st : DNSBuffer) :
  as_DNSLabel x = Ok name ->
  DNSLabel_len name <= 253 ->
  labels_fit (label name) ->
  exists st',
    encode_name_nocompress x st = Ok st'
    /\ names st' = names st
    /\ (cursor_ok st -> st' = write (wire (label name)) st)
    /\ (offset st = len (data st) -> data st' = data st ++ wire (label name)).
Proof.
  intros Hname Htotal Hfit. unfold encode_name_nocompress.
  rewrite Hname. cbn [bind].
  destruct (Z.gtb_spec (DNSLabel_len name) 253); [lia |].
  destruct (encode_name_nocompress_loop_total _ Hfit st) as [st' Hrun].
  exists st'. split; [exact Hrun |].
  split; [exact (encode_name_nocompress_loop_names _ _ _ Hrun) |].
  assert (Hin : cursor_ok st -> st' = write (wire (label name)) st).
  { intros Hok. rewrite (encode_name_nocompress_loop_wire _ Hfit st Hok) in Hrun.
    now inversion Hrun. }
  split; [exact Hin |].
  intros Hend. rewrite Hin.
  - now apply write_at_end.
  - unfold cursor_ok. pose proof (len_nonneg (data st)). lia.
Qed.

End Nocompress.

Lemma encode_name_nocompress_frame_witness :
  exists st',
    @encode_name_nocompress ascii_only (of_bytes [x61; dot]) buffer_with_a = Ok st'
    /\ names st' = names buffer_with_a
    /\ (cursor_ok buffer_with_a -> st' = write (wire [[x61]]) buffer_with_a)
    /\ (offset buffer_with_a = len (data buffer_with_a) ->
        data st' = data buffer_with_a ++ wire [[x61]]).
Proof.
  apply (@encode_name_nocompress_frame ascii_only (of_bytes [x61; dot])
           (mkDNSLabel [[x61]]) buffer_with_a).
  - reflexivity.
  - vm_compute. discriminate.
  - repeat constructor; vm_compute; discriminate.
Defined.

(** ** [encode_name] on a table without the suffixes of the name *)

Lemma table_longer_empty name st : names st = ∅ -> table_longer name st.
Proof. intros He k v Hk. rewrite He, lookup_empty in Hk. discriminate. Qed.

Lemma table_longer_miss name st :
  table_longer name st -> names st !! name = None.
Proof.
  intros Ht. destruct (names st !! name) as [v |] eqn:E; [| reflexivity].
  apply Ht in E. lia.
Qed.

(** Without a hit in the table, [encode_name] writes what
    [encode_name_nocompress] writes and fails where it fails. *)
Lemma encode_name_loop_no_hit ls :
  forall st1 st2,
    data st1 = data st2 -> offset st1 = offset st2 ->
    table_longer ls st1 ->
    match encode_name_nocompress_loop ls st2 with
    | Ok st2' =>
        exists st1', encode_name_loop ls st1 = Ok st1'
                     /\ data st1' = data st2' /\ offset st1' = offset st2'
    | Raise e => encode_name_loop ls st1 = Raise e
    | OutOfFuel => True
    end.
Proof.
  induction ls as [| element rest IH]; intros st1 st2 Hd Ho Ht.
  - cbn. eexists. split; [reflexivity |].
    unfold append, write. cbn [data offset]. now rewrite Hd, Ho.
  - cbn [encode_name_nocompress_loop encode_name_loop].
    rewrite (table_longer_miss _ _ Ht).
    destruct (Z.gtb_spec (len element) 63) as [Hlong | Hfit]; [reflexivity |].
    rewrite !append_with_length_B by lia. cbn [bind].
    apply IH.
    + unfold write, set_name. cbn [data offset]. now rewrite Hd, Ho.
    + unfold write, set_name. cbn [data offset]. now rewrite Ho.
    + intros k v Hk. rewrite !write_names in Hk.
      unfold set_name in Hk. cbn [names] in Hk.
      destruct (decide (element :: rest = k)) as [<- | Hne].
      * cbn [length]. lia.
      * rewrite lookup_insert_ne in Hk by exact Hne.
        apply Ht in Hk. cbn [length] in Hk. lia.
Qed.

(** ** Where the length limits are enforced *)

(** C3 (as stated, refuted): a name with a label of 64 bytes and a name of
    300 bytes are both constructed without error. *)
Lemma DNSLabel_init_accepts_long_names :
  (exists n, @DNSLabel_init ascii_only (of_list [repeat x61 64]) = Ok n
             /\ has_long_label (label n))
  /\ (exists n, @DNSLabel_init ascii_only (of_bytes (repeat x61 300)) = Ok n
                /\ 253 < DNSLabel_len n).
Proof.
  split; eexists; (split; [vm_compute; reflexivity |]).
  - constructor. vm_compute. reflexivity.
  - vm_compute. reflexivity.
Qed.

Section LengthLimits.
Context `{idna : Idna}.

(** C3 (amended): constructing a [DNSLabel] from a list of labels, a byte
    string or another [DNSLabel] never fails, whatever the lengths. The
    limits are enforced when a name is encoded: a name whose total length
    exceeds 253, or that has a label longer than 63 bytes, makes
    [encode_name_nocompress] raise a label error on every buffer, and makes
    [encode_name] raise it when the total length exceeds 253 or the
    compression table is empty. *)
Theorem length_limits_checked_at_encode :
  (forall ls, DNSLabel_init (of_list ls) = Ok (mkDNSLabel ls))
  /\ (forall b, exists n, DNSLabel_init (of_bytes b) = Ok n)
  /\ (forall l, DNSLabel_init (of_DNSLabel l) = Ok l)
  /\ (forall name st,
        253 < DNSLabel_len name \/ has_long_label (label name) ->
        encode_name_nocompress (of_DNSLabel name) st = Raise DNSLabelError
        /\ (253 < DNSLabel_len name \/ names st = ∅ ->
            encode_name (of_DNSLabel name) st = Raise DNSLabelError)).
Proof.
  split; [reflexivity |].
  split; [intros b; unfold DNSLabel_init; destruct (_ || _); eauto |].
  split; [intros [l]; reflexivity |].
  intros name st Hbad.
  unfold encode_name_nocompress, encode_name. cbn [as_DNSLabel bind].
  destruct (Z.gtb_spec (DNSLabel_len name) 253) as [Hbig | Hsmall].
  - split; reflexivity.
  - destruct Hbad as [Hbig | Hlong]; [lia |].
    pose proof (encode_name_nocompress_loop_long _ Hlong) as Hraise.
    split; [apply Hraise |].
    intros [Hbig | Hempty]; [lia |].
    pose proof (encode_name_loop_no_hit (label name) st st eq_refl eq_refl
                  (table_longer_empty _ _ Hempty)) as Hrel.
    now rewrite Hraise in Hrel.
Qed.

End LengthLimits.

Lemma length_limits_checked_at_encode_witness :
  @encode_name_nocompress ascii_only
     (of_DNSLabel (mkDNSLabel [repeat x61 64])) buffer_with_a
   = Raise DNSLabelError
  /\ @encode_name ascii_only
       (of_DNSLabel (mkDNSLabel [repeat x61 64])) (DNSBuffer_init [])
     = Raise DNSLabelError.
Proof.
  pose proof (proj2 (proj2 (proj2 (@length_limits_checked_at_encode ascii_only)))) as H.
  assert (Hlong : has_long_label [repeat x61 64])
    by (constructor; vm_compute; reflexivity).
  split.
  - exact (proj1 (H (mkDNSLabel [repeat x61 64]) buffer_with_a (or_intror Hlong))).
  - exact (proj2 (H (mkDNSLabel [repeat x61 64]) (DNSBuffer_init []) (or_intror Hlong))
             (or_intror eq_refl)).
Defined.

(** ** Round trip of the name codec *)

Lemma lookup_at st pre b post :
  data st = pre ++ b :: post -> offset st = len pre ->
  data st !! Z.to_nat (offset st) = Some b.
Proof.
  intros Hd Ho. rewrite Hd, Ho. unfold len. rewrite Nat2Z.id.
  now apply list_lookup_middle.
Qed.

Lemma get_at st pre l post :
  data st = pre ++ l ++ post -> offset st = len pre ->
  get (len l) st = Ok (l, set_offset (len pre + len l) st).
Proof.
  intros Hd Ho. unfold get, remaining. rewrite Hd, Ho, !len_app.
  pose proof (len_nonneg pre). pose proof (len_nonneg l).
  pose proof (len_nonneg post).
  destruct (Z.ltb_spec (len l) 0); [lia |].
  destruct (Z.ltb_spec (len pre) 0); [lia |].
  destruct (Z.ltb_spec (len pre + (len l + len post) - len pre) (len l)); [lia |].
  cbn [orb]. unfold len. rewrite !Nat2Z.id.
  now rewrite drop_app_length, take_app_length.
Qed.

(** Decoding the uncompressed wire form of valid labels, found anywhere in
    a buffer, gives the labels back and leaves the cursor after it. *)
Lemma decode_name_loop_wire ls :
  Forall valid_label ls ->
  forall pre post st acc last fuel,
    data st = pre ++ wire ls ++ post ->
    offset st = len pre ->
    (length ls < fuel)%nat ->
    decode_name_loop fuel last acc st =
      Ok (acc ++ ls, set_offset (len pre + len (wire ls)) st).
Proof.
  induction 1 as [| l ls [Hlen Hutf] _ IH];
    intros pre post st acc last fuel Hd Ho Hfuel;
    (destruct fuel as [| fuel]; [cbn [length] in Hfuel; lia |]);
    pose proof (len_nonneg pre) as Hpre.
  - rewrite decode_name_loop_zero.
    + rewrite app_nil_r, Ho. reflexivity.
    + lia.
    + exact (lookup_at st pre x00 post Hd Ho).
  - rewrite wire_cons in Hd |- *. cbn [app] in Hd.
    set (b := byte_of_Z (len l)) in *.
    assert (Hb : byte_to_Z b = len l).
    { unfold b. rewrite byte_to_of_Z. apply Z.mod_small. lia. }
    rewrite (decode_name_loop_label fuel last acc st b); [| lia | | lia].
    2: { rewrite <- app_assoc in Hd. exact (lookup_at st pre b _ Hd Ho). }
    rewrite Hb.
    rewrite (get_at (set_offset (offset st + 1) st) (pre ++ [b]) l (wire ls ++ post)).
    2: { rewrite set_offset_data, Hd, <- !app_assoc. reflexivity. }
    2: { rewrite set_offset_offset, Ho, len_app. reflexivity. }
    cbn [bind]. rewrite Hutf, set_offset_set_offset.
    rewrite (IH (pre ++ b :: l) post _ (acc ++ [l]) last fuel).
    + rewrite set_offset_set_offset, <- app_assoc. cbn [app].
      replace (len (pre ++ b :: l) + len (wire ls))
        with (len pre + len (b :: l ++ wire ls)); [reflexivity |].
      rewrite !len_app, !len_cons, !len_app. lia.
    + rewrite set_offset_data, Hd, <- !app_assoc. reflexivity.
    + rewrite set_offset_offset, !len_app, !len_cons.
      change (len (@nil byte)) with 0. lia.
    + cbn [length] in Hfuel. lia.
Qed.

Lemma valid_labels_fit ls : Forall valid_label ls -> labels_fit ls.
Proof.
  intros H. unfold labels_fit.
  eapply Forall_impl; [exact H | intros l [[_ Hl] _]; exact Hl].
Qed.

Section RoundTrip.
Context `{idna : Idna}.

(** C8: for every name whose labels are 1 to 63 bytes long and
    UTF-8-decodable and whose total length is at most 253, [encode_name]
    into a fresh buffer succeeds and writes the uncompressed wire form, and
    [decode_name] from offset 0 returns (with any fuel above the number of
    labels) the original name, which is equal to it in the sense of
    [__eq__], with the cursor at the end of the data. *)
Theorem encode_decode_roundtrip (x : DNSLabelCreateTypes) (name : DNSLabel) :
  as_DNSLabel x = Ok name ->
  Forall valid_label (label name) ->
  DNSLabel_len name <= 253 ->
  exists st,
    encode_name x (DNSBuffer_init []) = Ok st
    /\ data st = wire (label name)
    /\ forall fuel, (length (label name) < fuel)%nat ->
         exists decoded st',
           decode_name fuel (-1) (set_offset 0 st) = Ok (decoded, st')
           /\ decoded = name
           /\ DNSLabel_eq_any decoded (of_DNSLabel name) = Ok true
           /\ offset st' = len (data st).
Proof.
  intros Hname Hvalid Htotal.
  pose proof (valid_labels_fit _ Hvalid) as Hfit.
  assert (Hok : cursor_ok (DNSBuffer_init []))
    by (split; vm_compute; discriminate).
  set (fresh := DNSBuffer_init []) in *.
  pose proof (encode_name_loop_no_hit (label name) fresh fresh eq_refl eq_refl
                (table_longer_empty _ fresh eq_refl)) as Hrel.
  rewrite (encode_name_nocompress_loop_wire _ Hfit fresh Hok) in Hrel.
  destruct Hrel as (st & Hrun & Hd & Ho).
  rewrite (write_at_end _ fresh eq_refl) in Hd. cbn [data fresh DNSBuffer_init app] in Hd.
  exists st. unfold encode_name. rewrite Hname. cbn [bind].
  destruct (Z.gtb_spec (DNSLabel_len name) 253); [lia |].
  split; [exact Hrun |]. split; [exact Hd |].
  intros fuel Hfuel. unfold decode_name.
  rewrite (decode_name_loop_wire _ Hvalid [] [] (set_offset 0 st) [] (-1) fuel).
  - cbn [bind app]. eexists. eexists. split; [reflexivity |].
    split; [now destruct name |].
    split; [unfold DNSLabel_eq_any; f_equal; now apply DNSLabel_eq_true |].
    rewrite set_offset_set_offset, set_offset_offset, Hd. reflexivity.
  - rewrite set_offset_data, Hd, app_nil_r. reflexivity.
  - reflexivity.
  - exact Hfuel.
Qed.

End RoundTrip.

Lemma encode_decode_roundtrip_witness :
  exists st,
    @encode_name ascii_only (of_DNSLabel www_example_com) (DNSBuffer_init []) = Ok st
    /\ data st = wire (label www_example_com)
    /\ forall fuel, (length (label www_example_com) < fuel)%nat ->
         exists decoded st',
           decode_name fuel (-1) (set_offset 0 st) = Ok (decoded, st')
           /\ decoded = www_example_com
           /\ @DNSLabel_eq_any ascii_only decoded (of_DNSLabel www_example_com) = Ok true
           /\ offset st' = len (data st).
Proof.
  apply (@encode_decode_roundtrip ascii_only (of_DNSLabel www_example_com)
           www_example_com).
  - reflexivity.
  - repeat constructor; vm_compute; discriminate.
  - vm_compute. discriminate.
Defined.

(** ** Trailing empty labels *)

Lemma split_dot_nonempty s : split_dot s <> [].
Proof.
  destruct s as [| c rest]; cbn [split_dot]; [discriminate |].
  destruct (is_dot c); [discriminate |].
  destruct (split_dot rest); discriminate.
Qed.

(** After [rstrip], the last byte is not a dot, or nothing is left because
    there were only dots. *)
Lemma rstrip_dot_last b :
  match last (rstrip_dot b) with
  | Some c => is_dot c = false
  | None => Forall (fun c => is_dot c = true) b
  end.
Proof.
  induction b as [| c rest IH]; cbn [rstrip_dot]; [constructor |].
  destruct (rstrip_dot rest) as [| r0 r] eqn:E.
  - cbn [last] in IH. destruct (is_dot c) eqn:Ec.
    + cbn [last]. now constructor.
    + cbn [last]. exact Ec.
  - rewrite last_cons. destruct (last (r0 :: r)) eqn:El; [exact IH |].
    apply last_None in El. discriminate.
Qed.

Lemma rstrip_dot_has_non_dot b :
  has_non_dot b -> exists c, last (rstrip_dot b) = Some c /\ is_dot c = false.
Proof.
  intros Hex. pose proof (rstrip_dot_last b) as H.
  destruct (last (rstrip_dot b)) as [c |]; [eauto |].
  exfalso. unfold has_non_dot in Hex.
  apply Exists_exists in Hex. destruct Hex as (c & Hin & Hc).
  rewrite Forall_forall in H. specialize (H c Hin). congruence.
Qed.

(** A byte string that does not end in a dot has a last component that is
    not empty. *)
Lemma split_dot_last s c :
  last s = Some c -> is_dot c = false -> no_trailing_empty (split_dot s).
Proof.
  unfold no_trailing_empty. revert c.
  induction s as [| x rest IH]; intros c Hlast Hc; [discriminate |].
  cbn [split_dot]. rewrite last_cons in Hlast.
  destruct (last rest) as [y |] eqn:El.
  - injection Hlast as ->. specialize (IH c eq_refl Hc).
    pose proof (split_dot_nonempty rest) as Hne.
    destruct (is_dot x).
    + rewrite last_cons. destruct (last (split_dot rest)) eqn:E; [exact IH |].
      apply last_None in E. contradiction.
    + destruct (split_dot rest) as [| h t]; [contradiction |].
      destruct t as [| h' t']; [cbn; congruence |].
      now rewrite last_cons_cons in IH |- *.
  - injection Hlast as ->. apply last_None in El. subst rest.
    rewrite Hc. cbn. congruence.
Qed.

Lemma rstrip_split_no_trailing_empty b :
  has_non_dot b -> no_trailing_empty (split_dot (rstrip_dot b)).
Proof.
  intros Hex. destruct (rstrip_dot_has_non_dot b Hex) as (c & Hl & Hc).
  exact (split_dot_last _ c Hl Hc).
Qed.

Lemma ESCAPE_sub_nonempty s : s <> [] -> ESCAPE_sub s <> [].
Proof.
  destruct s as [| x tl]; [congruence |]. intros _. cbn [ESCAPE_sub].
  destruct tl as [| a [| b [| c rest]]]; try discriminate.
  destruct (_ && _); discriminate.
Qed.

Lemma encode_ascii_nonempty s r : encode_ascii s = Some r -> s <> [] -> r <> [].
Proof.
  destruct s as [| c rest]; [congruence |]. intros H _. cbn [encode_ascii] in H.
  destruct (c <? 128)%N; [| discriminate].
  destruct (Byte.of_N c); [| discriminate].
  destruct (encode_ascii rest); [| discriminate].
  injection H as <-. discriminate.
Qed.

(** The label check of the IDNA codec rejects an ASCII name that starts
    with a dot: its first label is empty and is not the last one. *)
Lemma idna_check_leading_dot c rest :
  is_dot c = true ->
  forallb (fun l : bytes => (0 <? len l) && (len l <? 64))
    (List.removelast (split_dot (c :: rest))) = false.
Proof.
  intros Hc. cbn [split_dot]. rewrite Hc.
  pose proof (split_dot_nonempty rest) as Hne.
  destruct (split_dot rest) as [| h t]; [contradiction |]. reflexivity.
Qed.

(** C4 (as stated, refuted): a list with a trailing empty label is stored
    as it is, and the byte string [b".."] gives the single empty label. *)
Lemma DNSLabel_init_keeps_trailing_empty :
  (exists n, @DNSLabel_init ascii_only (of_list [[x61]; []]) = Ok n
             /\ ~ no_trailing_empty (label n))
  /\ (exists n, @DNSLabel_init ascii_only (of_bytes [dot; dot]) = Ok n
                /\ label n = [[]]).
Proof.
  split; eexists; (split; [vm_compute; reflexivity |]).
  - intros H. now apply H.
  - reflexivity.
Qed.

Section TrailingLabels.
Context `{idna : Idna}.

(** C4 (amended): a [DNSLabel] built from a byte string that has a byte
    other than the dot, or from a text string that is ASCII once its
    escapes are replaced, never stores a trailing empty label; [None], the
    empty string and the single dot (bytes or text) and the empty list give
    the root, the label sequence of length 0; a [DNSLabel] built from a
    list or from another [DNSLabel] stores the given labels as they are. *)
Theorem DNSLabel_init_trailing_labels :
  (forall b n, has_non_dot b -> DNSLabel_init (of_bytes b) = Ok n ->
               no_trailing_empty (label n) /\ label n <> [])
  /\ (forall s r n, encode_ascii (ESCAPE_sub s) = Some r ->
                    DNSLabel_init (of_str s) = Ok n ->
                    no_trailing_empty (label n))
  /\ (DNSLabel_init of_None = Ok (mkDNSLabel [])
      /\ DNSLabel_init (of_bytes []) = Ok (mkDNSLabel [])
      /\ DNSLabel_init (of_bytes [dot]) = Ok (mkDNSLabel [])
      /\ DNSLabel_init (of_str []) = Ok (mkDNSLabel [])
      /\ DNSLabel_init (of_str [46%N]) = Ok (mkDNSLabel [])
      /\ DNSLabel_init (of_list []) = Ok (mkDNSLabel []))
  /\ (forall ls, DNSLabel_init (of_list ls) = Ok (mkDNSLabel ls))
  /\ (forall l, DNSLabel_init (of_DNSLabel l) = Ok l).
Proof.
  split; [| split; [| split; [| split]]].
  - intros b n Hex Hinit. cbn [DNSLabel_init] in Hinit.
    destruct (bool_decide (b = [])) eqn:E1.
    { apply bool_decide_eq_true in E1. subst b. inversion Hex. }
    destruct (bool_decide (b = [dot])) eqn:E2.
    { apply bool_decide_eq_true in E2. subst b.
      inversion Hex as [? ? Hc | ? ? Hc]; [discriminate | inversion Hc]. }
    cbn [orb] in Hinit. injection Hinit as <-. cbn [label].
    split; [now apply rstrip_split_no_trailing_empty | apply split_dot_nonempty].
  - intros s r n Hascii Hinit. cbn [DNSLabel_init] in Hinit.
    destruct (bool_decide (s = [])) eqn:E1.
    { cbn [orb] in Hinit. injection Hinit as <-. discriminate. }
    apply bool_decide_eq_false in E1.
    destruct (bool_decide (s = [46%N])).
    { cbn [orb] in Hinit. injection Hinit as <-. discriminate. }
    cbn [orb] in Hinit.
    pose proof (ESCAPE_sub_nonempty s E1) as Hne.
    pose proof (encode_ascii_nonempty _ _ Hascii Hne) as Hr.
    unfold encode_idna in Hinit. rewrite Hascii in Hinit.
    destruct (ESCAPE_sub s) as [| c0 t0]; [contradiction |].
    destruct r as [| c rest]; [contradiction |].
    destruct (is_dot c) eqn:Ec.
    { rewrite (idna_check_leading_dot c rest Ec) in Hinit. discriminate. }
    destruct (_ && _); [| discriminate].
    cbn [bind] in Hinit. injection Hinit as <-. cbn [label].
    apply (rstrip_split_no_trailing_empty (c :: rest)). now constructor.
  - repeat split; reflexivity.
  - reflexivity.
  - intros [l]. reflexivity.
Qed.

End TrailingLabels.

Lemma DNSLabel_init_trailing_labels_witness :
  has_non_dot [x61; dot; x62; dot; dot]
  /\ no_trailing_empty [[x61]; [x62]]
  /\ no_trailing_empty [[x46; x6f; x6f]; [x43; x6f; x6d]].
Proof.
  assert (Hex : has_non_dot [x61; dot; x62; dot; dot]) by now constructor.
  split; [exact Hex |]. split.
  - exact (proj1 (proj1 (@DNSLabel_init_trailing_labels ascii_only)
                    [x61; dot; x62; dot; dot] (mkDNSLabel [[x61]; [x62]])
                    Hex eq_refl)).
  - exact (proj1 (proj2 (@DNSLabel_init_trailing_labels ascii_only))
             Foo_Com [x46; x6f; x6f; dot; x43; x6f; x6d]
             (mkDNSLabel [[x46; x6f; x6f]; [x43; x6f; x6d]]) eq_refl eq_refl).
Defined.

(** ** The doctests of [label.py] on the model *)

Module Doctests.
Import String.

Definition b (s : string) : bytes := list_byte_of_string s.

(** [len(b)] of a buffer is the length of its data. *)
Definition run (names : list bytes) : result (list Z * DNSBuffer) :=
  fold_left
    (fun acc name =>
       let* (lens, st) := acc in
       let* st := @encode_name ascii_only (of_bytes name) st in
       Ok ((lens ++ [len (data st)])%list, st))
    names (Ok ([], DNSBuffer_init [])).

Definition five_names : list bytes :=
  [b "aaa.bbb.ccc."; b "aaa.bbb.ccc."; b "xxx.yyy.zzz"; b "zzz.xxx.bbb.ccc.";
   b "aaa.xxx.bbb.ccc"].

Example encode_name_doctest :
  (let* (lens, _) := run five_names in Ok lens) = Ok [13; 15; 28; 38; 44].
Proof. vm_compute. reflexivity. Qed.

Definition decode_all (n : nat) (st : DNSBuffer) : result (list (list bytes)) :=
  let* (ls, _) :=
    fold_left
      (fun acc _ =>
         let* (ls, st) := acc in
         let* (l, st) := decode_name 10 (-1) st in
         Ok ((ls ++ [label l])%list, st))
      (seq 0 n) (Ok ([], set_offset 0 st)) in
  Ok ls.

Example decode_name_doctest :
  (let* (_, st) := run five_names in decode_all 5 st) =
    Ok [[b "aaa"; b "bbb"; b "ccc"]; [b "aaa"; b "bbb"; b "ccc"];
        [b "xxx"; b "yyy"; b "zzz"]; [b "zzz"; b "xxx"; b "bbb"; b "ccc"];
        [b "aaa"; b "xxx"; b "bbb"; b "ccc"]].
Proof. vm_compute. reflexivity. Qed.

Example encode_name_list_doctest :
  (let* st := @encode_name ascii_only
                (of_list [b "a.aa"; b "b.bb"; b "c.cc"]) (DNSBuffer_init []) in
   let* (l, _) := decode_name 10 (-1) (set_offset 0 st) in
   Ok (List.length (label l))) = Ok 3%nat.
Proof. vm_compute. reflexivity. Qed.

Example encode_name_nocompress_doctest :
  (let* st := @encode_name_nocompress ascii_only (of_bytes (b "aaa.bbb.ccc."))
                (DNSBuffer_init []) in
   let n1 := len (data st) in
   let* st := @encode_name_nocompress ascii_only (of_bytes (b "aaa.bbb.ccc.")) st in
   let* ls := decode_all 2 st in
   Ok (n1, len (data st), ls)) =
    Ok (13, 26, [[b "aaa"; b "bbb"; b "ccc"]; [b "aaa"; b "bbb"; b "ccc"]]).
Proof. vm_compute. reflexivity. Qed.

Example DNSLabel_doctest :
  (let* l1 := @DNSLabel_init ascii_only (of_bytes (b "aaa.bbb.ccc.")) in
   let* l2 := @DNSLabel_init ascii_only (of_list [b "aaa"; b "bbb"; b "ccc"]) in
   let* l3 := @DNSLabel_init ascii_only (of_bytes (b "AAA.BBB.CCC")) in
   let* e := @DNSLabel_eq_any ascii_only l1 (of_bytes (b "AAA.BBB.CCC")) in
   Ok (DNSLabel_eq l1 l2, DNSLabel_eq l1 l3, e)) = Ok (true, true, true).
Proof. vm_compute. reflexivity. Qed.

(** Scenario S3 of the specification: a pointer [c00c] at offset 12 to
    itself fails with a buffer error. *)
Example self_pointer_scenario :
  decode_name 5 (-1)
    (set_offset 12 (DNSBuffer_init (repeat x00 12 ++ [xc0; x0c]))) =
    Raise BufferError.
Proof. vm_compute. reflexivity. Qed.

End Doctests.

(** * Further properties of the code *)

(** ** Bit fields *)

Import BitFacts.

(** X1: for non-negative [offset] and [bits], [get_bits] is the field of
    [bits] bits that starts at bit [offset]: the quotient by [2^offset]
    reduced modulo [2^bits], a value below [2^bits]. *)
Theorem get_bits_value data offset bits :
  0 <= offset -> 0 <= bits ->
  get_bits data offset bits = (data / 2 ^ offset) mod 2 ^ bits
  /\ 0 <= get_bits data offset bits < 2 ^ bits.
Proof.
  intros Ho Hb. rewrite get_bits_div_mod by lia.
  split; [reflexivity |]. apply Z.mod_pos_bound. apply Z.pow_pos_nonneg; lia.
Qed.

Lemma get_bits_value_witness :
  get_bits 50000 14 2 = (50000 / 2 ^ 14) mod 2 ^ 2
  /\ 0 <= get_bits 50000 14 2 < 2 ^ 2.
Proof. apply (get_bits_value 50000 14 2); lia. Defined.

(** X2: a field written by [set_bits] inside the low 16 bits is read back
    by [get_bits]: the result is [value] reduced to [bits] bits, whatever
    [data] was. *)
Theorem get_bits_set_bits data value offset bits :
  0 <= offset -> 0 <= bits -> offset + bits <= 16 ->
  get_bits (set_bits data value offset bits) offset bits = value mod 2 ^ bits.
Proof.
  intros Ho Hb H16. apply Z.bits_inj'. intros i Hi.
  rewrite get_bits_testbit, set_bits_testbit by lia.
  unfold in_field.
  destruct (Z.ltb_spec i bits) as [Hlt | Hge].
  - rewrite Z.mod_pow2_bits_low by lia.
    destruct (Z.leb_spec offset (i + offset)); [| lia].
    destruct (Z.ltb_spec (i + offset) (offset + bits)); [| lia].
    destruct (Z.ltb_spec (i + offset) 16); [| lia].
    cbn [andb negb]. rewrite andb_false_r, andb_true_r. cbn [orb].
    f_equal. lia.
  - rewrite Z.mod_pow2_bits_high by lia. apply andb_false_r.
Qed.

Lemma get_bits_set_bits_witness :
  get_bits (set_bits 43981 21 4 3) 4 3 = 21 mod 2 ^ 3.
Proof. apply (get_bits_set_bits 43981 21 4 3); lia. Defined.

(** X3: [set_bits] does not disturb another field of the low 16 bits: a
    field that does not overlap the written one reads as it did in
    [data]. *)
Theorem get_bits_set_bits_other data value offset bits offset' bits' :
  0 <= offset -> 0 <= bits -> 0 <= offset' -> 0 <= bits' ->
  offset' + bits' <= 16 ->
  offset' + bits' <= offset \/ offset + bits <= offset' ->
  get_bits (set_bits data value offset bits) offset' bits' =
    get_bits data offset' bits'.
Proof.
  intros Ho Hb Ho' Hb' H16 Hdisj. apply Z.bits_inj'. intros i Hi.
  rewrite !get_bits_testbit, set_bits_testbit by lia.
  destruct (Z.ltb_spec i bits') as [Hlt | Hge]; [| now rewrite !andb_false_r].
  rewrite !andb_true_r. unfold in_field.
  destruct (Z.ltb_spec (i + offset') 16); [| lia].
  destruct (Z.leb_spec offset (i + offset')),
    (Z.ltb_spec (i + offset') (offset + bits)); cbn [andb]; try lia;
    now rewrite andb_true_r.
Qed.

Lemma get_bits_set_bits_other_witness :
  get_bits (set_bits 43981 21 4 3) 8 8 = get_bits 43981 8 8.
Proof. apply (get_bits_set_bits_other 43981 21 4 3 8 8); lia. Defined.

(** X4: with a field inside the low 16 bits the result of [set_bits] is a
    16-bit value, for every integer [data] and [value]: whatever [data] has
    above bit 15 is dropped. *)
Theorem set_bits_is_16_bit data value offset bits :
  0 <= offset -> 0 <= bits -> offset + bits <= 16 ->
  0 <= set_bits data value offset bits < 65536
  /\ set_bits data value offset bits =
       set_bits (data mod 65536) value offset bits.
Proof.
  intros Ho Hb H16.
  assert (Hhigh : forall d i, 16 <= i ->
            Z.testbit (set_bits d value offset bits) i = false).
  { intros d i Hi. rewrite set_bits_testbit by lia. unfold in_field.
    destruct (Z.ltb_spec i (offset + bits)); [lia |].
    destruct (Z.ltb_spec i 16); [lia |].
    now rewrite !andb_false_r. }
  split.
  - assert (Hmod : set_bits data value offset bits =
                   set_bits data value offset bits mod 2 ^ 16).
    { apply Z.bits_inj'. intros i Hi.
      destruct (Z.ltb_spec i 16).
      - now rewrite Z.mod_pow2_bits_low by lia.
      - rewrite Z.mod_pow2_bits_high by lia. now apply Hhigh. }
    rewrite Hmod. change 65536 with (2 ^ 16). apply Z.mod_pos_bound. lia.
  - apply Z.bits_inj'. intros i Hi.
    rewrite !set_bits_testbit by lia.
    change 65536 with (2 ^ 16).
    destruct (Z.ltb_spec i 16).
    + now rewrite Z.mod_pow2_bits_low by lia.
    + rewrite Z.mod_pow2_bits_high by lia.
      unfold in_field. destruct (Z.ltb_spec i (offset + bits)); [lia |].
      now rewrite !andb_false_r.
Qed.

Lemma set_bits_is_16_bit_witness :
  0 <= set_bits 1000000 3 14 2 < 65536
  /\ set_bits 1000000 3 14 2 = set_bits (1000000 mod 65536) 3 14 2.
Proof. apply (set_bits_is_16_bit 1000000 3 14 2); lia. Defined.

(** ** [binary] *)

(** The doctests of [binary]: [binary(6789)], [binary(6789, 8)] and
    [binary(6789, reverse=True)]. *)
Example binary_doctests :
  binary 6789 16 false = [48;48;48;49;49;48;49;48;49;48;48;48;48;49;48;49]%N
  /\ binary 6789 8 false = [49;48;48;48;48;49;48;49]%N
  /\ binary 6789 16 true = [49;48;49;48;48;48;48;49;48;49;48;49;49;48;48;48]%N.
Proof. repeat split; reflexivity. Qed.

Lemma range_down_S (k : nat) :
  range_down (Z.of_nat (S k)) = Z.of_nat k :: range_down (Z.of_nat k).
Proof.
  unfold range_down. rewrite !Nat2Z.id. cbn [seq map]. f_equal; [lia |].
  rewrite <- seq_shift, map_map. apply map_ext. intros i. lia.
Qed.

Lemma shiftr_land_1 n y : 0 <= y -> Z.land (Z.shiftr n y) 1 = (n / 2 ^ y) mod 2.
Proof.
  intros Hy. rewrite Z.shiftr_div_pow2 by lia.
  change 1 with (Z.ones 1). now rewrite Z.land_ones by lia.
Qed.

Lemma digit_str_bit n y :
  0 <= y -> digit_str (Z.land (Z.shiftr n y) 1) = [if Z.testbit n y then 49%N else 48%N].
Proof.
  intros Hy. rewrite shiftr_land_1 by lia.
  rewrite <- Z.bit0_mod, Z.div_pow2_bits, Z.add_0_l by lia.
  now destruct (Z.testbit n y).
Qed.

(** The digits of [binary], most significant first. *)
Lemma binary_digits n (k : nat) :
  binary n (Z.of_nat k) false =
    map (fun y => if Z.testbit n y then 49%N else 48%N) (range_down (Z.of_nat k)).
Proof.
  unfold binary. induction k as [| k IH]; [reflexivity |].
  rewrite range_down_S. cbn [map concat].
  rewrite digit_str_bit by lia. cbn [app]. f_equal. exact IH.
Qed.

Lemma concat_singletons {A B} (f : A -> B) (l : list A) :
  concat (map (fun x => [f x]) l) = map f l.
Proof. induction l as [| x l IH]; [reflexivity |]. cbn. now rewrite IH. Qed.

Lemma binary_reverse_digits n (k : nat) :
  binary n (Z.of_nat k) true =
    rev (map (fun y => if Z.testbit n y then 49%N else 48%N) (range_down (Z.of_nat k))).
Proof.
  unfold binary.
  assert (Hpos : Forall (fun y => 0 <= y) (range_down (Z.of_nat k))).
  { unfold range_down. apply Forall_forall. intros y Hy.
    apply list_elem_of_In, in_map_iff in Hy. destruct Hy as (i & <- & Hi).
    apply in_seq in Hi. lia. }
  assert (Hmap : map (fun y => digit_str (Z.land (Z.shiftr n y) 1))
                   (range_down (Z.of_nat k)) =
                 map (fun y => [if Z.testbit n y then 49%N else 48%N])
                   (range_down (Z.of_nat k))).
  { induction Hpos as [| y l Hy _ IH]; [reflexivity |].
    cbn [map]. rewrite digit_str_bit by lia. now rewrite IH. }
  cbv zeta. rewrite Hmap, <- !map_rev. apply concat_singletons.
Qed.

Lemma lookup_map {A B} (f : A -> B) (l : list A) (i : nat) :
  map f l !! i = option_map f (l !! i).
Proof.
  revert i. induction l as [| x l IH]; intros [| i]; try reflexivity.
  cbn [map]. apply IH.
Qed.

Lemma range_down_lookup (k i : nat) :
  (i < k)%nat -> range_down (Z.of_nat k) !! i = Some (Z.of_nat k - 1 - Z.of_nat i).
Proof.
  intros Hi. unfold range_down. rewrite Nat2Z.id, lookup_map.
  rewrite lookup_seq_lt by exact Hi. reflexivity.
Qed.

Lemma base2_digits n (k : nat) :
  forall acc,
    fold_left base2_step
      (map (fun y => if Z.testbit n y then 49%N else 48%N) (range_down (Z.of_nat k)))
      (Some acc) =
    Some (acc * 2 ^ Z.of_nat k + n mod 2 ^ Z.of_nat k).
Proof.
  induction k as [| k IH]; intros acc.
  - change (Z.of_nat 0) with 0.
    replace (acc * 2 ^ 0 + n mod 2 ^ 0) with acc
      by (rewrite Z.pow_0_r, Z.mod_1_r; lia).
    reflexivity.
  - rewrite range_down_S. cbn [map fold_left].
    assert (Hstep : base2_step (Some acc)
                      (if Z.testbit n (Z.of_nat k) then 49%N else 48%N) =
                    Some (2 * acc + Z.b2z (Z.testbit n (Z.of_nat k))))
      by (destruct (Z.testbit n (Z.of_nat k)); cbn; f_equal; lia).
    rewrite Hstep, IH. f_equal.
    rewrite Nat2Z.inj_succ, Z.pow_succ_r by lia.
    rewrite (Z.mul_comm 2 (2 ^ Z.of_nat k)), Z.rem_mul_r by lia.
    rewrite <- Z.bit0_mod, Z.div_pow2_bits by lia.
    replace (0 + Z.of_nat k) with (Z.of_nat k) by lia.
    generalize (2 ^ Z.of_nat k) (n mod 2 ^ Z.of_nat k)
      (Z.b2z (Z.testbit n (Z.of_nat k))). intros p r t. lia.
Qed.

(** X5: for a non-negative [count] the string [binary(n, count)] has
    [count] characters, and its character at index [i] is the digit [1] or
    [0] of bit [count - 1 - i] of [n], for every integer [n]: the most
    significant digit comes first. So for a positive [count] the string is
    the binary numeral of [n] modulo [2^count], and for [count = 0] it is
    empty; with [reverse] the same digits come in the opposite order. *)
Theorem binary_value n count :
  0 <= count ->
  len (binary n count false) = count
  /\ (forall i, 0 <= i < count ->
        binary n count false !! Z.to_nat i =
          Some (if Z.testbit n (count - 1 - i) then 49%N else 48%N))
  /\ (0 < count -> int_base2 (binary n count false) = Some (n mod 2 ^ count))
  /\ (count = 0 -> binary n count false = [])
  /\ binary n count true = rev (binary n count false).
Proof.
  intros Hc. rewrite <- (Z2Nat.id count Hc).
  generalize (Z.to_nat count) as k. intros k.
  assert (Hlen : len (binary n (Z.of_nat k) false) = Z.of_nat k).
  { rewrite binary_digits. unfold len, range_down.
    rewrite !length_map, length_seq, Nat2Z.id. reflexivity. }
  split; [exact Hlen |]. split; [| split; [| split]].
  - intros i Hi. rewrite binary_digits, lookup_map.
    rewrite range_down_lookup by lia. cbn [option_map].
    now rewrite Z2Nat.id by lia.
  - intros Hpos. unfold int_base2.
    destruct (binary n (Z.of_nat k) false) as [| c s] eqn:E.
    + change (len (@nil N)) with 0 in Hlen. lia.
    + rewrite <- E, binary_digits, base2_digits. reflexivity.
  - intros Hz. destruct k; [reflexivity | lia].
  - now rewrite binary_reverse_digits, binary_digits.
Qed.

Lemma binary_value_witness :
  len (binary 6789 8 false) = 8
  /\ binary 6789 8 false !! Z.to_nat 0 = Some (if Z.testbit 6789 (8 - 1 - 0) then 49%N else 48%N)
  /\ int_base2 (binary 6789 8 false) = Some (6789 mod 2 ^ 8)
  /\ binary 6789 8 true = rev (binary 6789 8 false).
Proof.
  destruct (binary_value 6789 8 ltac:(lia)) as (H1 & H2 & H3 & _ & H5).
  split; [exact H1 |]. split; [apply H2; lia |].
  split; [apply H3; lia | exact H5].
Defined.

(** ** Methods of [DNSLabel] *)

Lemma slice_from_neg_len {A} (s t : list A) :
  slice_from (- len s) t =
    match s with [] => t | _ => drop (length t - length s) t end.
Proof.
  unfold slice_from, slice_index, len. destruct s as [| x s].
  - cbn [length]. change (- Z.of_nat 0 <? 0) with false. cbv iota.
    rewrite Z.min_l by lia. reflexivity.
  - cbn [length]. destruct (Z.ltb_spec (- Z.of_nat (S (length s))) 0); [| lia].
    f_equal. lia.
Qed.

Lemma slice_to_neg_len {A} (s t : list A) :
  slice_to (- len s) t =
    match s with [] => [] | _ => take (length t - length s) t end.
Proof.
  unfold slice_to, slice_index, len. destruct s as [| x s].
  - cbn [length]. change (- Z.of_nat 0 <? 0) with false. cbv iota.
    rewrite Z.min_l by lia. reflexivity.
  - cbn [length]. destruct (Z.ltb_spec (- Z.of_nat (S (length s))) 0); [| lia].
    f_equal. lia.
Qed.

Lemma DNSLabel_eta (l : DNSLabel) : mkDNSLabel (label l) = l.
Proof. now destruct l. Qed.

Lemma DNSLabel_eq_trans (a b c : DNSLabel) :
  DNSLabel_eq a b = true -> DNSLabel_eq b c = true -> DNSLabel_eq a c = true.
Proof. rewrite !DNSLabel_eq_true. congruence. Qed.

Section LabelMethods.
Context `{idna : Idna}.

Lemma DNSLabel_add_ok (self : DNSLabel) (name : DNSLabelCreateTypes) (new : DNSLabel) :
  DNSLabel_init name = Ok new ->
  DNSLabel_add self name = Ok (mkDNSLabel (label new ++ label self)).
Proof.
  intros Hnew. unfold DNSLabel_add. rewrite Hnew. cbn [bind].
  destruct (label self); [| reflexivity].
  now rewrite app_nil_r, DNSLabel_eta.
Qed.

Lemma matchSuffix_ok (self : DNSLabel) (sfx : DNSLabelCreateTypes) (s : DNSLabel) :
  DNSLabel_init sfx = Ok s ->
  matchSuffix self sfx =
    Ok (DNSLabel_eq (mkDNSLabel (slice_from (- len (label s)) (label self))) s).
Proof. intros Hs. unfold matchSuffix. now rewrite Hs. Qed.

Lemma stripSuffix_ok (self : DNSLabel) (sfx : DNSLabelCreateTypes) (s : DNSLabel) :
  DNSLabel_init sfx = Ok s ->
  stripSuffix self sfx =
    Ok (if DNSLabel_eq (mkDNSLabel (slice_from (- len (label s)) (label self))) s
        then mkDNSLabel (slice_to (- len (label s)) (label self))
        else self).
Proof.
  intros Hs. unfold stripSuffix. rewrite Hs. cbn [bind].
  rewrite (matchSuffix_ok self (of_DNSLabel s) s) by (cbn; now rewrite DNSLabel_eta).
  cbn [bind]. now destruct (DNSLabel_eq _ s).
Qed.

(** X6: [__eq__] is an equivalence relation on names (reflexive,
    symmetric, transitive), and [__ne__] is its negation. *)
Theorem DNSLabel_eq_equivalence :
  (forall a, DNSLabel_eq a a = true)
  /\ (forall a b, DNSLabel_eq a b = DNSLabel_eq b a)
  /\ (forall a b c, DNSLabel_eq a b = true -> DNSLabel_eq b c = true ->
                    DNSLabel_eq a c = true)
  /\ (forall a b, DNSLabel_ne_any a (of_DNSLabel b) = Ok (negb (DNSLabel_eq a b))).
Proof.
  split; [exact DNSLabel_eq_refl |]. split; [exact DNSLabel_eq_sym |].
  split; [exact DNSLabel_eq_trans | reflexivity].
Qed.

(** X7: [add] prepends: the labels of [self.add(name)] are the labels of
    [DNSLabel(name)] followed by those of [self]. So the root is neutral on
    both sides and [add] is associative:
    [x.add(y).add(z)] and [x.add(y.add(z))] have the same labels. *)
Theorem DNSLabel_add_prepends :
  (forall self name new, DNSLabel_init name = Ok new ->
     exists r, DNSLabel_add self name = Ok r
               /\ label r = label new ++ label self)
  /\ (forall x, DNSLabel_add (mkDNSLabel []) (of_DNSLabel x) = Ok x
               /\ DNSLabel_add x of_None = Ok x)
  /\ (forall x y z, exists xy yz r,
        DNSLabel_add x (of_DNSLabel y) = Ok xy
        /\ DNSLabel_add y (of_DNSLabel z) = Ok yz
        /\ DNSLabel_add xy (of_DNSLabel z) = Ok r
        /\ DNSLabel_add x (of_DNSLabel yz) = Ok r).
Proof.
  split; [| split].
  - intros self name new Hnew. eexists.
    split; [exact (DNSLabel_add_ok self name new Hnew) | reflexivity].
  - intros x. split.
    + rewrite (DNSLabel_add_ok _ _ x) by (cbn; now rewrite DNSLabel_eta).
      cbn [label]. now rewrite app_nil_r, DNSLabel_eta.
    + rewrite (DNSLabel_add_ok _ _ (mkDNSLabel [])) by reflexivity.
      cbn [label app]. now rewrite DNSLabel_eta.
  - intros x y z.
    exists (mkDNSLabel (label y ++ label x)), (mkDNSLabel (label z ++ label y)),
      (mkDNSLabel (label z ++ label y ++ label x)).
    rewrite (DNSLabel_add_ok x _ y) by (cbn; now rewrite DNSLabel_eta).
    rewrite (DNSLabel_add_ok y _ z) by (cbn; now rewrite DNSLabel_eta).
    rewrite (DNSLabel_add_ok _ _ z) by (cbn; now rewrite DNSLabel_eta).
    rewrite (DNSLabel_add_ok x _ (mkDNSLabel (label z ++ label y))) by reflexivity.
    cbn [label]. rewrite <- app_assoc. repeat split; reflexivity.
Qed.

(** X8: [add] respects [__eq__]: equal names (up to ASCII case) prepended
    with equal names give equal names. *)
Theorem DNSLabel_add_respects_eq (x x' y y' : DNSLabel) :
  DNSLabel_eq x x' = true -> DNSLabel_eq y y' = true ->
  exists r r',
    DNSLabel_add x (of_DNSLabel y) = Ok r
    /\ DNSLabel_add x' (of_DNSLabel y') = Ok r'
    /\ DNSLabel_eq r r' = true.
Proof.
  intros Hx Hy. apply DNSLabel_eq_true in Hx, Hy.
  exists (mkDNSLabel (label y ++ label x)), (mkDNSLabel (label y' ++ label x')).
  rewrite (DNSLabel_add_ok x _ y) by (cbn; now rewrite DNSLabel_eta).
  rewrite (DNSLabel_add_ok x' _ y') by (cbn; now rewrite DNSLabel_eta).
  repeat split. apply DNSLabel_eq_true. cbn [label].
  now rewrite !map_app, Hx, Hy.
Qed.

(** X9: [matchSuffix] compares the last [len(suffix.label)] labels of
    [self] with the suffix, up to ASCII case. For a suffix that is not the
    root it is true exactly when the lower-cased labels of the suffix end
    the lower-cased labels of [self]; for the root suffix the slice
    [self.label[-0:]] is the whole name, and the match is true only when
    [self] is the root too. *)
Theorem matchSuffix_spec (self : DNSLabel) (sfx : DNSLabelCreateTypes) (s : DNSLabel) :
  DNSLabel_init sfx = Ok s ->
  exists m, matchSuffix self sfx = Ok m
    /\ (m = true <->
        (label s = [] /\ label self = [])
        \/ (label s <> []
            /\ exists pre, map lower (label self) = pre ++ map lower (label s))).
Proof.
  intros Hs. eexists. split; [exact (matchSuffix_ok self sfx s Hs) |].
  rewrite DNSLabel_eq_true. cbn [label]. rewrite slice_from_neg_len.
  destruct (label s) as [| s0 s'] eqn:Es.
  - cbn [map]. split.
    + intros H. left. split; [reflexivity |]. now apply map_eq_nil in H.
    + intros [[_ H] | [H _]]; [now rewrite H | congruence].
  - split.
    + intros H. right. split; [discriminate |].
      exists (map lower (take (length (label self) - length (s0 :: s')) (label self))).
      now rewrite <- H, <- map_app, take_drop.
    + intros [[H _] | [_ [pre H]]]; [discriminate |].
      assert (Hlen : (length (label self) - length (s0 :: s'))%nat = length pre).
      { apply (f_equal (@length _)) in H.
        rewrite length_app, !length_map in H. lia. }
      rewrite Hlen, <- skipn_map, H. apply drop_app_length.
Qed.

End LabelMethods.

Lemma DNSLabel_eq_equivalence_witness :
  let a := mkDNSLabel [[x41]] in
  let b := mkDNSLabel [[x61]] in
  DNSLabel_eq a b = true /\ DNSLabel_eq b a = true /\ DNSLabel_eq a a = true.
Proof.
  intros a b.
  pose proof (proj1 (proj2 (proj2 (@DNSLabel_eq_equivalence ascii_only))) a b a
                eq_refl eq_refl) as H.
  split; [reflexivity | split; [reflexivity | exact H]].
Defined.

Lemma DNSLabel_add_prepends_witness :
  exists r, @DNSLabel_add ascii_only (mkDNSLabel [[x63]]) (of_bytes [x61; dot; x62]) = Ok r
            /\ label r = [[x61]; [x62]] ++ [[x63]].
Proof.
  exact (proj1 (@DNSLabel_add_prepends ascii_only) (mkDNSLabel [[x63]])
           (of_bytes [x61; dot; x62]) (mkDNSLabel [[x61]; [x62]]) eq_refl).
Defined.

Lemma DNSLabel_add_respects_eq_witness :
  exists r r',
    @DNSLabel_add ascii_only (mkDNSLabel [[x43]]) (of_DNSLabel (mkDNSLabel [[x61]])) = Ok r
    /\ @DNSLabel_add ascii_only (mkDNSLabel [[x63]]) (of_DNSLabel (mkDNSLabel [[x41]])) = Ok r'
    /\ DNSLabel_eq r r' = true.
Proof.
  exact (@DNSLabel_add_respects_eq ascii_only (mkDNSLabel [[x43]]) (mkDNSLabel [[x63]])
           (mkDNSLabel [[x61]]) (mkDNSLabel [[x41]]) eq_refl eq_refl).
Defined.

Lemma matchSuffix_spec_witness :
  exists m, @matchSuffix ascii_only (mkDNSLabel [[x61]; [x62]]) (of_bytes [x42; dot]) = Ok m
    /\ (m = true <->
        ([[x42]] = [] /\ [[x61]; [x62]] = [])
        \/ ([[x42]] <> []
            /\ exists pre, map lower [[x61]; [x62]] = pre ++ map lower [[x42]])).
Proof.
  exact (@matchSuffix_spec ascii_only (mkDNSLabel [[x61]; [x62]]) (of_bytes [x42; dot])
           (mkDNSLabel [[x42]]) eq_refl).
Defined.

Section StripSuffix.
Context `{idna : Idna}.

(** X10: stripping from [x.add(y)] the suffix [x] gives the labels of [y]
    back, for all names [x] and [y], the root included. *)
Theorem stripSuffix_add (x y : DNSLabel) :
  exists xy r,
    DNSLabel_add x (of_DNSLabel y) = Ok xy
    /\ stripSuffix xy (of_DNSLabel x) = Ok r
    /\ label r = label y.
Proof.
  exists (mkDNSLabel (label y ++ label x)). eexists.
  split; [apply DNSLabel_add_ok; cbn; now rewrite DNSLabel_eta |].
  split; [apply stripSuffix_ok; cbn; now rewrite DNSLabel_eta |].
  cbn [label]. rewrite slice_from_neg_len, slice_to_neg_len.
  destruct (label x) as [| x0 x'] eqn:Ex.
  - rewrite app_nil_r.
    destruct (DNSLabel_eq (mkDNSLabel (label y)) x) eqn:E; cbn [label].
    + apply DNSLabel_eq_true in E. cbn [label] in E. rewrite Ex in E.
      symmetry. now apply map_eq_nil in E.
    + reflexivity.
  - assert (Hn : (length (label y ++ x0 :: x') - length (x0 :: x'))%nat
                 = length (label y)) by (rewrite length_app; lia).
    rewrite Hn, drop_app_length, take_app_length.
    assert (E : DNSLabel_eq (mkDNSLabel (x0 :: x')) x = true)
      by (apply DNSLabel_eq_true; cbn [label]; now rewrite Ex).
    now rewrite E.
Qed.

(** X11: when [matchSuffix] is true, [stripSuffix] removes exactly the
    labels of the suffix, and prepending what is left to the suffix gives a
    name equal to [self]; when it is false, [stripSuffix] returns [self]
    unchanged. *)
Theorem stripSuffix_spec (self : DNSLabel) (sfx : DNSLabelCreateTypes) (s : DNSLabel) :
  DNSLabel_init sfx = Ok s ->
  (matchSuffix self sfx = Ok true ->
     exists r back,
       stripSuffix self sfx = Ok r
       /\ (length (label r) + length (label s) = length (label self))%nat
       /\ DNSLabel_add s (of_DNSLabel r) = Ok back
       /\ DNSLabel_eq back self = true)
  /\ (matchSuffix self sfx = Ok false -> stripSuffix self sfx = Ok self).
Proof.
  intros Hs. rewrite (matchSuffix_ok self sfx s Hs), (stripSuffix_ok self sfx s Hs).
  split; intros Hm; injection Hm as Hm; rewrite Hm; [| reflexivity].
  exists (mkDNSLabel (slice_to (- len (label s)) (label self))),
    (mkDNSLabel (slice_to (- len (label s)) (label self) ++ label s)).
  split; [reflexivity |].
  split; [| split;
    [exact (DNSLabel_add_ok s (of_DNSLabel (mkDNSLabel _)) (mkDNSLabel _) eq_refl) |]].
  - apply DNSLabel_eq_true in Hm. cbn [label] in Hm |- *.
    rewrite slice_from_neg_len in Hm. rewrite slice_to_neg_len.
    destruct (label s) as [| s0 s'] eqn:Es.
    + cbn [map] in Hm. apply map_eq_nil in Hm. now rewrite Hm.
    + apply (f_equal (@length _)) in Hm.
      rewrite !length_map, length_drop in Hm. rewrite length_take. lia.
  - apply DNSLabel_eq_true in Hm. apply DNSLabel_eq_true.
    cbn [label] in Hm |- *.
    rewrite slice_from_neg_len in Hm. rewrite slice_to_neg_len.
    destruct (label s) as [| s0 s'] eqn:Es.
    + cbn [map] in Hm. apply map_eq_nil in Hm. now rewrite Hm.
    + rewrite map_app, <- Hm, <- map_app. now rewrite take_drop.
Qed.

(** X12: [__len__] is the length of the labels joined by dots: pre-pending
    a name that is not the root to another adds the two lengths and one for
    the dot between them. *)
Theorem DNSLabel_len_add (x y : DNSLabel) :
  label x <> [] -> label y <> [] ->
  exists r, DNSLabel_add x (of_DNSLabel y) = Ok r
            /\ DNSLabel_len r = DNSLabel_len y + 1 + DNSLabel_len x.
Proof.
  intros Hx Hy. eexists.
  split; [apply DNSLabel_add_ok; cbn; now rewrite DNSLabel_eta |].
  unfold DNSLabel_len. cbn [label].
  destruct (label x) as [| x0 x']; [congruence |]. clear Hx.
  induction (label y) as [| y0 y' IH]; [congruence |].
  destruct y' as [| y1 y''].
  - cbn [app join_dot]. rewrite len_app, len_cons. lia.
  - specialize (IH ltac:(discriminate)).
    change (join_dot ((y0 :: y1 :: y'') ++ x0 :: x'))
      with (y0 ++ dot :: join_dot ((y1 :: y'') ++ x0 :: x')).
    change (join_dot (y0 :: y1 :: y'')) with (y0 ++ dot :: join_dot (y1 :: y'')).
    rewrite !len_app, !len_cons, IH. lia.
Qed.

End StripSuffix.

Lemma stripSuffix_spec_witness :
  exists r back,
    @stripSuffix ascii_only (mkDNSLabel [[x61]; [x62]]) (of_bytes [x42; dot]) = Ok r
    /\ (length (label r) + length [[x42]] = length [[x61]; [x62]])%nat
    /\ @DNSLabel_add ascii_only (mkDNSLabel [[x42]]) (of_DNSLabel r) = Ok back
    /\ DNSLabel_eq back (mkDNSLabel [[x61]; [x62]]) = true.
Proof.
  exact (proj1 (@stripSuffix_spec ascii_only (mkDNSLabel [[x61]; [x62]])
                  (of_bytes [x42; dot]) (mkDNSLabel [[x42]]) eq_refl) eq_refl).
Defined.

Lemma DNSLabel_len_add_witness :
  exists r, @DNSLabel_add ascii_only (mkDNSLabel [[x63; x6f; x6d]])
              (of_DNSLabel (mkDNSLabel [[x77; x77; x77]])) = Ok r
            /\ DNSLabel_len r = 3 + 1 + 3.
Proof.
  exact (@DNSLabel_len_add ascii_only (mkDNSLabel [[x63; x6f; x6d]])
           (mkDNSLabel [[x77; x77; x77]]) ltac:(discriminate) ltac:(discriminate)).
Defined.

(** ** Size of the uncompressed form *)

Lemma len_wire ls :
  len (wire ls) = match ls with [] => 1 | _ => len (join_dot ls) + 2 end.
Proof.
  induction ls as [| l rest IH]; [reflexivity |].
  rewrite wire_cons, len_app, len_cons, IH.
  destruct rest as [| l2 rest']; [cbn [join_dot]; lia |].
  change (join_dot (l :: l2 :: rest')) with (l ++ dot :: join_dot (l2 :: rest')).
  rewrite len_app, len_cons. lia.
Qed.

Section EncodedSize.
Context `{idna : Idna}.

(** X13: with the cursor inside the buffer, [encode_name_nocompress] of a
    name within the limits moves the cursor by one byte for the root and by
    [len(name) + 2] bytes for any other name: never more than 255 bytes. *)
Theorem encode_name_nocompress_size (x : DNSLabelCreateTypes) (name : DNSLabel)
  (st : DNSBuffer) :
  as_DNSLabel x = Ok name ->
  DNSLabel_len name <= 253 ->
  labels_fit (label name) ->
  cursor_ok st ->
  exists st',
    encode_name_nocompress x st = Ok st'
    /\ offset st' = offset st +
         match label name with [] => 1 | _ => DNSLabel_len name + 2 end
    /\ offset st' - offset st <= 255.
Proof.
  intros Hname Htotal Hfit Hok. unfold encode_name_nocompress.
  rewrite Hname. cbn [bind].
  destruct (Z.gtb_spec (DNSLabel_len name) 253); [lia |].
  rewrite (encode_name_nocompress_loop_wire _ Hfit st Hok).
  eexists. split; [reflexivity |].
  rewrite write_offset, len_wire. unfold DNSLabel_len in *.
  destruct (label name); split; lia.
Qed.

End EncodedSize.

Lemma encode_name_nocompress_size_witness :
  exists st',
    @encode_name_nocompress ascii_only (of_DNSLabel www_example_com) buffer_with_a = Ok st'
    /\ offset st' = offset buffer_with_a + (DNSLabel_len www_example_com + 2)
    /\ offset st' - offset buffer_with_a <= 255.
Proof.
  apply (@encode_name_nocompress_size ascii_only (of_DNSLabel www_example_com)
           www_example_com buffer_with_a).
  - reflexivity.
  - vm_compute. discriminate.
  - repeat constructor; vm_compute; discriminate.
  - split; vm_compute; discriminate.
Defined.

(** ** Splitting and joining byte strings *)

Lemma split_dot_dot_free l : dot_free l -> split_dot l = [l].
Proof.
  induction 1 as [| c l Hc _ IH]; [reflexivity |].
  cbn [split_dot]. now rewrite Hc, IH.
Qed.

Lemma split_dot_app l r :
  dot_free l -> split_dot (l ++ dot :: r) = l :: split_dot r.
Proof.
  induction 1 as [| c l Hc _ IH]; [reflexivity |].
  cbn [app split_dot]. now rewrite Hc, IH.
Qed.

Lemma split_dot_snoc s : split_dot (s ++ [dot]) = split_dot s ++ [[]].
Proof.
  induction s as [| c s IH]; [reflexivity |].
  cbn [app split_dot]. rewrite IH.
  destruct (is_dot c); [reflexivity |].
  pose proof (split_dot_nonempty s) as Hne.
  destruct (split_dot s); [contradiction | reflexivity].
Qed.

Lemma split_join ls :
  ls <> [] -> Forall dot_free ls -> split_dot (join_dot ls) = ls.
Proof.
  intros Hne Hfree. induction Hfree as [| l rest Hl _ IH]; [congruence |].
  destruct rest as [| l2 rest'].
  - now apply split_dot_dot_free.
  - change (join_dot (l :: l2 :: rest')) with (l ++ dot :: join_dot (l2 :: rest')).
    rewrite split_dot_app by exact Hl. f_equal. now apply IH.
Qed.

Lemma rstrip_dot_snoc s : rstrip_dot (s ++ [dot]) = rstrip_dot s.
Proof.
  induction s as [| c s IH]; [reflexivity |].
  cbn [app rstrip_dot]. now rewrite IH.
Qed.

Lemma rstrip_dot_id s c :
  last s = Some c -> is_dot c = false -> rstrip_dot s = s.
Proof.
  revert c. induction s as [| x s IH]; intros c Hl Hc; [discriminate |].
  cbn [rstrip_dot]. rewrite last_cons in Hl.
  destruct (last s) as [y |] eqn:El.
  - injection Hl as ->. rewrite (IH c eq_refl Hc).
    destruct s; [discriminate | reflexivity].
  - injection Hl as ->. apply last_None in El. subst s.
    cbn [rstrip_dot]. now rewrite Hc.
Qed.

Lemma last_join_dot ls l :
  last ls = Some l -> l <> [] -> last (join_dot ls) = last l.
Proof.
  induction ls as [| l0 rest IH]; intros Hl Hne; [discriminate |].
  destruct rest as [| l2 rest'].
  - cbn in Hl. now injection Hl as ->.
  - rewrite last_cons_cons in Hl. specialize (IH Hl Hne).
    change (join_dot (l0 :: l2 :: rest')) with (l0 ++ dot :: join_dot (l2 :: rest')).
    rewrite last_app, last_cons, IH.
    destruct (last l) eqn:E; [reflexivity |].
    apply last_None in E. contradiction.
Qed.

Lemma last_dot_free l c : dot_free l -> last l = Some c -> is_dot c = false.
Proof.
  intros Hfree Hl. unfold dot_free in Hfree. rewrite Forall_forall in Hfree.
  apply Hfree. apply last_Some in Hl. destruct Hl as [l' ->].
  apply elem_of_app. right. now left.
Qed.

Section BytesRoundTrip.
Context `{idna : Idna}.

(** X14: a byte string made of labels without dots, joined by dots, is
    split back into exactly these labels by [DNSLabel(bytes)], with or
    without a trailing dot, provided the last label is not empty; the
    length of the name is then the length of the joined string. *)
Theorem DNSLabel_init_join (ls : list bytes) :
  Forall dot_free ls ->
  ends_with_label ls ->
  DNSLabel_init (of_bytes (join_dot ls)) = Ok (mkDNSLabel ls)
  /\ DNSLabel_init (of_bytes (join_dot ls ++ [dot])) = Ok (mkDNSLabel ls)
  /\ DNSLabel_len (mkDNSLabel ls) = len (join_dot ls).
Proof.
  intros Hfree (l & c & Hl & Hc).
  assert (Hlne : l <> []) by (intros ->; discriminate).
  assert (Hls : ls <> []) by (intros ->; discriminate).
  assert (Hlfree : dot_free l).
  { rewrite Forall_forall in Hfree. apply Hfree.
    apply last_Some in Hl. destruct Hl as [l' ->].
    apply elem_of_app. right. now left. }
  pose proof (last_dot_free l c Hlfree Hc) as Hcdot.
  assert (Hlast : last (join_dot ls) = Some c)
    by (rewrite (last_join_dot ls l Hl Hlne); exact Hc).
  assert (Hstrip : rstrip_dot (join_dot ls) = join_dot ls)
    by exact (rstrip_dot_id _ c Hlast Hcdot).
  assert (Hj : join_dot ls <> []) by (intros E; rewrite E in Hlast; discriminate).
  assert (Hj1 : join_dot ls <> [dot]).
  { intros E. rewrite E in Hlast. cbn in Hlast. injection Hlast as <-.
    discriminate. }
  split; [| split; [| reflexivity]]; cbn [DNSLabel_init].
  - rewrite (bool_decide_eq_false_2 _ Hj), (bool_decide_eq_false_2 _ Hj1).
    cbn [orb]. now rewrite Hstrip, split_join.
  - rewrite bool_decide_eq_false_2 by (intros E; now apply app_eq_nil in E as [_ E]).
    rewrite bool_decide_eq_false_2.
    + cbn [orb]. now rewrite rstrip_dot_snoc, Hstrip, split_join.
    + intros E. apply (app_inj_tail _ [] dot dot) in E. now destruct E.
Qed.

End BytesRoundTrip.

Lemma DNSLabel_init_join_witness :
  @DNSLabel_init ascii_only (of_bytes (join_dot [[x61]; []; [x62; x63]]))
    = Ok (mkDNSLabel [[x61]; []; [x62; x63]])
  /\ @DNSLabel_init ascii_only (of_bytes (join_dot [[x61]; []; [x62; x63]] ++ [dot]))
     = Ok (mkDNSLabel [[x61]; []; [x62; x63]])
  /\ DNSLabel_len (mkDNSLabel [[x61]; []; [x62; x63]]) = len (join_dot [[x61]; []; [x62; x63]]).
Proof.
  apply (@DNSLabel_init_join ascii_only [[x61]; []; [x62; x63]]).
  - repeat constructor.
  - exists [x62; x63], x63. split; reflexivity.
Defined.

(** ** The text form of a name *)

(** Both branches of [_decode] write every byte by [decode_byte]. *)
Lemma DNSLabel_decode_bytes s : DNSLabel_decode s = concat (map decode_byte s).
Proof.
  unfold DNSLabel_decode. destruct (forallb in_LDH s) eqn:E; [| reflexivity].
  induction s as [| c s IH]; [reflexivity |].
  cbn [forallb] in E. apply andb_prop in E as [Ec Es].
  cbn [map concat]. unfold decode_byte at 1. rewrite Ec. cbn [app].
  f_equal. now apply IH.
Qed.

Lemma in_LDH_range c : in_LDH c = true -> (33 <= byte_to_N c <= 126)%N.
Proof.
  unfold in_LDH, in_range, byte_to_Z, byte_to_N. intros H.
  apply andb_prop in H as [H1 H2].
  apply Z.leb_le in H1, H2. lia.
Qed.

Lemma decode_byte_printable c : Forall printable (decode_byte c).
Proof.
  unfold decode_byte. destruct (in_LDH c) eqn:E.
  - constructor; [now apply in_LDH_range | constructor].
  - unfold escape_byte, printable. cbv zeta.
    pose proof (Byte.to_N_bounded c) as Hb.
    assert (Byte.to_N c / 100 < 3)%N
      by (apply N.Div0.div_lt_upper_bound; lia).
    pose proof (N.mod_upper_bound (Byte.to_N c / 10) 10 ltac:(lia)).
    pose proof (N.mod_upper_bound (Byte.to_N c) 10 ltac:(lia)).
    revert H H0 H1.
    generalize (Byte.to_N c / 100)%N ((Byte.to_N c / 10) mod 10)%N
      (Byte.to_N c mod 10)%N.
    intros q r t Hq Hr Ht.
    constructor; [lia |]. constructor; [lia |].
    constructor; [lia |]. constructor; [lia | constructor].
Qed.

Lemma join_str_printable parts :
  Forall (Forall printable) parts -> Forall printable (join_str parts).
Proof.
  induction 1 as [| p rest Hp _ IH]; [constructor |].
  destruct rest as [| p2 rest']; [exact Hp |].
  change (join_str (p :: p2 :: rest')) with (p ++ 46%N :: join_str (p2 :: rest')).
  apply Forall_app. split; [exact Hp |].
  constructor; [unfold printable; lia | exact IH].
Qed.

Lemma in_LDH_spec c : in_LDH c = true <-> (33 <= Byte.to_N c <= 126)%N.
Proof.
  unfold in_LDH, in_range, byte_to_Z. rewrite andb_true_iff, !Z.leb_le. lia.
Qed.

Lemma escape_byte_digits c :
  exists a b d : N,
    escape_byte c = [92; 48 + a; 48 + b; 48 + d]%N
    /\ (a <= 9 /\ b <= 9 /\ d <= 9)%N
    /\ (100 * a + 10 * b + d)%N = Byte.to_N c.
Proof.
  unfold escape_byte. cbv zeta.
  exists (Byte.to_N c / 100)%N, ((Byte.to_N c / 10) mod 10)%N, (Byte.to_N c mod 10)%N.
  split; [reflexivity |].
  pose proof (Byte.to_N_bounded c) as Hb.
  pose proof (N.div_mod' (Byte.to_N c) 10) as H1.
  pose proof (N.div_mod' (Byte.to_N c / 10) 10) as H2.
  rewrite N.Div0.div_div in H2. change (10 * 10)%N with 100%N in H2.
  assert (H3 : (Byte.to_N c / 100 < 3)%N)
    by (apply N.Div0.div_lt_upper_bound; lia).
  pose proof (N.mod_upper_bound (Byte.to_N c / 10) 10 ltac:(lia)) as H4.
  pose proof (N.mod_upper_bound (Byte.to_N c) 10 ltac:(lia)) as H5.
  revert H1 H2 H3 H4 H5.
  generalize (Byte.to_N c / 100)%N ((Byte.to_N c / 10) mod 10)%N
    (Byte.to_N c mod 10)%N (Byte.to_N c / 10)%N.
  intros q r t u. lia.
Qed.

(** X15: the text [str(name)] is made of the labels of the name, byte by
    byte, joined by dots and followed by a dot. A byte from 33 to 126 is
    written as the character of that code; every other byte is written as a
    backslash and the three decimal digits of its value. So the text holds
    printable ASCII characters only (codes 33 to 126), it ends with a dot,
    and the root is ["."]. *)
Theorem DNSLabel_str_printable (name : DNSLabel) :
  DNSLabel_str name =
    join_str (map (fun l => concat (map decode_byte l)) (label name)) ++ [46%N]
  /\ (forall c : byte,
        (33 <= Byte.to_N c <= 126)%N -> decode_byte c = [Byte.to_N c])
  /\ (forall c : byte,
        ~ (33 <= Byte.to_N c <= 126)%N ->
        exists a b d : N,
          decode_byte c = [92; 48 + a; 48 + b; 48 + d]%N
          /\ (a <= 9 /\ b <= 9 /\ d <= 9)%N
          /\ (100 * a + 10 * b + d)%N = Byte.to_N c)
  /\ Forall printable (DNSLabel_str name)
  /\ last (DNSLabel_str name) = Some 46%N
  /\ DNSLabel_str (mkDNSLabel []) = [46%N].
Proof.
  split; [| split; [| split; [| split; [| split; [| reflexivity]]]]].
  - unfold DNSLabel_str. do 2 f_equal. apply map_ext. intros l.
    apply DNSLabel_decode_bytes.
  - intros c Hc. unfold decode_byte.
    now rewrite (proj2 (in_LDH_spec c) Hc).
  - intros c Hc. unfold decode_byte.
    destruct (in_LDH c) eqn:E; [| apply escape_byte_digits].
    apply in_LDH_spec in E. contradiction.
  - unfold DNSLabel_str. apply Forall_app. split.
    + apply join_str_printable. apply Forall_forall. intros p Hp.
      apply list_elem_of_In, in_map_iff in Hp. destruct Hp as (l & <- & _).
      rewrite DNSLabel_decode_bytes. apply Forall_concat.
      apply Forall_forall. intros q Hq.
      apply list_elem_of_In, in_map_iff in Hq. destruct Hq as (c & <- & _).
      apply decode_byte_printable.
    + constructor; [unfold printable; lia | constructor].
  - unfold DNSLabel_str. now rewrite last_snoc.
Qed.

Lemma DNSLabel_str_printable_witness :
  DNSLabel_str (mkDNSLabel [[x61; x20; x62]; [x63]]) =
    [97; 92; 48; 51; 50; 98; 46; 99; 46]%N
  /\ decode_byte x61 = [Byte.to_N x61]
  /\ exists a b d : N,
       decode_byte x20 = [92; 48 + a; 48 + b; 48 + d]%N
       /\ (a <= 9 /\ b <= 9 /\ d <= 9)%N
       /\ (100 * a + 10 * b + d)%N = Byte.to_N x20.
Proof.
  destruct (DNSLabel_str_printable (mkDNSLabel [[x61; x20; x62]; [x63]]))
    as (H1 & H2 & H3 & _).
  split; [rewrite H1; reflexivity |].
  split; [apply H2; cbn; lia | apply H3; cbn; lia].
Defined.

(** ** Reading the text form back *)

Lemma ESCAPE_sub_cons_ne x tl :
  x <> 92%N -> ESCAPE_sub (x :: tl) = x :: ESCAPE_sub tl.
Proof.
  intros Hx. cbn [ESCAPE_sub].
  destruct tl as [| a [| b [| c rest]]]; try reflexivity.
  destruct (N.eqb_spec x 92); [contradiction | reflexivity].
Qed.

Lemma ESCAPE_sub_escape_byte c rest :
  ESCAPE_sub (escape_byte c ++ rest) = byte_to_N c :: ESCAPE_sub rest.
Proof. destruct c; reflexivity. Qed.

Lemma byte_to_N_backslash c : c <> x5c -> byte_to_N c <> 92%N.
Proof.
  intros Hc E. apply Hc. unfold byte_to_N in E.
  pose proof (Byte.of_to_N c) as H. rewrite E in H. cbn in H. congruence.
Qed.

Lemma ESCAPE_sub_decode s rest :
  Forall (fun c => c <> x5c) s ->
  ESCAPE_sub (DNSLabel_decode s ++ rest) = map byte_to_N s ++ ESCAPE_sub rest.
Proof.
  rewrite DNSLabel_decode_bytes.
  induction 1 as [| c s Hc _ IH]; [reflexivity |].
  cbn [map concat]. rewrite <- app_assoc. unfold decode_byte at 1.
  destruct (in_LDH c).
  - cbn [app]. rewrite ESCAPE_sub_cons_ne by now apply byte_to_N_backslash.
    now rewrite IH.
  - now rewrite ESCAPE_sub_escape_byte, IH.
Qed.

Lemma ESCAPE_sub_join ls tail :
  Forall (Forall (fun c => c <> x5c)) ls ->
  ESCAPE_sub (join_str (map DNSLabel_decode ls) ++ tail) =
    map byte_to_N (join_dot ls) ++ ESCAPE_sub tail.
Proof.
  induction 1 as [| l rest Hl _ IH]; [reflexivity |].
  destruct rest as [| l2 rest'].
  - cbn [map join_str join_dot]. now apply ESCAPE_sub_decode.
  - change (join_str (map DNSLabel_decode (l :: l2 :: rest')))
      with (DNSLabel_decode l ++ 46%N :: join_str (map DNSLabel_decode (l2 :: rest'))).
    change (join_dot (l :: l2 :: rest')) with (l ++ dot :: join_dot (l2 :: rest')).
    rewrite <- app_assoc. cbn [app].
    rewrite ESCAPE_sub_decode by exact Hl.
    rewrite ESCAPE_sub_cons_ne by discriminate.
    rewrite IH, map_app. cbn [map]. now rewrite <- app_assoc.
Qed.

Lemma encode_ascii_bytes bs :
  Forall (fun c => (Byte.to_N c < 128)%N) bs ->
  encode_ascii (map byte_to_N bs) = Some bs.
Proof.
  induction 1 as [| c bs Hc _ IH]; [reflexivity |].
  cbn [map encode_ascii]. unfold byte_to_N at 1 2.
  destruct (N.ltb_spec (Byte.to_N c) 128); [| lia].
  now rewrite Byte.of_to_N, IH.
Qed.

Lemma plain_label_dot_free l : plain_label l -> dot_free l.
Proof.
  intros (_ & _ & H). unfold dot_free.
  eapply Forall_impl; [exact H |]. intros c (_ & Hc & _).
  unfold is_dot. destruct (Byte.eqb c dot) eqn:E; [| reflexivity].
  apply Byte.byte_dec_bl in E. contradiction.
Qed.

Lemma plain_labels_join ls :
  Forall plain_label ls ->
  Forall (fun c => (Byte.to_N c < 128)%N) (join_dot ls)
  /\ Forall (Forall (fun c => c <> x5c)) ls.
Proof.
  induction 1 as [| l rest (_ & _ & Hl) _ [IH1 IH2]]; [split; constructor |].
  split.
  - destruct rest as [| l2 rest'].
    + eapply Forall_impl; [exact Hl | now intros c (H & _)].
    + change (join_dot (l :: l2 :: rest')) with (l ++ dot :: join_dot (l2 :: rest')).
      apply Forall_app. split.
      * eapply Forall_impl; [exact Hl | now intros c (H & _)].
      * constructor; [reflexivity | exact IH1].
  - constructor; [| exact IH2].
    eapply Forall_impl; [exact Hl | now intros c (_ & _ & H)].
Qed.

Section TextRoundTrip.
Context `{idna : Idna}.

(** X16: a name whose labels are not empty, at most 63 bytes long, ASCII
    and without a dot or a backslash is read back from its text form:
    [DNSLabel(str(name))] has the labels of [name], bytes below 33 and the
    byte 127 going through the [\NNN] escapes. *)
Theorem DNSLabel_str_roundtrip (name : DNSLabel) :
  Forall plain_label (label name) ->
  DNSLabel_init (of_str (DNSLabel_str name)) = Ok name.
Proof.
  destruct name as [ls]. cbn [label]. intros Hplain.
  destruct ls as [| l0 rest] eqn:Els; [reflexivity |]. rewrite <- Els in *.
  assert (Hne : ls <> []) by (rewrite Els; discriminate).
  destruct (plain_labels_join ls Hplain) as [Hascii Hback].
  assert (Hfree : Forall dot_free ls)
    by (eapply Forall_impl; [exact Hplain | exact plain_label_dot_free]).
  assert (Hends : exists l c, last ls = Some l /\ last l = Some c).
  { destruct (last ls) as [l |] eqn:El; [| apply last_None in El; contradiction].
    assert (Hl : plain_label l).
    { rewrite Forall_forall in Hplain. apply Hplain.
      apply last_Some in El. destruct El as [l' ->].
      apply elem_of_app. right. now left. }
    destruct Hl as (Hl & _ & _).
    destruct (last l) as [c |] eqn:Ec; [eauto |].
    apply last_None in Ec. contradiction. }
  destruct Hends as (l & c & Hl & Hc).
  assert (Hlplain : plain_label l).
  { rewrite Forall_forall in Hplain. apply Hplain.
    apply last_Some in Hl. destruct Hl as [l' ->].
    apply elem_of_app. right. now left. }
  assert (Hcdot : is_dot c = false)
    by exact (last_dot_free l c (plain_label_dot_free l Hlplain) Hc).
  assert (Hlast : last (join_dot ls) = Some c).
  { rewrite (last_join_dot ls l Hl); [exact Hc |]. now destruct Hlplain. }
  assert (Hsub : ESCAPE_sub (DNSLabel_str (mkDNSLabel ls)) =
                 map byte_to_N (join_dot ls ++ [dot])).
  { unfold DNSLabel_str. cbn [label].
    rewrite ESCAPE_sub_join by exact Hback. now rewrite map_app. }
  assert (Htext : exists t0 t1 t2, DNSLabel_str (mkDNSLabel ls) = t0 :: t1 :: t2).
  { unfold DNSLabel_str. cbn [label].
    assert (HJ : join_str (map DNSLabel_decode ls) <> []).
    { rewrite Els in Hplain |- *.
      apply Forall_cons in Hplain as [(Hl0 & _ & _) _].
      assert (Hd : DNSLabel_decode l0 <> []).
      { rewrite DNSLabel_decode_bytes. destruct l0 as [| c0 l0']; [congruence |].
        cbn [map concat]. unfold decode_byte at 1, escape_byte.
        destruct (in_LDH c0); discriminate. }
      cbn [map]. destruct (map DNSLabel_decode rest); cbn [join_str];
        [exact Hd | destruct (DNSLabel_decode l0); [contradiction | discriminate]]. }
    destruct (join_str (map DNSLabel_decode ls)) as [| j0 J']; [contradiction |].
    cbn [app]. destruct J'; cbn [app]; eauto. }
  destruct Htext as (t0 & t1 & t2 & Htext).
  cbn [DNSLabel_init]. rewrite Htext.
  rewrite (bool_decide_eq_false_2 (t0 :: t1 :: t2 = [])) by discriminate.
  rewrite (bool_decide_eq_false_2 (t0 :: t1 :: t2 = [46%N])) by discriminate.
  cbn [orb]. rewrite <- Htext, Hsub.
  assert (Henc : encode_ascii (map byte_to_N (join_dot ls ++ [dot])) =
                 Some (join_dot ls ++ [dot])).
  { apply encode_ascii_bytes. apply Forall_app. split; [exact Hascii |].
    constructor; [reflexivity | constructor]. }
  unfold encode_idna. rewrite Henc.
  destruct (map byte_to_N (join_dot ls ++ [dot])) as [| m0 m1] eqn:Em.
  { apply map_eq_nil in Em. now apply app_eq_nil in Em as [_ Em]. }
  rewrite split_dot_snoc, split_join by assumption.
  rewrite removelast_last, List.last_last.
  assert (Hcheck : forallb (fun lb : bytes => (0 <? len lb) && (len lb <? 64)) ls = true).
  { apply forallb_forall. intros lb Hin.
    rewrite Forall_forall in Hplain.
    destruct (Hplain lb (proj2 (list_elem_of_In _ _) Hin)) as (H1 & H2 & _).
    assert (0 < len lb)
      by (destruct lb; [congruence | rewrite len_cons; pose proof (len_nonneg lb); lia]).
    destruct (Z.ltb_spec 0 (len lb)); [| lia].
    destruct (Z.ltb_spec (len lb) 64); [reflexivity | lia]. }
  rewrite Hcheck. cbn [andb negb bind].
  change (64 <=? len (@nil byte)) with false. cbn [negb bind].
  rewrite rstrip_dot_snoc, (rstrip_dot_id _ c Hlast Hcdot), split_join by assumption.
  reflexivity.
Qed.

End TextRoundTrip.

Lemma DNSLabel_str_roundtrip_witness :
  @DNSLabel_init ascii_only (of_str (DNSLabel_str (mkDNSLabel [[x61; x20; x7f]; [x63]])))
    = Ok (mkDNSLabel [[x61; x20; x7f]; [x63]]).
Proof.
  apply (@DNSLabel_str_roundtrip ascii_only (mkDNSLabel [[x61; x20; x7f]; [x63]])).
  repeat constructor; try discriminate; vm_compute; try reflexivity; discriminate.
Defined.

(** ** What [decode_name] does to the buffer *)

Lemma get_inv n st l st1 :
  get n st = Ok (l, st1) ->
  0 <= n /\ 0 <= offset st /\ offset st + n <= len (data st)
  /\ st1 = set_offset (offset st + n) st
  /\ l = take (Z.to_nat n) (drop (Z.to_nat (offset st)) (data st))
  /\ len l = n.
Proof.
  unfold get, remaining. intros H.
  destruct (Z.ltb_spec n 0); [discriminate |].
  destruct (Z.ltb_spec (offset st) 0); [discriminate |].
  destruct (Z.ltb_spec (len (data st) - offset st) n); [discriminate |].
  cbn [orb] in H. injection H as <- <-.
  repeat split; try lia.
  unfold len in *. rewrite length_take, length_drop. lia.
Qed.

Lemma unpack_one_B_inv st v st1 :
  unpack_one fmt_B st = Ok (v, st1) ->
  0 <= offset st
  /\ exists b, data st !! Z.to_nat (offset st) = Some b
               /\ v = byte_to_Z b /\ st1 = set_offset (offset st + 1) st.
Proof.
  intros H. pose proof H as H0. unfold unpack_one in H0.
  destruct (get (Z.of_nat (calcsize fmt_B)) st) as [[bs st'] | e |] eqn:E;
    try discriminate.
  clear H0. apply get_inv in E. change (Z.of_nat (calcsize fmt_B)) with 1 in E.
  destruct E as (_ & Hpos & Hend & _ & _ & _).
  split; [exact Hpos |].
  destruct (lookup_lt_is_Some_2 (data st) (Z.to_nat (offset st))) as [b Hb].
  { unfold len in Hend. lia. }
  exists b. split; [exact Hb |].
  rewrite (unpack_one_B st b Hpos Hb) in H. now injection H as <- <-.
Qed.

Lemma unpack_one_H_inv st v st1 :
  unpack_one fmt_H st = Ok (v, st1) ->
  0 <= offset st /\ offset st + 2 <= len (data st)
  /\ st1 = set_offset (offset st + 2) st.
Proof.
  intros H. unfold unpack_one in H.
  destruct (get (Z.of_nat (calcsize fmt_H)) st) as [[bs st'] | e |] eqn:E;
    try discriminate.
  apply get_inv in E. change (Z.of_nat (calcsize fmt_H)) with 2 in E.
  destruct E as (_ & Hpos & Hend & -> & _ & _).
  cbn [bind] in H. now injection H as _ <-.
Qed.

Lemma decode_name_loop_effect fuel :
  forall last label st r st',
    decode_name_loop fuel last label st = Ok (r, st') ->
    data st' = data st /\ names st' = names st
    /\ 0 <= offset st < offset st' /\ offset st' <= len (data st)
    /\ exists new, r = label ++ new /\ Forall new_label new.
Proof.
  induction fuel as [| fuel IH]; intros last label st r st' Hrun; [discriminate |].
  rewrite decode_name_loop_S in Hrun.
  destruct (unpack_one fmt_B st) as [[length st1] | e |] eqn:E1; try discriminate.
  apply unpack_one_B_inv in E1 as (Hpos & b & Hb & -> & ->).
  pose proof (lookup_lt_len _ _ _ Hb) as Hlt.
  pose proof (byte_to_Z_range b) as Hbr.
  rewrite Z2Nat.id in Hlt by lia.
  cbn [bind] in Hrun.
  destruct (Bit.get_bits (byte_to_Z b) 6 2 =? 3) eqn:Ebits.
  - cbv zeta in Hrun. rewrite set_offset_set_offset, set_offset_offset in Hrun.
    replace (offset st + 1 - 1) with (offset st) in Hrun by lia.
    destruct (unpack_one fmt_H (set_offset (offset st) st)) as [[h st2] | e |] eqn:E2;
      try discriminate.
    apply unpack_one_H_inv in E2 as (_ & Hend & ->).
    rewrite set_offset_offset, set_offset_data in Hend.
    cbn [bind] in Hrun.
    rewrite !set_offset_set_offset, !set_offset_offset in Hrun.
    destruct (last =? offset st + 2); [discriminate |].
    destruct (Bit.get_bits h 0 14 <? offset st + 2); [| discriminate].
    destruct (decode_name_loop fuel (offset st + 2) [] (set_offset (Bit.get_bits h 0 14) st))
      as [[sub st3] | e |] eqn:E3; try discriminate.
    cbn [bind] in Hrun. injection Hrun as <- <-.
    apply IH in E3 as (Hd & Hn & _ & _ & new & -> & Hnew).
    rewrite set_offset_data in Hd. cbn [names set_offset] in Hn.
    repeat split; try assumption; cbn [offset set_offset]; try lia.
    exists new. split; [reflexivity | exact Hnew].
  - destruct (Z.gtb_spec (byte_to_Z b) 0) as [Hgt | Hle].
    + destruct (get (byte_to_Z b) (set_offset (offset st + 1) st))
        as [[l st2] | e |] eqn:E2; try discriminate.
      apply get_inv in E2 as (_ & _ & Hend & -> & _ & Hlen).
      rewrite set_offset_offset, set_offset_data in Hend.
      cbn [bind] in Hrun. rewrite set_offset_set_offset, set_offset_offset in Hrun.
      destruct (utf8_decodable l) eqn:Eutf; [| discriminate].
      apply IH in Hrun as (Hd & Hn & Ho & Hend' & new & -> & Hnew).
      cbn [data names offset set_offset] in Hd, Hn, Ho, Hend'.
      repeat split; try assumption; try lia.
      exists (l :: new). split; [now rewrite <- app_assoc |].
      constructor; [| exact Hnew]. split; [| exact Eutf].
      rewrite Hlen. split; [lia |].
      rewrite get_bits_high2 in Ebits.
      destruct (Z.eqb_spec (byte_to_Z b / 64) 3) as [| Hne]; [discriminate |].
      assert (byte_to_Z b / 64 < 3).
      { assert (byte_to_Z b / 64 <= 3)
          by (apply Z.lt_succ_r, Z.div_lt_upper_bound; lia). lia. }
      assert (byte_to_Z b < 64 * 3); [| lia].
      destruct (Z.lt_ge_cases (byte_to_Z b) (64 * 3)) as [|Hge]; [assumption |].
      apply (Z.div_le_lower_bound _ 64 3) in Hge; lia.
    + injection Hrun as <- <-.
      repeat split; cbn [data names offset set_offset]; try lia.
      exists []. split; [now rewrite app_nil_r | constructor].
Qed.

Lemma pointer_byte (b : byte) :
  (Bit.get_bits (byte_to_Z b) 6 2 =? 3) = (192 <=? byte_to_Z b).
Proof.
  rewrite get_bits_high2. pose proof (byte_to_Z_range b) as Hr.
  destruct (Z.leb_spec 192 (byte_to_Z b)) as [H | H].
  - apply Z.eqb_eq. symmetry.
    apply (Z.div_unique _ 64 3 (byte_to_Z b - 192)); lia.
  - apply Z.eqb_neq. intros E.
    assert (byte_to_Z b / 64 < 3) by (apply Z.div_lt_upper_bound; lia). lia.
Qed.

(** The cursor after the loop is the end of the name read at the cursor:
    what is read at the target of a pointer does not count. *)
Lemma decode_name_loop_cursor fuel :
  forall last label st r st',
    decode_name_loop fuel last label st = Ok (r, st') ->
    name_end fuel (data st) (offset st) = Some (offset st').
Proof.
  induction fuel as [| fuel IH]; intros last label st r st' Hrun; [discriminate |].
  rewrite decode_name_loop_S in Hrun.
  destruct (unpack_one fmt_B st) as [[length st1] | e |] eqn:E1; try discriminate.
  apply unpack_one_B_inv in E1 as (Hpos & b & Hb & -> & ->).
  pose proof (byte_to_Z_range b) as Hbr.
  cbn [bind] in Hrun. cbn [name_end]. rewrite Hb.
  rewrite pointer_byte in Hrun.
  destruct (192 <=? byte_to_Z b) eqn:Eptr.
  - cbv zeta in Hrun. rewrite set_offset_set_offset, set_offset_offset in Hrun.
    replace (offset st + 1 - 1) with (offset st) in Hrun by lia.
    destruct (unpack_one fmt_H (set_offset (offset st) st)) as [[h st2] | e |] eqn:E2;
      try discriminate.
    apply unpack_one_H_inv in E2 as (_ & _ & ->).
    cbn [bind] in Hrun.
    rewrite !set_offset_set_offset, !set_offset_offset in Hrun.
    destruct (last =? offset st + 2); [discriminate |].
    destruct (Bit.get_bits h 0 14 <? offset st + 2); [| discriminate].
    destruct (decode_name_loop fuel (offset st + 2) [] (set_offset (Bit.get_bits h 0 14) st))
      as [[sub st3] | e |] eqn:E3; try discriminate.
    cbn [bind] in Hrun. injection Hrun as _ <-.
    now rewrite set_offset_offset.
  - destruct (Z.gtb_spec (byte_to_Z b) 0) as [Hgt | Hle].
    + destruct (Z.eqb_spec (byte_to_Z b) 0) as [| _]; [lia |].
      destruct (get (byte_to_Z b) (set_offset (offset st + 1) st))
        as [[l st2] | e |] eqn:E2; try discriminate.
      apply get_inv in E2 as (_ & _ & _ & -> & _ & _).
      cbn [bind] in Hrun. rewrite set_offset_set_offset, set_offset_offset in Hrun.
      destruct (utf8_decodable l); [| discriminate].
      apply IH in Hrun. now rewrite set_offset_data, set_offset_offset in Hrun.
    + destruct (Z.eqb_spec (byte_to_Z b) 0) as [_ | Hne]; [| lia].
      injection Hrun as _ <-. now rewrite set_offset_offset.
Qed.

(** X17: a successful [decode_name] leaves the data and the compression
    table of the buffer as they were, and moves the cursor forward by at
    least one byte without leaving the buffer. The new cursor is the end
    of the name that starts at the old one, where a pointer ends the name:
    when the byte at the cursor starts a pointer, the cursor is restored to
    the byte after the two bytes of the pointer, whatever was read at its
    target. *)
Theorem decode_name_moves_cursor fuel last st name st' :
  decode_name fuel last st = Ok (name, st') ->
  data st' = data st /\ names st' = names st
  /\ 0 <= offset st < offset st' /\ offset st' <= len (data st)
  /\ name_end fuel (data st) (offset st) = Some (offset st')
  /\ (forall b, data st !! Z.to_nat (offset st) = Some b ->
                192 <= byte_to_Z b -> offset st' = offset st + 2).
Proof.
  unfold decode_name. intros H.
  destruct (decode_name_loop fuel last [] st) as [[r st1] | e |] eqn:E;
    try discriminate.
  cbn [bind] in H. injection H as _ <-.
  pose proof (decode_name_loop_cursor _ _ _ _ _ _ E) as Hend.
  apply decode_name_loop_effect in E as (Hd & Hn & Ho & Hlen & _).
  repeat (split; [assumption |]).
  intros b Hb Hptr. destruct fuel as [| fuel]; [discriminate |].
  cbn [name_end] in Hend. rewrite Hb in Hend.
  destruct (Z.leb_spec 192 (byte_to_Z b)); [| lia].
  now injection Hend as <-.
Qed.

(** X18: every label of a name returned by [decode_name] is UTF-8-decodable
    and has between 1 and 191 bytes: no empty label is ever returned, and
    a label can be longer than the 63 bytes that [encode_name] accepts. *)
Theorem decode_name_labels fuel last st name st' :
  decode_name fuel last st = Ok (name, st') ->
  Forall new_label (label name).
Proof.
  unfold decode_name. intros H.
  destruct (decode_name_loop fuel last [] st) as [[r st1] | e |] eqn:E;
    try discriminate.
  cbn [bind] in H. injection H as <- _.
  apply decode_name_loop_effect in E as (_ & _ & _ & _ & new & -> & Hnew).
  exact Hnew.
Qed.

Lemma decode_name_moves_cursor_witness :
  let st := set_offset 3 (DNSBuffer_init pointer_buffer) in
  data (set_offset 5 st) = data st /\ names (set_offset 5 st) = names st
  /\ 0 <= offset st < offset (set_offset 5 st)
  /\ offset (set_offset 5 st) <= len (data st)
  /\ name_end 3 (data st) (offset st) = Some (offset (set_offset 5 st))
  /\ (forall b, data st !! Z.to_nat (offset st) = Some b ->
                192 <= byte_to_Z b -> offset (set_offset 5 st) = offset st + 2).
Proof.
  intros st.
  exact (decode_name_moves_cursor 3 (-1) st (mkDNSLabel [[x61]]) (set_offset 5 st) eq_refl).
Defined.

Lemma decode_name_labels_witness :
  Forall new_label (label (mkDNSLabel [repeat x61 64])).
Proof.
  exact (decode_name_labels 2 (-1) (DNSBuffer_init long_label_buffer)
           (mkDNSLabel [repeat x61 64])
           (set_offset 66 (DNSBuffer_init long_label_buffer)) eq_refl).
Defined.

(** ** Termination of [decode_name] without pointers *)

Lemma get_not_OutOfFuel n st : get n st <> OutOfFuel.
Proof. unfold get. destruct (_ || _); discriminate. Qed.

Lemma unpack_one_not_OutOfFuel f st : unpack_one f st <> OutOfFuel.
Proof.
  unfold unpack_one. pose proof (get_not_OutOfFuel (Z.of_nat (calcsize f)) st).
  destruct (get _ st) as [[bs st1] | e |]; [discriminate | discriminate | contradiction].
Qed.

Lemma decode_name_loop_pointer_free fuel :
  forall last label st,
    pointer_free (data st) ->
    (Z.to_nat (len (data st) - offset st) < fuel)%nat ->
    decode_name_loop fuel last label st <> OutOfFuel.
Proof.
  induction fuel as [| fuel IH]; intros last label st Hfree Hfuel; [lia |].
  rewrite decode_name_loop_S.
  pose proof (unpack_one_not_OutOfFuel fmt_B st) as Hu.
  destruct (unpack_one fmt_B st) as [[v st1] | e |] eqn:E1;
    [| discriminate | contradiction].
  apply unpack_one_B_inv in E1 as (Hpos & b & Hb & -> & ->).
  cbn [bind].
  assert (Hlow : byte_to_Z b < 192).
  { unfold pointer_free in Hfree. rewrite Forall_forall in Hfree.
    apply Hfree. now apply list_elem_of_lookup_2 in Hb. }
  pose proof (byte_to_Z_range b) as Hbr.
  rewrite get_bits_high2.
  assert (Hq : byte_to_Z b / 64 < 3) by (apply Z.div_lt_upper_bound; lia).
  destruct (Z.eqb_spec (byte_to_Z b / 64) 3); [lia |].
  destruct (Z.gtb_spec (byte_to_Z b) 0); [| discriminate].
  pose proof (get_not_OutOfFuel (byte_to_Z b) (set_offset (offset st + 1) st)) as Hg.
  destruct (get (byte_to_Z b) (set_offset (offset st + 1) st))
    as [[l st2] | e |] eqn:E2; [| discriminate | contradiction].
  apply get_inv in E2 as (_ & _ & _ & -> & _ & _).
  cbn [bind]. destruct (utf8_decodable l); [| discriminate].
  apply IH; [exact Hfree |].
  pose proof (lookup_lt_len _ _ _ Hb) as Hlt.
  cbn [data offset set_offset]. lia.
Qed.

(** X19: on a buffer without any byte of 192 or more (no byte can start a
    compression pointer) [decode_name] always returns: with fuel above the
    length of the data it gives a name or raises, from every cursor and for
    every [last]. *)
Theorem decode_name_terminates_pointer_free fuel last st :
  pointer_free (data st) ->
  (length (data st) < fuel)%nat ->
  decode_name fuel last st <> OutOfFuel.
Proof.
  intros Hfree Hfuel. unfold decode_name.
  assert (Hloop : decode_name_loop fuel last [] st <> OutOfFuel).
  { destruct (Z.ltb_spec (offset st) 0) as [Hneg | Hpos].
    - destruct fuel as [| fuel]; [lia |]. rewrite decode_name_loop_S.
      unfold unpack_one, get.
      destruct (Z.ltb_spec (offset st) 0); [| lia].
      rewrite orb_true_r. discriminate.
    - apply decode_name_loop_pointer_free; [exact Hfree |].
      unfold len. lia. }
  destruct (decode_name_loop fuel last [] st) as [[r st1] | e |];
    [discriminate | discriminate | contradiction].
Qed.

Lemma decode_name_terminates_pointer_free_witness :
  decode_name 4 (-1) (DNSBuffer_init [x02; x61; x62]) <> OutOfFuel.
Proof.
  apply (decode_name_terminates_pointer_free 4 (-1) (DNSBuffer_init [x02; x61; x62])).
  - repeat constructor.
  - cbn. lia.
Defined.

(** ** Compression: what [encode_name] writes is read back by
       [decode_name] *)

Lemma decodes_app d e off k : decodes d off k -> decodes (d ++ e) off k.
Proof.
  intros (Hpos & n & Hn). split; [exact Hpos |]. exists n.
  intros fuel extra last acc nm Hfuel Hlast.
  rewrite len_app in Hlast. pose proof (len_nonneg e) as He.
  destruct (Hn fuel (e ++ extra) last acc nm Hfuel ltac:(lia)) as (off' & Hoff & Hrun).
  exists off'. rewrite len_app, <- app_assoc. split; [lia | exact Hrun].
Qed.

Lemma decodes_nil d off :
  0 <= off -> off = len d -> decodes (d ++ [x00]) off [].
Proof.
  intros Hpos Hoff. split; [exact Hpos |]. exists 1%nat.
  intros fuel extra last acc nm Hfuel _.
  destruct fuel as [| fuel]; [lia |].
  exists (off + 1). rewrite len_app. change (len [x00]) with 1.
  split; [lia |].
  rewrite decode_name_loop_zero; cbn [offset data].
  - now rewrite app_nil_r.
  - exact Hpos.
  - rewrite <- app_assoc. apply (lookup_at (mkDNSBuffer _ off nm) d x00 extra);
      cbn [data offset]; [reflexivity | exact Hoff].
Qed.

Lemma decodes_cons d l e k :
  valid_label l ->
  decodes ((d ++ byte_of_Z (len l) :: l) ++ e) (len d + 1 + len l) k ->
  decodes ((d ++ byte_of_Z (len l) :: l) ++ e) (len d) (l :: k).
Proof.
  intros [Hlen Hutf] (Hpos & n & Hn).
  pose proof (len_nonneg d) as Hd.
  split; [exact Hd |]. exists (S n).
  intros fuel extra last acc nm Hfuel Hlast.
  destruct fuel as [| fuel]; [lia |].
  destruct (Hn fuel extra last (acc ++ [l]) nm ltac:(lia) Hlast) as (off' & Hoff & Hrun).
  exists off'. split; [lia |].
  set (b := byte_of_Z (len l)) in *.
  assert (Hb : byte_to_Z b = len l).
  { unfold b. rewrite byte_to_of_Z. apply Z.mod_small. lia. }
  set (full := ((d ++ b :: l) ++ e) ++ extra) in *.
  assert (Hfull : full = d ++ b :: l ++ e ++ extra).
  { unfold full. rewrite <- !app_assoc. reflexivity. }
  rewrite (decode_name_loop_label fuel last acc (mkDNSBuffer full (len d) nm) b).
  - cbn [offset]. rewrite Hb.
    rewrite (get_at (set_offset (len d + 1) (mkDNSBuffer full (len d) nm))
               (d ++ [b]) l (e ++ extra)).
    + cbn [bind]. rewrite Hutf. unfold set_offset. cbn [data names offset].
      rewrite len_app, len_cons. change (len (@nil byte)) with 0.
      replace (len d + (1 + 0) + len l) with (len d + 1 + len l) by lia.
      rewrite Hrun. now rewrite <- app_assoc.
    + cbn [set_offset data]. rewrite Hfull, <- !app_assoc. reflexivity.
    + cbn [set_offset offset]. rewrite len_app, len_cons.
      change (len (@nil byte)) with 0. lia.
  - cbn [offset]. lia.
  - apply (lookup_at _ d b (l ++ e ++ extra)); [exact Hfull | reflexivity].
  - lia.
Qed.

Lemma be_encode_2 v : be_encode 2 v = [byte_of_Z (v / 256); byte_of_Z v].
Proof. reflexivity. Qed.

Lemma decodes_pointer d ptr k :
  ptr < 16384 -> decodes d ptr k ->
  decodes (d ++ be_encode 2 (Bit.set_bits ptr 3 14 2)) (len d) k.
Proof.
  intros Hsmall (Hpos & n & Hn).
  pose proof (len_nonneg d) as Hd.
  split; [exact Hd |]. exists (S n).
  intros fuel extra last acc nm Hfuel Hlast.
  destruct fuel as [| fuel]; [lia |].
  rewrite PointerFacts.set_bits_pointer, Z.mod_small in * by lia.
  set (v := 49152 + ptr) in *.
  rewrite be_encode_2 in *. rewrite len_app in *.
  change (len [byte_of_Z (v / 256); byte_of_Z v]) with 2 in *.
  exists (len d + 2). split; [lia |].
  assert (Hhi : byte_to_Z (byte_of_Z (v / 256)) = v / 256).
  { rewrite byte_to_of_Z. apply Z.mod_small.
    split; [apply Z.div_pos; lia | apply Z.div_lt_upper_bound; lia]. }
  assert (Hhi192 : 192 <= v / 256) by (apply Z.div_le_lower_bound; lia).
  assert (Hval : byte_to_Z (byte_of_Z (v / 256)) * 256 + byte_to_Z (byte_of_Z v) = v).
  { rewrite Hhi, byte_to_of_Z. pose proof (Z.div_mod v 256 ltac:(lia)). lia. }
  set (full := (d ++ [byte_of_Z (v / 256); byte_of_Z v]) ++ extra).
  assert (Hfull : full = d ++ byte_of_Z (v / 256) :: byte_of_Z v :: extra).
  { unfold full. rewrite <- app_assoc. reflexivity. }
  rewrite (decode_name_loop_pointer fuel last acc (mkDNSBuffer full (len d) nm)
             (byte_of_Z (v / 256)) (byte_of_Z v)).
  - rewrite Hval. cbn [offset]. cbv zeta.
    assert (Hptr : Bit.get_bits v 0 14 = ptr).
    { rewrite BitFacts.get_bits_div_mod by lia.
      change (2 ^ 0) with 1. rewrite Z.div_1_r. change (2 ^ 14) with 16384.
      unfold v. replace (49152 + ptr) with (ptr + 3 * 16384) by lia.
      rewrite Z_mod_plus_full. apply Z.mod_small. lia. }
    rewrite Hptr.
    destruct (Z.eqb_spec last (len d + 2)); [lia |].
    destruct (Hn fuel ([byte_of_Z (v / 256); byte_of_Z v] ++ extra) (len d + 2) [] nm
                ltac:(lia) ltac:(lia)) as (off' & Hoff & Hrun).
    destruct (Z.ltb_spec ptr (len d + 2)); [| lia].
    unfold set_offset. cbn [data names offset].
    unfold full. rewrite <- app_assoc, Hrun. cbn [bind app]. reflexivity.
  - cbn [offset]. lia.
  - apply (lookup_at _ d _ (byte_of_Z v :: extra)); [exact Hfull | reflexivity].
  - cbn [offset data]. rewrite Hfull.
    replace (Z.to_nat (len d + 1)) with (length (d ++ [byte_of_Z (v / 256)]))
      by (rewrite length_app; unfold len; cbn [length]; lia).
    change (d ++ byte_of_Z (v / 256) :: byte_of_Z v :: extra)
      with (d ++ [byte_of_Z (v / 256)] ++ byte_of_Z v :: extra).
    rewrite app_assoc. apply list_lookup_middle. reflexivity.
  - lia.
Qed.

Lemma len_wire_pos ls : 1 <= len (wire ls).
Proof.
  unfold wire. rewrite len_app. change (len [x00]) with 1.
  pose proof (len_nonneg (concat (map (fun l => byte_of_Z (len l) :: l) ls))). lia.
Qed.

Lemma encode_name_loop_decodes ls :
  Forall valid_label ls ->
  forall st,
    offset st = len (data st) ->
    len (data st) + len (wire ls) <= 16384 ->
    (forall k off, names st !! k = Some off ->
       (off < 16384 /\ decodes (data st) off k) \/ (length ls < length k)%nat) ->
    exists st' e,
      encode_name_loop ls st = Ok st'
      /\ data st' = data st ++ e /\ len e <= len (wire ls)
      /\ offset st' = len (data st')
      /\ decodes (data st') (offset st) ls
      /\ (forall k off, names st' !! k = Some off ->
            names st !! k = Some off \/ (off < 16384 /\ decodes (data st') off k)).
Proof.
  induction 1 as [| l ls Hl _ IH]; intros st Hend Hroom Htab;
    pose proof (len_nonneg (data st)) as Hd.
  - exists (append [x00] st), [x00].
    unfold append. rewrite (write_at_end _ st Hend), write_offset, len_app, Hend.
    split; [reflexivity |]. split; [reflexivity |]. split; [reflexivity |].
    split; [reflexivity |]. split.
    + now apply decodes_nil.
    + intros k off Hk. left. exact Hk.
  - pose proof Hl as [Hlen Hutf].
    pose proof (len_wire_pos ls) as Hw.
    rewrite wire_cons, len_app, len_cons in Hroom |- *.
    cbn [encode_name_loop].
    destruct (names st !! (l :: ls)) as [ptr |] eqn:Elook.
    + destruct (Htab _ _ Elook) as [[Hsmall Hdec] | Hlong]; [| lia].
      pose proof Hdec as [Hptr _].
      assert (Hv : 49152 <= Bit.set_bits ptr 3 14 2 < 65536).
      { rewrite PointerFacts.set_bits_pointer, Z.mod_small; lia. }
      unfold pack. change (2 ^ (8 * Z.of_nat (calcsize fmt_H))) with 65536.
      destruct (Z.ltb_spec (Bit.set_bits ptr 3 14 2) 0); [lia |].
      destruct (Z.leb_spec 65536 (Bit.set_bits ptr 3 14 2)); [lia |].
      cbn [orb].
      exists (write (be_encode 2 (Bit.set_bits ptr 3 14 2)) st),
        (be_encode 2 (Bit.set_bits ptr 3 14 2)).
      rewrite (write_at_end _ st Hend), write_offset, len_app, Hend.
      split; [reflexivity |]. split; [reflexivity |]. split.
      { rewrite be_encode_2, !len_cons. change (len (@nil byte)) with 0. lia. }
      split; [reflexivity |]. split.
      * now apply decodes_pointer.
      * intros k off Hk. left. exact Hk.
    + destruct (Z.gtb_spec (len l) 63); [lia |].
      rewrite append_with_length_B by lia. cbn [bind].
      set (st0 := set_name (l :: ls) (offset st) st).
      assert (Hok0 : cursor_ok st0) by (unfold cursor_ok; cbn [st0 set_name data offset]; lia).
      rewrite write_write by exact Hok0.
      set (b := byte_of_Z (len l)).
      set (st1 := write ([b] ++ l) st0).
      assert (Hd1 : data st1 = data st ++ b :: l)
        by (unfold st1; now rewrite (write_at_end _ st0 Hend)).
      assert (Ho1 : offset st1 = len (data st) + 1 + len l).
      { unfold st1. rewrite write_offset. cbn [st0 set_name offset app].
        rewrite len_cons, Hend. lia. }
      destruct (IH st1) as (st' & e' & Hrun & Hd' & He' & Ho' & Hdec & Htab').
      * rewrite Ho1, Hd1, len_app, len_cons. lia.
      * rewrite Hd1, len_app, len_cons. lia.
      * intros k off Hk. unfold st1 in Hk. rewrite write_names in Hk.
        cbn [st0 set_name names] in Hk.
        destruct (decide (l :: ls = k)) as [<- | Hne]; [right; cbn [length]; lia |].
        rewrite lookup_insert_ne in Hk by exact Hne.
        destruct (Htab _ _ Hk) as [[Hs Hdk] | Hlong].
        -- left. split; [exact Hs |]. rewrite Hd1. now apply decodes_app.
        -- right. cbn [length] in Hlong. lia.
      * assert (Hdl : decodes (data st') (len (data st)) (l :: ls)).
        { rewrite Hd', Hd1. apply decodes_cons; [exact Hl |].
          rewrite <- Ho1. rewrite Hd', Hd1 in Hdec. exact Hdec. }
        exists st', ((b :: l) ++ e').
        split; [exact Hrun |].
        split; [rewrite Hd', Hd1, <- app_assoc; reflexivity |].
        split; [rewrite len_app, len_cons; lia |].
        split; [exact Ho' |].
        split; [rewrite Hend; exact Hdl |].
        intros k off Hk. destruct (Htab' _ _ Hk) as [Hk1 | Hnew]; [| right; exact Hnew].
        unfold st1 in Hk1. rewrite write_names in Hk1.
        cbn [st0 set_name names] in Hk1.
        destruct (decide (l :: ls = k)) as [<- | Hne].
        -- rewrite lookup_insert_eq in Hk1. injection Hk1 as <-.
           right. rewrite Hend. split; [lia | exact Hdl].
        -- rewrite lookup_insert_ne in Hk1 by exact Hne. left. exact Hk1.
Qed.

Lemma append_with_length_names f bs st st' :
  append_with_length f bs st = Ok st' -> names st' = names st.
Proof.
  unfold append_with_length, pack. destruct (_ <=? _); [discriminate |].
  destruct (_ || _); [discriminate |]. cbn [bind]. now intros [= <-].
Qed.

Lemma encode_name_loop_keeps ls :
  forall st st', encode_name_loop ls st = Ok st' ->
    forall k off, names st !! k = Some off -> names st' !! k = Some off.
Proof.
  induction ls as [| l ls IH]; intros st st' Hrun k off Hk.
  - cbn in Hrun. now injection Hrun as <-.
  - cbn [encode_name_loop] in Hrun.
    destruct (names st !! (l :: ls)) as [ptr |] eqn:Elook.
    + unfold pack in Hrun. destruct (_ || _); [discriminate |].
      now injection Hrun as <-.
    + destruct (len l >? 63); [discriminate |].
      destruct (append_with_length fmt_B l (set_name (l :: ls) (offset st) st))
        as [st1 | e |] eqn:E1; try discriminate.
      cbn [bind] in Hrun. apply (IH _ _ Hrun).
      rewrite (append_with_length_names _ _ _ _ E1). cbn [set_name names].
      rewrite lookup_insert_ne; [exact Hk | congruence].
Qed.

Section Compression.
Context `{idna : Idna}.

(** X20: compression is read back. On a buffer whose cursor is at its end
    and whose table entries are 14-bit offsets at which their keys can be
    decoded (the empty table of a fresh buffer, or the table left by earlier
    calls), [encode_name] of a name with valid labels that ends within the
    first 16384 bytes succeeds, appends at most the uncompressed form,
    leaves such a table again, and [decode_name] at the old cursor returns
    the name, whether it was written in full or ends in a pointer. *)
Theorem encode_name_compressed_roundtrip (x : DNSLabelCreateTypes)
  (name : DNSLabel) (st : DNSBuffer) :
  as_DNSLabel x = Ok name ->
  Forall valid_label (label name) ->
  DNSLabel_len name <= 253 ->
  offset st = len (data st) ->
  table_ok st ->
  len (data st) + len (wire (label name)) <= 16384 ->
  exists st',
    encode_name x st = Ok st'
    /\ offset st' = len (data st')
    /\ table_ok st'
    /\ (exists e, data st' = data st ++ e /\ len e <= len (wire (label name)))
    /\ exists n, forall fuel, (n <= fuel)%nat ->
         exists st'',
           decode_name fuel (-1) (set_offset (offset st) st') = Ok (name, st'').
Proof.
  intros Hname Hvalid Htotal Hend Htab Hroom.
  destruct (encode_name_loop_decodes _ Hvalid st Hend Hroom)
    as (st' & e & Hrun & Hd & He & Ho & Hdec & Htab').
  { intros k off Hk. left. now apply Htab. }
  exists st'. unfold encode_name. rewrite Hname. cbn [bind].
  destruct (Z.gtb_spec (DNSLabel_len name) 253); [lia |].
  split; [exact Hrun |]. split; [exact Ho |].
  split; [| split; [now exists e |]].
  - intros k off Hk. destruct (Htab' _ _ Hk) as [Hold | Hnew]; [| exact Hnew].
    destruct (Htab _ _ Hold) as [Hs Hdk]. split; [exact Hs |].
    rewrite Hd. now apply decodes_app.
  - destruct Hdec as (_ & n & Hn). exists n. intros fuel Hfuel.
    destruct (Hn fuel [] (-1) [] (names st') Hfuel ltac:(lia)) as (off' & _ & Hloop).
    rewrite app_nil_r in Hloop. unfold decode_name.
    replace (set_offset (offset st) st')
      with (mkDNSBuffer (data st') (offset st) (names st')) by now destruct st'.
    rewrite Hloop. cbn [bind app]. rewrite DNSLabel_eta. eauto.
Qed.

(** X21: [encode_name] never overwrites an entry of the compression
    table: an offset recorded for a suffix stays recorded for it, on every
    buffer and for every name that is encoded without error. *)
Theorem encode_name_keeps_entries (x : DNSLabelCreateTypes) (st st' : DNSBuffer) :
  encode_name x st = Ok st' ->
  forall k off, names st !! k = Some off -> names st' !! k = Some off.
Proof.
  unfold encode_name. intros Hrun.
  destruct (as_DNSLabel x) as [name | e |]; try discriminate.
  cbn [bind] in Hrun. destruct (DNSLabel_len name >? 253); [discriminate |].
  exact (encode_name_loop_keeps _ _ _ Hrun).
Qed.

End Compression.

Lemma encode_name_compressed_roundtrip_witness :
  exists st',
    @encode_name ascii_only (of_DNSLabel www_example_com) (DNSBuffer_init []) = Ok st'
    /\ offset st' = len (data st')
    /\ table_ok st'
    /\ (exists e, data st' = data (DNSBuffer_init []) ++ e
                  /\ len e <= len (wire (label www_example_com)))
    /\ exists n, forall fuel, (n <= fuel)%nat ->
         exists st'',
           decode_name fuel (-1) (set_offset (offset (DNSBuffer_init [])) st')
             = Ok (www_example_com, st'').
Proof.
  apply (@encode_name_compressed_roundtrip ascii_only (of_DNSLabel www_example_com)
           www_example_com (DNSBuffer_init [])).
  - reflexivity.
  - repeat constructor; vm_compute; discriminate.
  - vm_compute. discriminate.
  - reflexivity.
  - intros k off Hk. vm_compute in Hk. discriminate.
  - vm_compute. discriminate.
Defined.

Lemma encode_name_keeps_entries_witness :
  names (write [xc0; x00] buffer_with_a) !! [[x61]] = Some 0.
Proof.
  assert (Hrun : @encode_name ascii_only (of_bytes [x61; dot]) buffer_with_a =
                 Ok (write [xc0; x00] buffer_with_a)) by reflexivity.
  exact (@encode_name_keeps_entries ascii_only (of_bytes [x61; dot]) buffer_with_a
           (write [xc0; x00] buffer_with_a) Hrun [[x61]] 0 eq_refl).
Defined.

(** ** [hexdump] *)

Module HexdumpDoctests.
Import String.

Definition text (s : string) : str := map Byte.to_N (list_byte_of_string s).

(** [hexdump(b"abcd" * 4)]. *)
Example hexdump_doctest1 :
  hexdump 10 (List.concat (repeat [x61; x62; x63; x64] 4)) 16 [] =
    Ok (text "0000  61 62 63 64 61 62 63 64  61 62 63 64 61 62 63 64  abcdabcd abcdabcd").
Proof. vm_compute. reflexivity. Qed.

(** [hexdump(bytearray(range(48)))]; the character 34 of the third line is
    the double quote. *)
Example hexdump_doctest2 :
  hexdump 10 (map byte_of_Z (map Z.of_nat (seq 0 48))) 16 [] =
    Ok (text "0000  00 01 02 03 04 05 06 07  08 09 0a 0b 0c 0d 0e 0f  ........ ........"
        ++ 10%N ::
        text "0010  10 11 12 13 14 15 16 17  18 19 1a 1b 1c 1d 1e 1f  ........ ........"
        ++ 10%N ::
        text "0020  20 21 22 23 24 25 26 27  28 29 2a 2b 2c 2d 2e 2f   !"
        ++ 34%N :: text "#$%&' ()*+,-./")%list.
Proof. vm_compute. reflexivity. Qed.

End HexdumpDoctests.

Lemma slice_index_pos {A} (i : Z) (t : list A) :
  0 <= i -> slice_index i t = Z.to_nat (Z.min i (len t)).
Proof.
  intros Hi. unfold slice_index. destruct (Z.ltb_spec i 0); [lia | reflexivity].
Qed.

Lemma hexdump_loop_lines length left right prefix fuel :
  0 < length ->
  forall src n acc,
    (List.length src < fuel)%nat ->
    exists new,
      hexdump_loop fuel src length left right n prefix acc = Ok (acc ++ new)
      /\ len new = (len src + length - 1) / length.
Proof.
  intros Hlen. induction fuel as [| fuel IH]; intros src n acc Hfuel; [lia |].
  destruct src as [| c src'].
  - exists []. cbn [hexdump_loop]. rewrite app_nil_r. split; [reflexivity |].
    change (len (@nil byte)) with 0. change (len (@nil str)) with 0.
    symmetry. apply Z.div_small. lia.
  - cbn [hexdump_loop]. remember (c :: src') as src eqn:Esrc.
    assert (Hne : (0 < List.length src)%nat) by (rewrite Esrc; cbn; lia).
    set (rest := slice_from length src).
    assert (Hrest : len rest = len src - Z.min length (len src)).
    { unfold rest, slice_from. rewrite slice_index_pos by lia.
      unfold len. rewrite length_drop. lia. }
    destruct (IH rest (n + length)
                (acc ++ [hexdump_line (slice_to length src) length left right n prefix]))
      as (new & Hrun & Hcount).
    { unfold len in Hrest. lia. }
    exists (hexdump_line (slice_to length src) length left right n prefix :: new).
    split; [rewrite Hrun, <- app_assoc; reflexivity |].
    rewrite len_cons, Hcount, Hrest.
    unfold len in *.
    destruct (Z.le_gt_cases (Z.of_nat (List.length src)) length) as [Hle | Hgt].
    + rewrite Z.min_r by lia.
      replace (Z.of_nat (List.length src) - Z.of_nat (List.length src) + length - 1)
        with (length - 1) by lia.
      rewrite Z.div_small by lia.
      apply Z.div_unique with (r := Z.of_nat (List.length src) - 1); lia.
    + rewrite Z.min_l by lia.
      replace (Z.of_nat (List.length src) + length - 1)
        with (Z.of_nat (List.length src) - length + length - 1 + 1 * length) by lia.
      rewrite Z.div_add by lia. lia.
Qed.

(** X22: for a positive [length], [hexdump] returns on every input (fuel
    above the number of bytes is enough) and the dump has one line for every
    [length] bytes: [ceil(len(src) / length)] lines, none for the empty
    input. *)
Theorem hexdump_line_count fuel src length prefix :
  0 < length ->
  (List.length src < fuel)%nat ->
  exists lines,
    hexdump_lines fuel src length prefix = Ok lines
    /\ hexdump fuel src length prefix = Ok (join_sep 10 lines)
    /\ len lines = (len src + length - 1) / length.
Proof.
  intros Hlen Hfuel. unfold hexdump, hexdump_lines. cbv zeta.
  destruct (hexdump_loop_lines length (length / 2) (length - length / 2) prefix fuel
              Hlen src 0 [] Hfuel) as (new & Hrun & Hcount).
  exists new. rewrite Hrun. cbn [app bind]. auto.
Qed.

Lemma hexdump_line_count_witness :
  exists lines,
    hexdump_lines 49 (repeat x61 48) 16 [] = Ok lines
    /\ hexdump 49 (repeat x61 48) 16 [] = Ok (join_sep 10 lines)
    /\ len lines = (len (repeat x61 48) + 16 - 1) / 16.
Proof.
  apply (hexdump_line_count 49 (repeat x61 48) 16 []); [lia | cbn; lia].
Defined.

Lemma slice_from_nonpos_nonempty {A} (i : Z) (t : list A) :
  i <= 0 -> t <> [] -> slice_from i t <> [].
Proof.
  intros Hi Ht. unfold slice_from, slice_index.
  assert (Hl : 0 < len t) by (destruct t; [congruence | rewrite len_cons; pose proof (len_nonneg t); lia]).
  intros E. apply (f_equal (@List.length _)) in E. rewrite length_drop in E.
  cbn [List.length] in E. unfold len in *.
  destruct (Z.ltb_spec i 0); lia.
Qed.

Lemma hexdump_loop_stuck length left right prefix fuel :
  length <= 0 ->
  forall src n acc,
    src <> [] ->
    hexdump_loop fuel src length left right n prefix acc = OutOfFuel.
Proof.
  intros Hlen. induction fuel as [| fuel IH]; intros src n acc Hne; [reflexivity |].
  destruct src as [| c src']; [congruence |].
  cbn [hexdump_loop]. apply IH. now apply slice_from_nonpos_nonempty.
Qed.

(** X23: with [length] zero or negative, [hexdump] of a non-empty input
    never returns: the slice [src[length:]] is never empty, so the loop
    [while src] does not end, whatever the fuel. *)
Theorem hexdump_nonpositive_length_diverges fuel src length prefix :
  length <= 0 -> src <> [] ->
  hexdump fuel src length prefix = OutOfFuel.
Proof.
  intros Hlen Hne. unfold hexdump, hexdump_lines. cbv zeta.
  now rewrite (hexdump_loop_stuck length _ _ prefix fuel Hlen src 0 [] Hne).
Qed.

Lemma hexdump_nonpositive_length_diverges_witness :
  hexdump 1000 [x61; x62; x63] (-2) [] = OutOfFuel.
Proof.
  apply (hexdump_nonpositive_length_diverges 1000 [x61; x62; x63] (-2) []);
    [lia | discriminate].
Defined.

Lemma hex_digit_char d : 0 <= d < 16 -> dump_char (hex_digit d).
Proof.
  intros Hd. unfold hex_digit, dump_char.
  destruct (Z.ltb_spec d 10); lia.
Qed.

Lemma hex_aux_chars fuel :
  forall n acc, Forall dump_char acc -> Forall dump_char (hex_aux fuel n acc).
Proof.
  induction fuel as [| fuel IH]; intros n acc Hacc; [exact Hacc |].
  cbn [hex_aux].
  assert (Hd : Forall dump_char (hex_digit (n mod 16) :: acc)).
  { constructor; [| exact Hacc]. apply hex_digit_char.
    apply Z.mod_pos_bound. lia. }
  destruct (n <? 16); [exact Hd | now apply IH].
Qed.

Lemma zfill_chars w s : Forall dump_char s -> Forall dump_char (zfill w s).
Proof.
  intros Hs. unfold zfill. apply Forall_app. split; [| exact Hs].
  apply Forall_forall. intros c Hc. apply list_elem_of_In, repeat_spec in Hc.
  subst c. unfold dump_char. lia.
Qed.

Lemma ljust_chars w s : Forall dump_char s -> Forall dump_char (ljust w s).
Proof.
  intros Hs. unfold ljust. apply Forall_app. split; [exact Hs |].
  apply Forall_forall. intros c Hc. apply list_elem_of_In, repeat_spec in Hc.
  subst c. unfold dump_char. lia.
Qed.

Lemma join_sep_chars sep parts :
  dump_char sep -> Forall (Forall dump_char) parts ->
  Forall dump_char (join_sep sep parts).
Proof.
  intros Hsep. induction 1 as [| p rest Hp _ IH]; [constructor |].
  destruct rest as [| p2 rest']; [exact Hp |].
  change (join_sep sep (p :: p2 :: rest')) with (p ++ sep :: join_sep sep (p2 :: rest')).
  apply Forall_app. split; [exact Hp |]. now constructor.
Qed.

Lemma format_04x_chars n : Forall dump_char (format_04x n).
Proof.
  unfold format_04x. destruct (n <? 0).
  - constructor; [unfold dump_char; lia |].
    apply zfill_chars, hex_aux_chars. constructor.
  - apply zfill_chars, hex_aux_chars. constructor.
Qed.

Lemma hex_bytes_chars w (l : bytes) :
  Forall dump_char
    (ljust w (join_sep 32 (map (fun x => format_02x (byte_to_Z x)) l))).
Proof.
  apply ljust_chars, join_sep_chars; [unfold dump_char; lia |].
  apply Forall_forall. intros p Hp.
  apply list_elem_of_In, in_map_iff in Hp. destruct Hp as (x & <- & _).
  apply zfill_chars, hex_aux_chars. constructor.
Qed.

Lemma FILTER_range i :
  in_range 32 127 (FILTER i) = true.
Proof. destruct i; reflexivity. Qed.

Lemma FILTER_chars (l : bytes) : Forall dump_char (map byte_to_N (map FILTER l)).
Proof.
  induction l as [| c l IH]; [constructor |].
  cbn [map]. constructor; [| exact IH].
  pose proof (FILTER_range c) as H. unfold in_range, byte_to_Z in H.
  apply andb_prop in H as [H1 H2]. apply Z.leb_le in H1, H2.
  unfold dump_char, byte_to_N. lia.
Qed.

Lemma FILTER_decodable (l : bytes) : utf8_decodable (map FILTER l) = true.
Proof.
  induction l as [| c l IH]; [reflexivity |].
  cbn [map utf8_decodable].
  assert (H : in_range 0 127 (FILTER c) = true) by (destruct c; reflexivity).
  now rewrite H.
Qed.

Lemma hexdump_line_chars s length left right n prefix :
  exists rest,
    hexdump_line s length left right n prefix = prefix ++ rest
    /\ Forall dump_char rest.
Proof.
  unfold hexdump_line. cbv zeta. eexists. split; [reflexivity |].
  assert (Hsp : dump_char 32) by (unfold dump_char; lia).
  cbn [app].
  apply Forall_app; split; [apply format_04x_chars |].
  do 2 (constructor; [exact Hsp |]).
  apply Forall_app; split; [apply hex_bytes_chars |].
  constructor; [exact Hsp |].
  apply Forall_app; split; [apply hex_bytes_chars |].
  constructor; [exact Hsp |].
  apply Forall_app; split; [apply FILTER_chars |].
  constructor; [exact Hsp | apply FILTER_chars].
Qed.

Lemma hexdump_loop_chars (P : str -> Prop) length left right prefix fuel :
  (forall s n, P (hexdump_line s length left right n prefix)) ->
  forall src n acc lines,
    Forall P acc ->
    hexdump_loop fuel src length left right n prefix acc = Ok lines ->
    Forall P lines.
Proof.
  intros HP. induction fuel as [| fuel IH]; intros src n acc lines Hacc Hrun;
    [discriminate |].
  destruct src as [| c src'].
  - cbn in Hrun. now injection Hrun as <-.
  - cbn [hexdump_loop] in Hrun. apply IH in Hrun; [exact Hrun |].
    apply Forall_app. split; [exact Hacc |]. constructor; [apply HP | constructor].
Qed.

Lemma slice_to_from {A} (i : Z) (t : list A) : slice_to i t ++ slice_from i t = t.
Proof. unfold slice_to, slice_from. apply take_drop. Qed.

Lemma FILTER_dot c :
  (Byte.to_N c < 32 \/ 127 < Byte.to_N c)%N -> byte_to_N (FILTER c) = 46%N.
Proof.
  intros Hc. unfold FILTER, byte_to_Z.
  destruct (Z.ltb_spec (Z.of_N (Byte.to_N c)) 32);
    destruct (Z.gtb_spec (Z.of_N (Byte.to_N c)) 127); cbn [orb]; try reflexivity.
  lia.
Qed.

Lemma FILTER_keeps c :
  (32 <= Byte.to_N c <= 127)%N -> byte_to_N (FILTER c) = Byte.to_N c.
Proof.
  intros Hc. unfold FILTER, byte_to_Z.
  destruct (Z.ltb_spec (Z.of_N (Byte.to_N c)) 32); [lia |].
  destruct (Z.gtb_spec (Z.of_N (Byte.to_N c)) 127); [lia |]. reflexivity.
Qed.

(** The text of the line of a chunk: the hexadecimal part, then the
    filtered bytes of its two halves with a space between them. *)
Lemma hexdump_line_text s length left right n prefix :
  exists head,
    hexdump_line s length left right n prefix =
      prefix ++ head ++ map byte_to_N (map FILTER (slice_to left s))
        ++ [32%N] ++ map byte_to_N (map FILTER (slice_from left s))
    /\ Forall dump_char head.
Proof.
  unfold hexdump_line. cbv zeta.
  exists (format_04x n ++ [32; 32]%N
            ++ ljust (left * 3)
                 (join_sep 32 (map (fun x => format_02x (byte_to_Z x)) (slice_to left s)))
            ++ [32%N]
            ++ ljust (right * 3)
                 (join_sep 32 (map (fun x => format_02x (byte_to_Z x)) (slice_from left s)))
            ++ [32%N]).
  split; [now rewrite <- !app_assoc |].
  assert (Hsp : dump_char 32) by (unfold dump_char; lia).
  apply Forall_app; split; [apply format_04x_chars |].
  cbn [app]. do 2 (constructor; [exact Hsp |]).
  apply Forall_app; split; [apply hex_bytes_chars |].
  constructor; [exact Hsp |].
  apply Forall_app; split; [apply hex_bytes_chars |].
  constructor; [exact Hsp | constructor].
Qed.

(** The lines added by the loop are the lines of the successive chunks of
    the input. *)
Lemma hexdump_loop_chunks length left right prefix fuel :
  forall src n acc lines,
    hexdump_loop fuel src length left right n prefix acc = Ok lines ->
    exists chunks new,
      lines = acc ++ new
      /\ concat chunks = src
      /\ Forall (fun s => 1 <= len s <= length) chunks
      /\ Forall2 (fun s line => exists k,
                    line = hexdump_line s length left right k prefix) chunks new.
Proof.
  induction fuel as [| fuel IH]; intros src n acc lines Hrun; [discriminate |].
  destruct src as [| c src'].
  - cbn in Hrun. injection Hrun as <-. exists [], [].
    rewrite app_nil_r. repeat split; constructor.
  - remember (c :: src') as src eqn:Esrc.
    assert (Hne : src <> []) by (rewrite Esrc; discriminate).
    destruct (Z.le_gt_cases length 0) as [Hle | Hpos].
    { now rewrite (hexdump_loop_stuck length left right prefix (S fuel) Hle
                     src n acc Hne) in Hrun. }
    rewrite Esrc in Hrun. cbn [hexdump_loop] in Hrun. rewrite <- Esrc in Hrun.
    apply IH in Hrun as (chunks & new & -> & Hcat & Hlen & Hlines).
    exists (slice_to length src :: chunks),
      (hexdump_line (slice_to length src) length left right n prefix :: new).
    split; [now rewrite <- app_assoc |].
    split; [cbn [concat]; rewrite Hcat; apply slice_to_from |].
    split.
    + constructor; [| exact Hlen].
      unfold slice_to. rewrite slice_index_pos by lia.
      unfold len. rewrite length_take.
      assert (0 < List.length src)%nat by (rewrite Esrc; cbn; lia). lia.
    + constructor; [| exact Hlines]. now exists n.
Qed.

(** X24: the lines of a dump are the lines of the successive chunks of at
    most [length] bytes of the input. The line of a chunk is the prefix,
    then hexadecimal digits and spaces, then the bytes of the first
    [length / 2] positions of the chunk, a space, and the other bytes of
    the chunk, where every byte below 32 or above 127 is written as a dot
    and every other byte, the byte 127 too, as the character of its code.
    So a line holds characters from the space to code 127 only after the
    prefix. The filtered bytes are always decodable, so [lf.decode()] and
    [rf.decode()] never raise. *)
Theorem hexdump_characters fuel src length prefix lines :
  hexdump_lines fuel src length prefix = Ok lines ->
  (exists chunks,
     concat chunks = src
     /\ Forall (fun s => 1 <= len s <= length) chunks
     /\ Forall2 (fun s line => exists head,
                   line = prefix ++ head
                            ++ map byte_to_N (map FILTER (slice_to (length / 2) s))
                            ++ [32%N]
                            ++ map byte_to_N (map FILTER (slice_from (length / 2) s))
                   /\ Forall dump_char head) chunks lines)
  /\ (forall (i : Z) (s : bytes), slice_to i s ++ slice_from i s = s)
  /\ (forall c, (Byte.to_N c < 32 \/ 127 < Byte.to_N c)%N ->
                byte_to_N (FILTER c) = 46%N)
  /\ (forall c, (32 <= Byte.to_N c <= 127)%N ->
                byte_to_N (FILTER c) = Byte.to_N c)
  /\ Forall (fun line => exists rest, line = prefix ++ rest /\ Forall dump_char rest) lines
  /\ (forall l, utf8_decodable (map FILTER l) = true).
Proof.
  intros Hrun.
  split; [| split; [exact (@slice_to_from byte) |
            split; [exact FILTER_dot |
            split; [exact FILTER_keeps |
            split; [| exact FILTER_decodable]]]]];
    unfold hexdump_lines in Hrun; cbv zeta in Hrun.
  - apply hexdump_loop_chunks in Hrun as (chunks & new & -> & Hcat & Hlen & Hlines).
    exists chunks. split; [exact Hcat |]. split; [exact Hlen |].
    cbn [app]. eapply Forall2_impl; [exact Hlines |].
    intros s line (k & ->). apply hexdump_line_text.
  - eapply hexdump_loop_chars; [| constructor | exact Hrun].
    intros s n. apply hexdump_line_chars.
Qed.

Lemma hexdump_characters_witness :
  (exists chunks,
     concat chunks = [x00; x7f; xff; x41]
     /\ Forall (fun s => 1 <= len s <= 2) chunks
     /\ Forall2 (fun s line => exists head,
                   line = [62%N] ++ head
                            ++ map byte_to_N (map FILTER (slice_to (2 / 2) s))
                            ++ [32%N]
                            ++ map byte_to_N (map FILTER (slice_from (2 / 2) s))
                   /\ Forall dump_char head) chunks
          [[62; 48; 48; 48; 48; 32; 32; 48; 48; 32; 32; 55; 102; 32; 32;
            46; 32; 127];
           [62; 48; 48; 48; 50; 32; 32; 102; 102; 32; 32; 52; 49; 32; 32;
            46; 32; 65]]%N)
  /\ (forall (i : Z) (s : bytes), slice_to i s ++ slice_from i s = s)
  /\ (forall c, (Byte.to_N c < 32 \/ 127 < Byte.to_N c)%N ->
                byte_to_N (FILTER c) = 46%N)
  /\ (forall c, (32 <= Byte.to_N c <= 127)%N ->
                byte_to_N (FILTER c) = Byte.to_N c)
  /\ Forall (fun line => exists rest, line = [62%N] ++ rest /\ Forall dump_char rest)
       [[62; 48; 48; 48; 48; 32; 32; 48; 48; 32; 32; 55; 102; 32; 32;
         46; 32; 127];
        [62; 48; 48; 48; 50; 32; 32; 102; 102; 32; 32; 52; 49; 32; 32;
         46; 32; 65]]%N
  /\ (forall l, utf8_decodable (map FILTER l) = true).
Proof.
  apply (hexdump_characters 3 [x00; x7f; xff; x41] 2 [62%N]).
  vm_compute. reflexivity.
Defined.

(** ** The hexadecimal numerals of the model *)

Lemma hex_digit_value_digit d : 0 <= d < 16 -> hex_digit_value (hex_digit d) = d.
Proof.
  intros Hd. unfold hex_digit, hex_digit_value.
  destruct (Z.ltb_spec d 10).
  - destruct (N.ltb_spec (48 + Z.to_N d) 58); lia.
  - destruct (N.ltb_spec (97 + Z.to_N (d - 10)) 58); lia.
Qed.

Lemma hex_aux_value fuel :
  forall n acc,
    0 <= n < 2 ^ Z.of_nat fuel ->
    (0 < fuel)%nat ->
    exists digits,
      hex_aux fuel n acc = digits ++ acc /\ int_base16 digits = n.
Proof.
  induction fuel as [| fuel IH]; intros n acc Hn Hfuel; [lia |].
  cbn [hex_aux].
  pose proof (Z.mod_pos_bound n 16 ltac:(lia)) as Hm.
  destruct (Z.ltb_spec n 16) as [Hlt | Hge].
  - exists [hex_digit (n mod 16)]. split; [reflexivity |].
    unfold int_base16. cbn [fold_left].
    rewrite hex_digit_value_digit by lia. rewrite Z.mod_small; lia.
  - assert (Hf : (4 < S fuel)%nat).
    { destruct (Nat.le_gt_cases (S fuel) 4) as [Hle | Hgt]; [| exact Hgt].
      assert (2 ^ Z.of_nat (S fuel) <= 2 ^ 4) by (apply Z.pow_le_mono_r; lia).
      change (2 ^ 4) with 16 in *. lia. }
    destruct (IH (n / 16) (hex_digit (n mod 16) :: acc)) as (digits & Hrun & Hval).
    + split; [apply Z.div_pos; lia |].
      apply Z.div_lt_upper_bound; [lia |].
      rewrite Nat2Z.inj_succ, Z.pow_succ_r in Hn by lia. lia.
    + lia.
    + exists (digits ++ [hex_digit (n mod 16)]).
      split; [rewrite Hrun, <- app_assoc; reflexivity |].
      unfold int_base16 in *. rewrite fold_left_app, Hval. cbn [fold_left].
      rewrite hex_digit_value_digit by lia.
      pose proof (Z.div_mod n 16 ltac:(lia)). lia.
Qed.

(** The digits written for a non-negative number are its hexadecimal
    numeral. *)
Lemma hex_value n : 0 <= n -> int_base16 (hex n) = n.
Proof.
  intros Hn. unfold hex.
  destruct (hex_aux_value (S (Z.to_nat (Z.log2 n))) n []) as (digits & Hrun & Hval).
  - split; [exact Hn |].
    rewrite Nat2Z.inj_succ, Z2Nat.id by apply Z.log2_nonneg.
    destruct (Z.eq_dec n 0) as [-> | Hne]; [cbn; lia |].
    apply Z.log2_spec. lia.
  - lia.
  - rewrite Hrun, app_nil_r. exact Hval.
Qed.

(** ** Encoding a name a second time *)

Lemma encode_name_loop_records l ls st st' :
  encode_name_loop (l :: ls) st = Ok st' ->
  exists ptr, names st' !! (l :: ls) = Some ptr.
Proof.
  intros Hrun. cbn [encode_name_loop] in Hrun.
  destruct (names st !! (l :: ls)) as [ptr |] eqn:Elook.
  - unfold pack in Hrun. destruct (_ || _); [discriminate |].
    injection Hrun as <-. exists ptr. exact Elook.
  - destruct (len l >? 63); [discriminate |].
    destruct (append_with_length fmt_B l (set_name (l :: ls) (offset st) st))
      as [st1 | e |] eqn:E1; try discriminate.
    cbn [bind] in Hrun. exists (offset st).
    apply (encode_name_loop_keeps _ _ _ Hrun).
    rewrite (append_with_length_names _ _ _ _ E1). cbn [set_name names].
    apply lookup_insert_eq.
Qed.

Section EncodeTwice.
Context `{idna : Idna}.

(** X25: after [encode_name] has encoded a name that is not the root, the
    whole name is in the compression table, and encoding the same name
    again, on the buffer as it was left, writes nothing but a two-byte
    pointer whose high two bits are set. *)
Theorem encode_name_twice (x : DNSLabelCreateTypes) (name : DNSLabel)
  (st st' : DNSBuffer) :
  as_DNSLabel x = Ok name ->
  label name <> [] ->
  encode_name x st = Ok st' ->
  exists ptr,
    names st' !! label name = Some ptr
    /\ encode_name x st' =
         Ok (write (be_encode 2 (49152 + ptr mod 16384)) st').
Proof.
  intros Hname Hne Hrun. unfold encode_name in *. rewrite Hname in *.
  cbn [bind] in *. destruct (DNSLabel_len name >? 253); [discriminate |].
  destruct (label name) as [| l ls]; [congruence |].
  destruct (encode_name_loop_records l ls st st' Hrun) as [ptr Hptr].
  exists ptr. split; [exact Hptr |].
  cbn [encode_name_loop]. rewrite Hptr, PointerFacts.set_bits_pointer.
  pose proof (Z.mod_pos_bound ptr 16384 ltac:(lia)) as Hm.
  unfold pack. change (2 ^ (8 * Z.of_nat (calcsize fmt_H))) with 65536.
  destruct (Z.ltb_spec (49152 + ptr mod 16384) 0); [lia |].
  destruct (Z.leb_spec 65536 (49152 + ptr mod 16384)); [lia | reflexivity].
Qed.

End EncodeTwice.

Lemma encode_name_twice_witness :
  let st' := mkDNSBuffer [x01; x61; x00] 3 (<[ [[x61]] := 0 ]> ∅) in
  exists ptr,
    names st' !! [[x61]] = Some ptr
    /\ @encode_name ascii_only (of_bytes [x61; dot]) st' =
         Ok (write (be_encode 2 (49152 + ptr mod 16384)) st').
Proof.
  intros st'.
  assert (Hrun : @encode_name ascii_only (of_bytes [x61; dot]) (DNSBuffer_init []) = Ok st')
    by reflexivity.
  exact (@encode_name_twice ascii_only (of_bytes [x61; dot]) (mkDNSLabel [[x61]])
           (DNSBuffer_init []) st' eq_refl ltac:(discriminate) Hrun).
Defined.
